(** * MiniHub: the source-control core, embedded in Rocq

    A shallow embedding of the server side of MiniHub (Express routes over
    Mongoose models): the models [Project], [Branch], [File] and [Commit],
    and the route handlers that create projects, read and write files,
    list commits and manage branches.

    Conventions of the embedding.
    - A MongoDB collection is the list of its documents in insertion
      order; [findOne] without a sort returns the first match of that
      list, [find] the matches in that order.
    - An [ObjectId] is a natural number drawn from a counter kept in the
      store; its string form is the 24 hexadecimal digits of that number.
    - A string is a sequence of bytes (the UTF-8 encoding of the
      JavaScript string).  Lengths are counted in bytes, and white space
      and the case of letters are those of ASCII: on ASCII text they are
      the lengths, the white space and the letters of JavaScript.
    - A record holds the paths of its schema that the handlers read or
      write.  Of the time stamps the [createdAt] of a commit and the
      [lastActivity] of a branch are kept; [updatedAt] and the
      [lastUpdated] of a project, which a save refreshes, are left out.
    - A handler is a function from the store and the request to the new
      store and the response.  [Date.now()] and [Math.random()] are read
      from an environment record passed with the request.  Requests are
      served one after the other.  A handler is modelled from the point
      where its route runs; the body parser of the app, which refuses a
      body of more than 100 kB before any route, is modelled apart.
    - [save] follows Mongoose: the schema validators run first, then the
      [pre('save')] hooks of the schema, then the write, on which the
      unique indexes are checked.
    - The request fields are the values left by the sanitizers of
      express-validator ([trim]); [req.user] is an input of the handler.
      The routes [GET /tree/:projectId] and [GET /content/:projectId/*]
      mount no authentication middleware: the router calls their
      handlers without a user, always. *)

From Stdlib Require Import List String Ascii ZArith NArith Lia Bool Arith.
From Stdlib Require Import Permutation Sorted DecimalString OrderedTypeEx.
Import ListNotations.
Open Scope string_scope.

(** ** JavaScript string operations used by the code *)

Module Js.

(** [s.split(sep)] for a one-character separator. *)
Fixpoint split (sep : ascii) (s : string) : list string :=
  match s with
  | EmptyString => [EmptyString]
  | String c s' =>
      if Ascii.eqb c sep then EmptyString :: split sep s'
      else match split sep s' with
           | [] => [String c EmptyString]
           | piece :: rest => String c piece :: rest
           end
  end.

(** [parts.join(sep)]. *)
Definition join (sep : string) (parts : list string) : string :=
  String.concat sep parts.

Definition lower_char (c : ascii) : ascii :=
  let n := nat_of_ascii c in
  if (65 <=? n)%nat && (n <=? 90)%nat then ascii_of_nat (n + 32) else c.

(** [s.toLowerCase()] on the ASCII letters. *)
Fixpoint toLowerCase (s : string) : string :=
  match s with
  | EmptyString => EmptyString
  | String c s' => String (lower_char c) (toLowerCase s')
  end.

Definition is_space (c : ascii) : bool :=
  let n := nat_of_ascii c in
  (n =? 32)%nat || ((9 <=? n)%nat && (n <=? 13)%nat).

Fixpoint trimStart (s : string) : string :=
  match s with
  | EmptyString => EmptyString
  | String c s' => if is_space c then trimStart s' else s
  end.

Fixpoint reverse_onto (s acc : string) : string :=
  match s with
  | EmptyString => acc
  | String c s' => reverse_onto s' (String c acc)
  end.

Definition reverse (s : string) : string := reverse_onto s EmptyString.

(** [s.trim()], for the white space of ASCII. *)
Definition trim (s : string) : string :=
  trimStart (reverse (trimStart (reverse s))).

(** [s.substring(0, n)]. *)
Definition substring0 (n : nat) (s : string) : string := String.substring 0 n s.

(** [`${n}`] for a non-negative integer. *)
Definition decimal (n : N) : string := NilZero.string_of_uint (N.to_uint n).

(** [content.split('\n').length]. *)
Definition lineCount (content : string) : nat :=
  List.length (split "010"%char content).

(** Does [s] start with [prefix], letters compared without case? *)
Fixpoint startsWith_ci (prefix s : string) : bool :=
  match prefix, s with
  | EmptyString, _ => true
  | String _ _, EmptyString => false
  | String a p', String b s' =>
      Ascii.eqb (lower_char a) (lower_char b) && startsWith_ci p' s'
  end.

(** Comparison of strings by code units, the order of [sort] in MongoDB
    with the default (binary) collation. *)
Definition leb (a b : string) : bool :=
  match String.compare a b with
  | Gt => false
  | _ => true
  end.

End Js.

(** ** Hexadecimal rendering *)

Module Hex.

Definition digit (n : Z) : ascii :=
  match n with
  | 0 => "0" | 1 => "1" | 2 => "2" | 3 => "3" | 4 => "4" | 5 => "5"
  | 6 => "6" | 7 => "7" | 8 => "8" | 9 => "9" | 10 => "a" | 11 => "b"
  | 12 => "c" | 13 => "d" | 14 => "e" | _ => "f"
  end%Z%char.

(** The [digits] low hexadecimal digits of [z], most significant first. *)
Fixpoint render (digits : nat) (z : Z) : string :=
  match digits with
  | O => EmptyString
  | S k => String (digit (Z.land (Z.shiftr z (4 * Z.of_nat k)) 15)) (render k z)
  end.

Definition is_digit (c : ascii) : bool :=
  let n := nat_of_ascii c in
  ((48 <=? n)%nat && (n <=? 57)%nat) || ((97 <=? n)%nat && (n <=? 102)%nat).

Fixpoint all_digits (s : string) : bool :=
  match s with
  | EmptyString => true
  | String c s' => is_digit c && all_digits s'
  end.

End Hex.

(** ** SHA-1, as [crypto.createHash('sha1')] computes it (FIPS 180-4) *)

Module Sha1.
Local Open Scope Z_scope.

Definition word (z : Z) : Z := Z.land z 4294967295.

Definition rotl (n : Z) (x : Z) : Z :=
  word (Z.lor (Z.shiftl x n) (Z.shiftr x (32 - n))).

Definition bytes_of_string (s : string) : list Z :=
  map (fun c => Z.of_nat (nat_of_ascii c)) (list_ascii_of_string s).

Definition be_bytes (count : nat) (z : Z) : list Z :=
  map (fun k => Z.land (Z.shiftr z (8 * Z.of_nat k)) 255) (rev (seq 0 count)).

Definition pad (msg : list Z) : list Z :=
  let len := Z.of_nat (List.length msg) in
  let zeros := Z.to_nat ((55 - len) mod 64) in
  msg ++ [128] ++ repeat 0 zeros ++ be_bytes 8 (8 * len).

Fixpoint chunks (fuel size : nat) (l : list Z) : list (list Z) :=
  match fuel, l with
  | _, [] => []
  | O, _ => []
  | S fuel', _ => firstn size l :: chunks fuel' size (skipn size l)
  end.

Definition be_word (bs : list Z) : Z :=
  fold_left (fun acc b => acc * 256 + b) bs 0.

Fixpoint extend (count : nat) (rev_ws : list Z) : list Z :=
  match count with
  | O => rev_ws
  | S k =>
      let w := rotl 1 (Z.lxor (Z.lxor (nth 2 rev_ws 0) (nth 7 rev_ws 0))
                              (Z.lxor (nth 13 rev_ws 0) (nth 15 rev_ws 0))) in
      extend k (w :: rev_ws)
  end.

Definition schedule (block : list Z) : list Z :=
  rev (extend 64 (rev (map be_word (chunks 16 4 block)))).

Definition State : Type := (Z * Z * Z * Z * Z)%type.

Definition round (i : nat) (w : Z) (st : State) : State :=
  let '(a, b, c, d, e) := st in
  let '(f, k) :=
    if (i <? 20)%nat then
      (Z.lor (Z.land b c) (Z.land (Z.lxor b 4294967295) d), 1518500249)
    else if (i <? 40)%nat then (Z.lxor (Z.lxor b c) d, 1859775393)
    else if (i <? 60)%nat then
      (Z.lor (Z.lor (Z.land b c) (Z.land b d)) (Z.land c d), 2400959708)
    else (Z.lxor (Z.lxor b c) d, 3395469782) in
  (word (rotl 5 a + f + e + k + w), a, rotl 30 b, c, d).

Fixpoint rounds (i : nat) (ws : list Z) (st : State) : State :=
  match ws with
  | [] => st
  | w :: ws' => rounds (S i) ws' (round i w st)
  end.

Definition compress (st : State) (block : list Z) : State :=
  let '(h0, h1, h2, h3, h4) := st in
  let '(a, b, c, d, e) := rounds 0 (schedule block) st in
  (word (h0 + a), word (h1 + b), word (h2 + c), word (h3 + d), word (h4 + e)).

Definition init : State :=
  (1732584193, 4023233417, 2562383102, 271733878, 3285377520).

Definition digest (s : string) : State :=
  let padded := pad (bytes_of_string s) in
  fold_left compress (chunks (List.length padded) 64 padded) init.

(** [createHash('sha1').update(s).digest('hex')]: forty hexadecimal digits. *)
Definition hex (s : string) : string :=
  let '(h0, h1, h2, h3, h4) := digest s in
  (Hex.render 8 h0 ++ Hex.render 8 h1 ++ Hex.render 8 h2
     ++ Hex.render 8 h3 ++ Hex.render 8 h4)%string.

End Sha1.

(** ** Documents, queries and results *)

Definition ObjectId : Type := nat.

(** [id.toString()], also what a template literal does with an ObjectId.
    The code compares ids through [toString]; the embedding compares the
    ids themselves. *)
Definition oid_toString (id : ObjectId) : string := Hex.render 24 (Z.of_nat id).

(** What the handler reads from outside the store. *)
Record Env : Type := {
  now : N;            (* Date.now(), milliseconds *)
  random : string     (* `${Math.random()}` *)
}.

Inductive SaveError : Type :=
| ValidationError (path : string)
| DuplicateKey (index : string).

(** An HTTP response: the status and the JSON body, or the status and the
    [message] of an error body. *)
Inductive Result (A : Type) : Type :=
| Sent (status : nat) (body : A)
| Failed (status : nat) (message : string).
Arguments Sent {A} status body.
Arguments Failed {A} status message.

Definition status_of {A : Type} (r : Result A) : nat :=
  match r with
  | Sent status _ => status
  | Failed status _ => status
  end.

Fixpoint insert_sorted {A : Type} (le : A -> A -> bool) (x : A) (l : list A) : list A :=
  match l with
  | [] => [x]
  | y :: l' => if le x y then x :: l else y :: insert_sorted le x l'
  end.

(** [.sort(...)] of a query: a stable sort by the given order. *)
Definition sort_by {A : Type} (le : A -> A -> bool) (l : list A) : list A :=
  fold_right (insert_sorted le) [] l.

(** [maxlength] of a schema and [isLength({ max })] of a route, on the
    length in bytes. *)
Definition maxlength (n : N) (s : string) : bool :=
  (N.of_nat (String.length s) <=? n)%N.

Definition required (s : string) : bool := negb (s =? "").

Definition opt_maxlength (n : N) (s : option string) : bool :=
  match s with
  | Some v => maxlength n v
  | None => true
  end.

(** [isHexadecimal] of validator.js, [/^(0x|0h)?[0-9A-F]+$/i]. *)
Definition hexPrefixed (s : string) : bool :=
  match s with
  | String a (String b _) =>
      Ascii.eqb a "0"
      && (Ascii.eqb (Js.lower_char b) "x" || Ascii.eqb (Js.lower_char b) "h")
  | _ => false
  end.

Definition isHexadecimal (s : string) : bool :=
  let digits := if hexPrefixed s then String.substring 2 (String.length s - 2) s else s in
  negb (digits =? "")
  && forallb (fun c => Hex.is_digit (Js.lower_char c)) (list_ascii_of_string digits).

(** [isMongoId] of express-validator: [isHexadecimal(str) && str.length === 24]. *)
Definition isMongoId (s : string) : bool :=
  isHexadecimal s && (String.length s =? 24)%nat.

(** ** models/Project.js *)

Module Project.

Record Collaborator : Type := {
  user : ObjectId;
  role : string
}.

Record t : Type := {
  _id : ObjectId;
  title : string;
  description : string;
  readme : string;
  owner : ObjectId;
  collaborators : list Collaborator;
  isPublic : bool
}.

(** [const roleHierarchy = { 'viewer': 1, 'editor': 2, 'admin': 3 }];
    any other key reads [undefined]. *)
Definition roleHierarchy (r : string) : option nat :=
  if r =? "viewer" then Some 1
  else if r =? "editor" then Some 2
  else if r =? "admin" then Some 3
  else None.

(** [projectSchema.methods.hasPermission]. A comparison with [undefined]
    is false. *)
Definition hasPermission (this : t) (userId : ObjectId) (requiredRole : string) : bool :=
  if (owner this =? userId)%nat then true
  else
    match find (fun col => (user col =? userId)%nat) (collaborators this) with
    | None => false
    | Some collaborator =>
        match roleHierarchy (role collaborator), roleHierarchy requiredRole with
        | Some have, Some need => (need <=? have)%nat
        | _, _ => false
        end
    end.

Definition with_collaborators (l : list Collaborator) (p : t) : t :=
  {| _id := _id p; title := title p; description := description p;
     readme := readme p; owner := owner p; collaborators := l;
     isPublic := isPublic p |}.

(** [projectSchema.methods.addCollaborator], before its [this.save()];
    on the left the message of the error it throws. *)
Definition addCollaborator (this : t) (userId : ObjectId) (role' : string)
  : string + t :=
  match find (fun col => (user col =? userId)%nat) (collaborators this) with
  | Some _ => inl "User is already a collaborator"
  | None =>
      if (owner this =? userId)%nat then inl "Owner cannot be added as collaborator"
      else
        inr (with_collaborators
               (collaborators this ++ [{| user := userId; role := role' |}])%list this)
  end.

(** [projectSchema.methods.removeCollaborator] for an id, before its
    [this.save()]. *)
Definition removeCollaborator (this : t) (userId : ObjectId) : t :=
  with_collaborators
    (filter (fun col => negb (user col =? userId)%nat) (collaborators this)) this.

(** The same method for the text of an id, which is what the route passes:
    [collab.user.toString() !== userId.toString()] compares the string
    form of each collaborator with that text. *)
Definition removeCollaboratorByText (this : t) (text : string) : t :=
  with_collaborators
    (filter (fun col => negb (oid_toString (user col) =? text)) (collaborators this))
    this.

Definition is_role (r : string) : bool :=
  (r =? "viewer") || (r =? "editor") || (r =? "admin").

Definition validate (this : t) : option SaveError :=
  if negb (required (title this) && maxlength 100 (title this)) then
    Some (ValidationError "title")
  else if negb (required (description this) && maxlength 500 (description this)) then
    Some (ValidationError "description")
  else if negb (maxlength 10000 (readme this)) then Some (ValidationError "readme")
  else if negb (forallb (fun col => is_role (role col)) (collaborators this)) then
    Some (ValidationError "collaborators")
  else None.

Definition replace (this : t) (projects : list t) : list t :=
  map (fun p => if (_id p =? _id this)%nat then this else p) projects.

End Project.

(** ** models/File.js *)

Module File.

Record t : Type := {
  _id : ObjectId;
  project : ObjectId;
  path : string;
  name : string;
  content : string;
  type : string;
  extension : option string;
  size : nat;
  language : string;
  branch : string;
  lastCommit : option ObjectId;
  isDeleted : bool;
  parentDirectory : option ObjectId
}.

(** The setter of [path] and [name] ([trim: true]); Mongoose applies it to
    the documents it builds and to the values of a query filter. *)
Definition cast (s : string) : string := Js.trim s.

(** The setter of [extension] ([trim: true, lowercase: true]). *)
Definition cast_extension (s : string) : string := Js.toLowerCase (Js.trim s).

(** [new File({ project, name, path, content, branch, type: 'file' })],
    the other paths at their schema defaults. *)
Definition new (id project : ObjectId) (name' path' content' branch' : string) : t :=
  {| _id := id; project := project; path := cast path'; name := cast name';
     content := content'; type := "file"; extension := None; size := 0;
     language := "text"; branch := branch'; lastCommit := None;
     isDeleted := false; parentDirectory := None |}.

Definition with_content (c : string) (f : t) : t :=
  {| _id := _id f; project := project f; path := path f; name := name f;
     content := c; type := type f; extension := extension f; size := size f;
     language := language f; branch := branch f; lastCommit := lastCommit f;
     isDeleted := isDeleted f; parentDirectory := parentDirectory f |}.

Definition with_lastCommit (c : option ObjectId) (f : t) : t :=
  {| _id := _id f; project := project f; path := path f; name := name f;
     content := content f; type := type f; extension := extension f; size := size f;
     language := language f; branch := branch f; lastCommit := c;
     isDeleted := isDeleted f; parentDirectory := parentDirectory f |}.

Definition with_isDeleted (d : bool) (f : t) : t :=
  {| _id := _id f; project := project f; path := path f; name := name f;
     content := content f; type := type f; extension := extension f; size := size f;
     language := language f; branch := branch f; lastCommit := lastCommit f;
     isDeleted := d; parentDirectory := parentDirectory f |}.

Definition with_derived (ext : option string) (lang : string) (sz : nat) (f : t) : t :=
  {| _id := _id f; project := project f; path := path f; name := name f;
     content := content f; type := type f; extension := ext; size := sz;
     language := lang; branch := branch f; lastCommit := lastCommit f;
     isDeleted := isDeleted f; parentDirectory := parentDirectory f |}.

(** The virtual [fullPath]. *)
Definition fullPath (this : t) : string :=
  if path this =? "/" then "/" ++ name this else path this ++ "/" ++ name this.

Definition extensions : list (string * string) :=
  [("js", "JavaScript"); ("ts", "TypeScript"); ("jsx", "React JSX");
   ("tsx", "React TSX"); ("py", "Python"); ("java", "Java"); ("cpp", "C++");
   ("c", "C"); ("cs", "C#"); ("php", "PHP"); ("rb", "Ruby"); ("go", "Go");
   ("rs", "Rust"); ("html", "HTML"); ("css", "CSS"); ("scss", "SCSS");
   ("json", "JSON"); ("xml", "XML"); ("md", "Markdown"); ("yaml", "YAML");
   ("yml", "YAML"); ("sql", "SQL"); ("sh", "Shell"); ("bash", "Bash")].

(** [detectLanguage]: [this.language = extensions[this.extension] || 'Text'].
    The object literal answers for the names it inherits, too: under
    [constructor] it holds the function [Object], which the path stores
    as its source text, and under [__proto__] an object, which a String
    path refuses, so that the language stays as it is. *)
Definition detectLanguage (ext : option string) (current : string) : string :=
  match ext with
  | None => "Text"
  | Some e =>
      if e =? "constructor" then "function Object() { [native code] }"
      else if e =? "__proto__" then current
      else
        match find (fun kv => fst kv =? e) extensions with
        | Some kv => snd kv
        | None => "Text"
        end
  end.

(** [calculateSize]: [Buffer.byteLength(this.content, 'utf8')]. *)
Definition calculateSize (this : t) : nat := String.length (content this).

(** [fileSchema.pre('save')], given which paths are modified. *)
Definition pre_save (modified_name modified_content : bool) (this : t) : t :=
  let this1 :=
    if modified_name then
      let parts := Js.split "."%char (name this) in
      let ext :=
        if (1 <? List.length parts)%nat
        then Some (cast_extension (Js.toLowerCase (last parts "")))
        else extension this in
      with_derived ext (detectLanguage ext (language this)) (size this) this
    else this in
  if modified_content
  then with_derived (extension this1) (language this1) (calculateSize this1) this1
  else this1.

Definition is_type (s : string) : bool := (s =? "file") || (s =? "directory").

(** The validators of the schema, on a new document. *)
Definition validate (this : t) : option SaveError :=
  if negb (required (path this) && maxlength 500 (path this)) then
    Some (ValidationError "path")
  else if negb (required (name this) && maxlength 255 (name this)) then
    Some (ValidationError "name")
  else if negb (maxlength 1000000 (content this)) then Some (ValidationError "content")
  else if negb (is_type (type this)) then Some (ValidationError "type")
  else if negb (opt_maxlength 10 (extension this)) then Some (ValidationError "extension")
  else if negb (maxlength 50 (language this)) then Some (ValidationError "language")
  else if negb (maxlength 100 (branch this)) then Some (ValidationError "branch")
  else None.

(** The validators that run when a document is saved again.  Mongoose
    validates the required paths, the modified paths and every path that
    was read from the store: for a document that a query returned
    ([loaded]) all the validators of the schema run again, on
    [extension] too, which the hook derived after the validation of the
    first save.  For a document that the handler built and saved itself
    they are those of the required paths and of [content] when it is
    modified. *)
Definition validate_modified (loaded modified_content : bool) (this : t)
  : option SaveError :=
  if loaded then validate this
  else if negb (required (path this)) then Some (ValidationError "path")
  else if negb (required (name this)) then Some (ValidationError "name")
  else if modified_content && negb (maxlength 1000000 (content this)) then
    Some (ValidationError "content")
  else None.

Definition replace (this : t) (files : list t) : list t :=
  map (fun f => if (_id f =? _id this)%nat then this else f) files.

(** [save()] of a new document. *)
Definition save_new (this : t) (files : list t) : list t * t * option SaveError :=
  match validate this with
  | Some e => (files, this, Some e)
  | None => let this' := pre_save true true this in ((files ++ [this'])%list, this', None)
  end.

(** [save()] of a document that is in the store: one that a query
    returned ([loaded]), or one that the handler saved before. *)
Definition save (loaded modified_content : bool) (this : t) (files : list t)
  : list t * t * option SaveError :=
  match validate_modified loaded modified_content this with
  | Some e => (files, this, Some e)
  | None =>
      let this' := pre_save false modified_content this in
      (replace this' files, this', None)
  end.

(** The filter [{ project, name, path, branch, isDeleted: false }]. *)
Definition live_at (project' : ObjectId) (name' path' branch' : string) (f : t) : bool :=
  (project f =? project')%nat && (name f =? cast name') && (path f =? cast path')
  && (branch f =? branch') && negb (isDeleted f).

(** The order of [.sort({ type: -1, name: 1 })]. *)
Definition tree_order (a b : t) : bool :=
  match String.compare (type a) (type b) with
  | Gt => true
  | Lt => false
  | Eq => Js.leb (name a) (name b)
  end.

End File.

(** ** models/Commit.js *)

Module Commit.

Record Change : Type := {
  file : option ObjectId;
  action : string;
  filePath : string;
  oldPath : option string;
  linesAdded : nat;
  linesDeleted : nat
}.

Record Stats : Type := {
  filesChanged : nat;
  totalLinesAdded : nat;
  totalLinesDeleted : nat
}.

(** [hash] is [None] while the document has no hash ([undefined]). *)
Record t : Type := {
  _id : ObjectId;
  project : ObjectId;
  hash : option string;
  message : string;
  author : ObjectId;
  branch : string;
  parentCommits : list ObjectId;
  changes : list Change;
  stats : Stats;
  createdAt : N
}.

(** [new Commit({ project, message, author, branch, changes })]. *)
Definition new (id project' : ObjectId) (message' : string) (author' : ObjectId)
  (branch' : string) (changes' : list Change) : t :=
  {| _id := id; project := project'; hash := None; message := message';
     author := author'; branch := branch'; parentCommits := []; changes := changes';
     stats := {| filesChanged := 0; totalLinesAdded := 0; totalLinesDeleted := 0 |};
     createdAt := 0 |}.

Definition with_hash (h : option string) (c : t) : t :=
  {| _id := _id c; project := project c; hash := h; message := message c;
     author := author c; branch := branch c; parentCommits := parentCommits c;
     changes := changes c; stats := stats c; createdAt := createdAt c |}.

Definition with_stats (s : Stats) (c : t) : t :=
  {| _id := _id c; project := project c; hash := hash c; message := message c;
     author := author c; branch := branch c; parentCommits := parentCommits c;
     changes := changes c; stats := s; createdAt := createdAt c |}.

Definition with_createdAt (time : N) (c : t) : t :=
  {| _id := _id c; project := project c; hash := hash c; message := message c;
     author := author c; branch := branch c; parentCommits := parentCommits c;
     changes := changes c; stats := stats c; createdAt := time |}.

(** [generateHash]: the first seven hexadecimal digits of the SHA-1 of
    [`${project}${message}${author}${Date.now()}${Math.random()}`]. *)
Definition generateHash (env : Env) (this : t) : string :=
  let content :=
    oid_toString (project this) ++ message this ++ oid_toString (author this)
      ++ Js.decimal (now env) ++ random env in
  Js.substring0 7 (Sha1.hex content).

(** [calculateStats]. *)
Definition calculateStats (this : t) : Stats :=
  {| filesChanged := List.length (changes this);
     totalLinesAdded :=
       fold_left (fun sum change => sum + linesAdded change) (changes this) 0;
     totalLinesDeleted :=
       fold_left (fun sum change => sum + linesDeleted change) (changes this) 0 |}.

(** The virtual [shortHash]: [this.hash ? this.hash.substring(0, 7) : '']. *)
Definition shortHash (this : t) : string :=
  match hash this with
  | Some h => Js.substring0 7 h
  | None => ""
  end.

(** [!this.hash]: no hash, or the empty string. *)
Definition no_hash (this : t) : bool :=
  match hash this with
  | Some h => h =? ""
  | None => true
  end.

(** [commitSchema.pre('save')]. *)
Definition pre_save (env : Env) (this : t) : t :=
  let this1 := if no_hash this then with_hash (Some (generateHash env this)) this else this in
  with_stats (calculateStats this1) this1.

Definition is_action (s : string) : bool :=
  (s =? "added") || (s =? "modified") || (s =? "deleted") || (s =? "renamed").

Definition validate_change (c : Change) : bool :=
  is_action (action c) && required (filePath c).

(** The validators of the schema: [hash], [message] and [branch] are
    required.  They run when [save] is called, before the hooks
    registered with [pre('save')]; a document without a hash is refused
    here ("Commit hash is required"). *)
Definition validate (this : t) : option SaveError :=
  if no_hash this then Some (ValidationError "hash")
  else if negb (required (message this) && maxlength 500 (message this)) then
    Some (ValidationError "message")
  else if negb (required (branch this) && maxlength 100 (branch this)) then
    Some (ValidationError "branch")
  else if negb (forallb validate_change (changes this)) then
    Some (ValidationError "changes")
  else None.

Definition has_hash (h : option string) (c : t) : bool :=
  match h, hash c with
  | Some a, Some b => a =? b
  | _, _ => false
  end.

(** [save()] of a new commit: validation, the hook, then the insertion,
    which the unique index on [hash] rejects when the hash is taken. *)
Definition save (env : Env) (this : t) (commits : list t)
  : list t * t * option SaveError :=
  match validate this with
  | Some e => (commits, this, Some e)
  | None =>
      let this' := with_createdAt (now env) (pre_save env this) in
      if existsb (has_hash (hash this')) commits
      then (commits, this', Some (DuplicateKey "hash"))
      else ((commits ++ [this'])%list, this', None)
  end.

(** The order of [.sort({ createdAt: -1 })]. *)
Definition newest_first (a b : t) : bool := (createdAt b <=? createdAt a)%N.

(** [Commit.find({ project, branch }).sort({ createdAt: -1 })]. *)
Definition of_branch (project' : ObjectId) (branch' : string) (commits : list t) : list t :=
  sort_by newest_first
    (filter (fun c => (project c =? project')%nat && (branch c =? branch')) commits).

(** The filter [{ project, hash: { $regex: `^${commitHash}`, $options: 'i' } }]
    for a [commitHash] without regular-expression operators. *)
Definition matches_prefix (project' : ObjectId) (commitHash : string) (c : t) : bool :=
  (project c =? project')%nat &&
  match hash c with
  | Some h => Js.startsWith_ci commitHash h
  | None => false
  end.

End Commit.

(** ** models/Branch.js *)

Module Branch.

Record Stats : Type := {
  totalCommits : nat;
  commitsAhead : nat;
  commitsBehind : nat;
  lastActivity : N
}.

Record t : Type := {
  _id : ObjectId;
  project : ObjectId;
  name : string;
  description : option string;
  isDefault : bool;
  isProtected : bool;
  creator : ObjectId;
  lastCommit : option ObjectId;
  parentBranch : option ObjectId;
  stats : Stats
}.

Definition with_isDefault (d : bool) (b : t) : t :=
  {| _id := _id b; project := project b; name := name b;
     description := description b; isDefault := d; isProtected := isProtected b;
     creator := creator b; lastCommit := lastCommit b;
     parentBranch := parentBranch b; stats := stats b |}.

Definition with_isProtected (p : bool) (b : t) : t :=
  {| _id := _id b; project := project b; name := name b;
     description := description b; isDefault := isDefault b; isProtected := p;
     creator := creator b; lastCommit := lastCommit b;
     parentBranch := parentBranch b; stats := stats b |}.

Definition with_description (d : option string) (b : t) : t :=
  {| _id := _id b; project := project b; name := name b;
     description := d; isDefault := isDefault b; isProtected := isProtected b;
     creator := creator b; lastCommit := lastCommit b;
     parentBranch := parentBranch b; stats := stats b |}.

Definition with_activity (s : Stats) (last : option ObjectId) (b : t) : t :=
  {| _id := _id b; project := project b; name := name b;
     description := description b; isDefault := isDefault b;
     isProtected := isProtected b; creator := creator b; lastCommit := last;
     parentBranch := parentBranch b; stats := s |}.

Definition validate (this : t) : option SaveError :=
  if negb (required (name this) && maxlength 100 (name this)) then
    Some (ValidationError "name")
  else if negb (opt_maxlength 200 (description this)) then
    Some (ValidationError "description")
  else None.

(** [branchSchema.pre('save')]: when [isDefault] is set and modified,
    [updateMany({ project, _id: { $ne: this._id } }, { isDefault: false })].
    The update is issued without being awaited; the embedding applies it
    before the write of the document. *)
Definition pre_save (modified_isDefault : bool) (this : t) (branches : list t) : list t :=
  if isDefault this && modified_isDefault then
    map (fun b =>
           if (project b =? project this)%nat && negb (_id b =? _id this)%nat
           then with_isDefault false b else b) branches
  else branches.

Definition same_key (a b : t) : bool :=
  (project a =? project b)%nat && (name a =? name b).

(** [save()] of a new branch; the unique index is on [(project, name)]. *)
Definition save_new (modified_isDefault : bool) (this : t) (branches : list t)
  : list t * option SaveError :=
  match validate this with
  | Some e => (branches, Some e)
  | None =>
      let branches' := pre_save modified_isDefault this branches in
      if existsb (same_key this) branches'
      then (branches', Some (DuplicateKey "project_1_name_1"))
      else ((branches' ++ [this])%list, None)
  end.

Definition replace (this : t) (branches : list t) : list t :=
  map (fun b => if (_id b =? _id this)%nat then this else b) branches.

(** [save()] of a branch read from the store. *)
Definition save (modified_isDefault : bool) (this : t) (branches : list t)
  : list t * option SaveError :=
  match validate this with
  | Some e => (branches, Some e)
  | None => (replace this (pre_save modified_isDefault this branches), None)
  end.

(** The document [createMain] passes to [this.create]. *)
Definition main (id projectId creatorId : ObjectId) (time : N) : t :=
  {| _id := id; project := projectId; name := "main";
     description := Some "Main branch"; isDefault := true; isProtected := true;
     creator := creatorId; lastCommit := None; parentBranch := None;
     stats := {| totalCommits := 0; commitsAhead := 0; commitsBehind := 0;
                 lastActivity := time |} |}.

(** [branchSchema.statics.createMain]. *)
Definition createMain (id projectId creatorId : ObjectId) (time : N) (branches : list t)
  : list t * t * option SaveError :=
  let this := main id projectId creatorId time in
  let '(branches', e) := save_new true this branches in
  (branches', this, e).

(** [updateStats], before its [this.save()]. *)
Definition updatedStats (this : t) (commits : list Commit.t) : t :=
  let mine := Commit.of_branch (project this) (name this) commits in
  let s := {| totalCommits := List.length mine;
              commitsAhead := commitsAhead (stats this);
              commitsBehind := commitsBehind (stats this);
              lastActivity := lastActivity (stats this) |} in
  match mine with
  | [] => with_activity s (lastCommit this) this
  | newest :: _ =>
      with_activity
        {| totalCommits := List.length mine;
           commitsAhead := commitsAhead (stats this);
           commitsBehind := commitsBehind (stats this);
           lastActivity := Commit.createdAt newest |}
        (Some (Commit._id newest)) this
  end.

(** [branchSchema.methods.updateStats]. *)
Definition updateStats (this : t) (commits : list Commit.t) (branches : list t)
  : list t * t * option SaveError :=
  let this' := updatedStats this commits in
  let '(branches', e) := save false this' branches in
  (branches', this', e).

(** [new Set(commits.map(c => c.hash))], with [has]. *)
Definition hashes (commits : list Commit.t) : list (option string) :=
  map Commit.hash commits.

Definition has (set : list (option string)) (h : option string) : bool :=
  existsb (fun h' =>
             match h, h' with
             | Some a, Some b => a =? b
             | None, None => true
             | _, _ => false
             end) set.

(** The two counts of [calculateDifference]. *)
Definition difference (this : t) (targetBranch : string) (commits : list Commit.t)
  : nat * nat :=
  let thisCommits := Commit.of_branch (project this) (name this) commits in
  let targetCommits := Commit.of_branch (project this) targetBranch commits in
  let thisHashes := hashes thisCommits in
  let targetHashes := hashes targetCommits in
  (List.length (filter (fun c => negb (has targetHashes (Commit.hash c))) thisCommits),
   List.length (filter (fun c => negb (has thisHashes (Commit.hash c))) targetCommits)).

(** [branchSchema.methods.calculateDifference]. *)
Definition calculateDifference (this : t) (targetBranch : string)
  (commits : list Commit.t) (branches : list t) : list t * t * option SaveError :=
  let '(ahead, behind) := difference this targetBranch commits in
  let this' :=
    with_activity
      {| totalCommits := totalCommits (stats this); commitsAhead := ahead;
         commitsBehind := behind; lastActivity := lastActivity (stats this) |}
      (lastCommit this) this in
  let '(branches', e) := save false this' branches in
  (branches', this', e).

End Branch.

(** ** The store *)

Record Db : Type := {
  projects : list Project.t;
  branches : list Branch.t;
  files : list File.t;
  commits : list Commit.t;
  nextId : ObjectId
}.

Definition empty : Db :=
  {| projects := []; branches := []; files := []; commits := []; nextId := 0 |}.

Definition with_projects (l : list Project.t) (db : Db) : Db :=
  {| projects := l; branches := branches db; files := files db;
     commits := commits db; nextId := nextId db |}.

Definition with_branches (l : list Branch.t) (db : Db) : Db :=
  {| projects := projects db; branches := l; files := files db;
     commits := commits db; nextId := nextId db |}.

Definition with_files (l : list File.t) (db : Db) : Db :=
  {| projects := projects db; branches := branches db; files := l;
     commits := commits db; nextId := nextId db |}.

Definition with_commits (l : list Commit.t) (db : Db) : Db :=
  {| projects := projects db; branches := branches db; files := files db;
     commits := l; nextId := nextId db |}.

(** A new ObjectId is taken when a document is constructed. *)
Definition with_nextId (n : ObjectId) (db : Db) : Db :=
  {| projects := projects db; branches := branches db; files := files db;
     commits := commits db; nextId := n |}.

(** [Project.findById]. *)
Definition findProject (db : Db) (projectId : ObjectId) : option Project.t :=
  find (fun p => (Project._id p =? projectId)%nat) (projects db).

(** [Branch.findOne({ project, name })]. *)
Definition findBranch (db : Db) (projectId : ObjectId) (name : string) : option Branch.t :=
  find (fun b => (Branch.project b =? projectId)%nat && (Branch.name b =? name))
       (branches db).

(** The access test of the reading routes:
    [!project.isPublic && (!req.user || !project.hasPermission(req.user._id, 'viewer'))]. *)
Definition denied (project : Project.t) (user : option ObjectId) : bool :=
  negb (Project.isPublic project) &&
  match user with
  | None => true
  | Some u => negb (Project.hasPermission project u "viewer")
  end.

(** The path parsing shared by the three [/content/:projectId/*] routes:
    the file name and the directory path of [req.params[0]]. *)
Definition parsePath (filePath : string) : string * string :=
  let pathParts := Js.split "/"%char filePath in
  let fileName := last pathParts "" in
  let rest := removelast pathParts in
  let dirPath :=
    match rest with
    | [] => "/"
    | _ :: _ => "/" ++ Js.join "/" rest
    end in
  (dirPath, fileName).

(** ** routes/files.js *)

(** [GET /tree/:projectId].  No middleware sets [req.user] on this route:
    the router calls the handler with [None]. *)
Definition getTree (db : Db) (user : option ObjectId) (projectId : ObjectId)
  (branch path : option string) : Result (list File.t) :=
  let branch := match branch with Some b => b | None => "main" end in
  let path := match path with Some p => p | None => "/" end in
  match findProject db projectId with
  | None => Failed 404 "Project not found"
  | Some project =>
      if denied project user then Failed 403 "Access denied"
      else
        Sent 200
          (sort_by File.tree_order
             (filter (fun f => (File.project f =? projectId)%nat
                               && (File.branch f =? branch)
                               && (File.path f =? File.cast path)
                               && negb (File.isDeleted f))
                     (files db)))
  end.

(** [GET /content/:projectId/*].  No middleware sets [req.user] on this
    route: the router calls the handler with [None]. *)
Definition getContent (db : Db) (user : option ObjectId) (projectId : ObjectId)
  (filePath : string) (branch : option string) : Result File.t :=
  let branch := match branch with Some b => b | None => "main" end in
  match findProject db projectId with
  | None => Failed 404 "Project not found"
  | Some project =>
      if denied project user then Failed 403 "Access denied"
      else
        let '(dirPath, fileName) := parsePath filePath in
        match find (fun f => File.live_at projectId fileName dirPath branch f
                             && (File.type f =? "file")) (files db) with
        | None => Failed 404 "File not found"
        | Some file => Sent 200 file
        end
  end.

Record PutRequest : Type := {
  put_projectId : ObjectId;
  put_filePath : string;
  put_content : string;
  put_message : string;
  put_branch : option string
}.

(** The change entry of the commit of [PUT /content/:projectId/*]. *)
Definition putChange (file : File.t) (isNewFile : bool) (content oldContent : string)
  : Commit.Change :=
  {| Commit.file := Some (File._id file);
     Commit.action := if isNewFile then "added" else "modified";
     Commit.filePath := File.fullPath file;
     Commit.oldPath := None;
     Commit.linesAdded := if isNewFile then Js.lineCount content else 0;
     Commit.linesDeleted := if isNewFile then 0 else Js.lineCount oldContent |}.

(** What [commit.save()] is to a handler: from the commit and the ledger
    to the new ledger, the saved commit and the error, if any. *)
Definition CommitSave : Type :=
  Env -> Commit.t -> list Commit.t -> list Commit.t * Commit.t * option SaveError.

(** A [save] that accepts every commit and stores it as it is handed
    over; it shows which commit a handler builds. *)
Definition storeAsIs : CommitSave :=
  fun _ commit commits => ((commits ++ [commit])%list, commit, None).

(** [PUT /content/:projectId/*], create or update a file, given the
    [save] of the commit.  The file is saved first.  The commit is built
    without a hash and then saved. *)
Definition put_with (saveCommit : CommitSave) (db : Db) (env : Env) (userId : ObjectId)
  (req : PutRequest) : Db * Result (File.t * Commit.t) :=
  let branch := match put_branch req with Some b => b | None => "main" end in
  if negb (required (put_content req)
           && required (put_message req) && maxlength 500 (put_message req)
           && opt_maxlength 100 (put_branch req))
  then (db, Failed 400 "Validation failed")
  else
    match findProject db (put_projectId req) with
    | None => (db, Failed 404 "Project not found")
    | Some project =>
        if negb (Project.hasPermission project userId "editor")
        then (db, Failed 403 "Access denied: insufficient permissions")
        else
          let '(dirPath, fileName) := parsePath (put_filePath req) in
          let found :=
            find (File.live_at (put_projectId req) fileName dirPath branch) (files db) in
          let isNewFile := match found with Some _ => false | None => true end in
          let oldContent := match found with Some f => File.content f | None => "" end in
          let db1 :=
            match found with
            | Some _ => db
            | None => with_nextId (S (nextId db)) db
            end in
          let '(files1, file1, e1) :=
            match found with
            | Some f =>
                File.save true (negb (File.content f =? put_content req))
                          (File.with_content (put_content req) f) (files db)
            | None =>
                File.save_new
                  (File.new (nextId db) (put_projectId req) fileName dirPath
                            (put_content req) branch) (files db)
            end in
          match e1 with
          | Some _ => (db1, Failed 500 "Error saving file")
          | None =>
              let db2 := with_files files1 db1 in
              let commit :=
                Commit.new (nextId db2) (put_projectId req) (put_message req) userId branch
                  [putChange file1 isNewFile (put_content req) oldContent] in
              let db3 := with_nextId (S (nextId db2)) db2 in
              match saveCommit env commit (commits db3) with
              | (_, _, Some _) => (db3, Failed 500 "Error saving file")
              | (commits', commit', None) =>
                  let db4 := with_commits commits' db3 in
                  let '(files2, file2, e2) :=
                    File.save (negb isNewFile) false
                              (File.with_lastCommit (Some (Commit._id commit')) file1)
                              (files db4) in
                  match e2 with
                  | Some _ => (db4, Failed 500 "Error saving file")
                  | None => (with_files files2 db4, Sent 200 (file2, commit'))
                  end
              end
          end
    end.

(** The route as it is: the commit is saved with [Commit.save], which
    validates it before the hook would generate its hash. *)
Definition put (db : Db) (env : Env) (userId : ObjectId) (req : PutRequest)
  : Db * Result (File.t * Commit.t) :=
  put_with Commit.save db env userId req.

Record DeleteRequest : Type := {
  del_projectId : ObjectId;
  del_filePath : string;
  del_message : string;
  del_branch : option string
}.

(** The change entry of the commit of [DELETE /content/:projectId/*]. *)
Definition removeChange (file : File.t) : Commit.Change :=
  {| Commit.file := Some (File._id file);
     Commit.action := "deleted";
     Commit.filePath := File.fullPath file;
     Commit.oldPath := None;
     Commit.linesAdded := 0;
     Commit.linesDeleted := Js.lineCount (File.content file) |}.

(** [DELETE /content/:projectId/*], given the [save] of the commit: the
    file is marked deleted and saved, then the commit is built, without a
    hash, and saved. *)
Definition remove_with (saveCommit : CommitSave) (db : Db) (env : Env)
  (userId : ObjectId) (req : DeleteRequest) : Db * Result Commit.t :=
  let branch := match del_branch req with Some b => b | None => "main" end in
  if negb (required (del_message req) && maxlength 500 (del_message req)
           && opt_maxlength 100 (del_branch req))
  then (db, Failed 400 "Validation failed")
  else
    match findProject db (del_projectId req) with
    | None => (db, Failed 404 "Project not found")
    | Some project =>
        if negb (Project.hasPermission project userId "editor")
        then (db, Failed 403 "Access denied: insufficient permissions")
        else
          let '(dirPath, fileName) := parsePath (del_filePath req) in
          match find (File.live_at (del_projectId req) fileName dirPath branch)
                     (files db) with
          | None => (db, Failed 404 "File not found")
          | Some f =>
              let '(files1, file1, e1) :=
                File.save true false (File.with_isDeleted true f) (files db) in
              match e1 with
              | Some _ => (db, Failed 500 "Error deleting file")
              | None =>
                  let db1 := with_files files1 db in
                  let commit :=
                    Commit.new (nextId db1) (del_projectId req) (del_message req) userId
                      branch [removeChange file1] in
                  let db2 := with_nextId (S (nextId db1)) db1 in
                  match saveCommit env commit (commits db2) with
                  | (_, _, Some _) => (db2, Failed 500 "Error deleting file")
                  | (commits', commit', None) =>
                      (with_commits commits' db2, Sent 200 commit')
                  end
              end
          end
    end.

(** The route as it is, with [Commit.save]. *)
Definition remove (db : Db) (env : Env) (userId : ObjectId) (req : DeleteRequest)
  : Db * Result Commit.t :=
  remove_with Commit.save db env userId req.

(** ** routes/commits.js *)

Record HistoryQuery : Type := {
  q_branch : option string;
  q_page : option nat;
  q_limit : option nat;
  q_author : option ObjectId;
  q_since : option N;
  q_until : option N
}.

Definition historyFilter (projectId : ObjectId) (branch : string) (q : HistoryQuery)
  (c : Commit.t) : bool :=
  (Commit.project c =? projectId)%nat && (Commit.branch c =? branch)
  && match q_author q with Some a => (Commit.author c =? a)%nat | None => true end
  && match q_since q with Some t => (t <=? Commit.createdAt c)%N | None => true end
  && match q_until q with Some t => (Commit.createdAt c <=? t)%N | None => true end.

(** [.limit(n)]; a limit of zero is no limit. *)
Definition limited {A : Type} (n : nat) (l : list A) : list A :=
  match n with
  | O => l
  | S _ => firstn n l
  end.

(** [GET /:projectId], the commit history of a branch, newest first, with
    the total count.  A page below one makes the skip negative, which the
    driver rejects. *)
Definition history (db : Db) (user : option ObjectId) (projectId : ObjectId)
  (q : HistoryQuery) : Result (list Commit.t * nat) :=
  let branch := match q_branch q with Some b => b | None => "main" end in
  let page := match q_page q with Some p => p | None => 1 end in
  let limit := match q_limit q with Some l => l | None => 20 end in
  match findProject db projectId with
  | None => Failed 404 "Project not found"
  | Some project =>
      if denied project user then Failed 403 "Access denied"
      else
        match page with
        | O => Failed 500 "Error retrieving commits"
        | S page' =>
            let matching := filter (historyFilter projectId branch q) (commits db) in
            Sent 200
              (limited limit (skipn (page' * limit) (sort_by Commit.newest_first matching)),
               List.length matching)
        end
  end.

(** [GET /:projectId/:commitHash], a commit by the prefix of its hash. *)
Definition getCommit (db : Db) (user : option ObjectId) (projectId : ObjectId)
  (commitHash : string) : Result Commit.t :=
  if negb ((7 <=? String.length commitHash)%nat && (String.length commitHash <=? 40)%nat)
  then Failed 400 "Validation failed"
  else
    match findProject db projectId with
    | None => Failed 404 "Project not found"
    | Some project =>
        if denied project user then Failed 403 "Access denied"
        else
          match find (Commit.matches_prefix projectId commitHash) (commits db) with
          | None => Failed 404 "Commit not found"
          | Some commit => Sent 200 commit
          end
    end.

(** ** routes/projects.js *)

Record ProjectRequest : Type := {
  new_title : string;
  new_description : string;
  new_readme : option string;
  new_isPublic : option bool
}.

(** [readme || `# ${title}\n\n${description}\n\n## Getting Started\n\nWelcome to this project!`]. *)
Definition readmeOrDefault (req : ProjectRequest) : string :=
  let nl := String "010"%char EmptyString in
  let template :=
    "# " ++ new_title req ++ nl ++ nl ++ new_description req ++ nl ++ nl
      ++ "## Getting Started" ++ nl ++ nl ++ "Welcome to this project!" in
  match new_readme req with
  | Some r => if r =? "" then template else r
  | None => template
  end.

Record Created : Type := {
  created_project : Project.t;
  created_branch : Branch.t;
  created_commit : Commit.t
}.

(** [POST /], create a project with its main branch, README and initial
    commit.  The hash of the initial commit is generated before [save]. *)
Definition createProject (db : Db) (env : Env) (userId : ObjectId) (req : ProjectRequest)
  : Db * Result Created :=
  if negb (required (new_title req) && maxlength 100 (new_title req)
           && required (new_description req) && maxlength 500 (new_description req)
           && opt_maxlength 10000 (new_readme req))
  then (db, Failed 400 "Validation failed")
  else
    let project :=
      {| Project._id := nextId db; Project.title := new_title req;
         Project.description := new_description req;
         Project.readme := readmeOrDefault req; Project.owner := userId;
         Project.collaborators := [];
         Project.isPublic := match new_isPublic req with Some b => b | None => true end |} in
    let db0 := with_nextId (S (nextId db)) db in
    match Project.validate project with
    | Some _ => (db0, Failed 500 "Error creating project")
    | None =>
        let db1 := with_projects (projects db0 ++ [project])%list db0 in
        let '(branches1, mainBranch, e1) :=
          Branch.createMain (nextId db1) (Project._id project) userId (now env)
                            (branches db1) in
        let db2 := with_nextId (S (nextId db1)) (with_branches branches1 db1) in
        match e1 with
        | Some _ => (db2, Failed 500 "Error creating project")
        | None =>
            let readmeContent := readmeOrDefault req in
            let '(files1, readmeFile, e2) :=
              File.save_new
                (File.new (nextId db2) (Project._id project) "README.md" "/"
                          readmeContent "main") (files db2) in
            let db3 := with_nextId (S (nextId db2)) (with_files files1 db2) in
            match e2 with
            | Some _ => (db3, Failed 500 "Error creating project")
            | None =>
                let initialCommit :=
                  Commit.new (nextId db3) (Project._id project) "Initial commit" userId "main"
                    [{| Commit.file := Some (File._id readmeFile);
                        Commit.action := "added";
                        Commit.filePath := "/README.md";
                        Commit.oldPath := None;
                        Commit.linesAdded := Js.lineCount readmeContent;
                        Commit.linesDeleted := 0 |}] in
                let initialCommit :=
                  Commit.with_hash (Some (Commit.generateHash env initialCommit))
                                   initialCommit in
                let db4 := with_nextId (S (nextId db3)) db3 in
                match Commit.save env initialCommit (commits db4) with
                | (_, _, Some _) => (db4, Failed 500 "Error creating project")
                | (commits', commit', None) =>
                    let db5 := with_commits commits' db4 in
                    let '(files2, _, e3) :=
                      File.save false false
                        (File.with_lastCommit (Some (Commit._id commit')) readmeFile)
                        (files db5) in
                    match e3 with
                    | Some _ => (db5, Failed 500 "Error creating project")
                    | None =>
                        let db6 := with_files files2 db5 in
                        let '(branches2, mainBranch', e4) :=
                          Branch.updateStats mainBranch (commits db6) (branches db6) in
                        match e4 with
                        | Some _ => (db6, Failed 500 "Error creating project")
                        | None =>
                            (with_branches branches2 db6,
                             Sent 201 {| created_project := project;
                                         created_branch := mainBranch';
                                         created_commit := commit' |})
                        end
                    end
                end
            end
        end
    end.

Record ProjectUpdate : Type := {
  upd_title : option string;
  upd_description : option string;
  upd_readme : option string;
  upd_isPublic : option bool;
  upd_owner : option ObjectId;
  upd_collaborators : option (list Project.Collaborator)
}.

Definition or_else {A : Type} (o : option A) (d : A) : A :=
  match o with
  | Some v => v
  | None => d
  end.

Definition opt_required (s : option string) : bool :=
  match s with
  | Some v => required v
  | None => true
  end.

(** The document after [findByIdAndUpdate(projectId, req.body)]: the paths
    of the body replace those of the document. *)
Definition updated (u : ProjectUpdate) (p : Project.t) : Project.t :=
  {| Project._id := Project._id p;
     Project.title := or_else (upd_title u) (Project.title p);
     Project.description := or_else (upd_description u) (Project.description p);
     Project.readme := or_else (upd_readme u) (Project.readme p);
     Project.owner := or_else (upd_owner u) (Project.owner p);
     Project.collaborators := or_else (upd_collaborators u) (Project.collaborators p);
     Project.isPublic := or_else (upd_isPublic u) (Project.isPublic p) |}.

(** [PUT /:id], update a project. *)
Definition updateProject (db : Db) (userId projectId : ObjectId) (u : ProjectUpdate)
  : Db * Result Project.t :=
  if negb (opt_required (upd_title u) && opt_maxlength 100 (upd_title u)
           && opt_required (upd_description u) && opt_maxlength 500 (upd_description u)
           && opt_maxlength 10000 (upd_readme u))
  then (db, Failed 400 "Validation failed")
  else
    match findProject db projectId with
    | None => (db, Failed 404 "Project not found")
    | Some project =>
        if negb (Project.hasPermission project userId "admin")
        then (db, Failed 403 "Access denied: insufficient permissions")
        else
          let project' := updated u project in
          match Project.validate project' with
          | Some _ => (db, Failed 500 "Error updating project")
          | None =>
              (with_projects (Project.replace project' (projects db)) db,
               Sent 200 project')
          end
    end.

(** [DELETE /:id], delete a project; its branches, files and commits stay. *)
Definition deleteProject (db : Db) (userId projectId : ObjectId) : Db * Result unit :=
  match findProject db projectId with
  | None => (db, Failed 404 "Project not found")
  | Some project =>
      if negb (Project.owner project =? userId)%nat
      then (db, Failed 403 "Access denied: only project owner can delete")
      else
        (with_projects
           (filter (fun p => negb (Project._id p =? projectId)%nat) (projects db)) db,
         Sent 200 tt)
  end.

(** [POST /:id/collaborators]; [found] is the user that the e-mail address
    of the request belongs to, if there is one. *)
Definition addCollaborator (db : Db) (userId projectId : ObjectId)
  (found : option ObjectId) (role : option string) : Db * Result Project.t :=
  if negb (match role with Some r => Project.is_role r | None => true end)
  then (db, Failed 400 "Validation failed")
  else
    match findProject db projectId with
    | None => (db, Failed 404 "Project not found")
    | Some project =>
        if negb (Project.hasPermission project userId "admin")
        then (db, Failed 403 "Access denied: insufficient permissions")
        else
          match found with
          | None => (db, Failed 404 "User not found with this email")
          | Some collaboratorId =>
              match Project.addCollaborator project collaboratorId
                      (or_else role "viewer") with
              | inl message => (db, Failed 400 message)
              | inr project' =>
                  match Project.validate project' with
                  | Some _ => (db, Failed 500 "Error adding collaborator")
                  | None =>
                      (with_projects (Project.replace project' (projects db)) db,
                       Sent 200 project')
                  end
              end
          end
    end.

(** [DELETE /:id/collaborators/:collaboratorId]; [collaboratorId] is the
    text of the URL.  The route compares that text with
    [userId.toString()] and passes it to [removeCollaborator]. *)
Definition removeCollaborator (db : Db) (userId projectId : ObjectId)
  (collaboratorId : string) : Db * Result Project.t :=
  if negb (isMongoId collaboratorId) then (db, Failed 400 "Validation failed")
  else
    match findProject db projectId with
    | None => (db, Failed 404 "Project not found")
    | Some project =>
        if negb (Project.hasPermission project userId "admin"
                 || (collaboratorId =? oid_toString userId))
        then (db, Failed 403 "Access denied: insufficient permissions")
        else
          let project' := Project.removeCollaboratorByText project collaboratorId in
          match Project.validate project' with
          | Some _ => (db, Failed 500 "Error removing collaborator")
          | None =>
              (with_projects (Project.replace project' (projects db)) db,
               Sent 200 project')
          end
    end.

Record BranchRequest : Type := {
  br_projectId : ObjectId;
  br_name : string;
  br_source : option string;
  br_description : option string
}.

(** The document built for one source file in the copy loop. *)
Definition copyOf (id projectId : ObjectId) (name : string) (sourceFile : File.t) : File.t :=
  {| File._id := id; File.project := projectId;
     File.path := File.cast (File.path sourceFile);
     File.name := File.cast (File.name sourceFile);
     File.content := File.content sourceFile;
     File.type := File.type sourceFile;
     File.extension := option_map File.cast_extension (File.extension sourceFile);
     File.size := File.size sourceFile;
     File.language := File.language sourceFile;
     File.branch := name;
     File.lastCommit := None;
     File.isDeleted := false;
     File.parentDirectory := File.parentDirectory sourceFile |}.

(** [for (const sourceFile of sourceFiles) { ...; await newFile.save(); }]:
    a failing [save] ends the loop, the copies made so far remain. *)
Fixpoint copyFiles (projectId : ObjectId) (name : string) (sourceFiles : list File.t)
  (files : list File.t) (next : ObjectId) : list File.t * ObjectId * option SaveError :=
  match sourceFiles with
  | [] => (files, next, None)
  | sourceFile :: rest =>
      match File.save_new (copyOf next projectId name sourceFile) files with
      | (files', _, None) => copyFiles projectId name rest files' (S next)
      | (files', _, Some e) => (files', S next, Some e)
      end
  end.

(** [POST /:id/branches], create a branch from a source branch. *)
Definition createBranch (db : Db) (env : Env) (userId : ObjectId) (req : BranchRequest)
  : Db * Result Branch.t :=
  let projectId := br_projectId req in
  let name := br_name req in
  let source := match br_source req with Some s => s | None => "main" end in
  if negb (required name && maxlength 100 name && opt_maxlength 100 (br_source req))
  then (db, Failed 400 "Validation failed")
  else
    match findProject db projectId with
    | None => (db, Failed 404 "Project not found")
    | Some project =>
        if negb (Project.hasPermission project userId "editor")
        then (db, Failed 403 "Access denied: insufficient permissions")
        else
          match findBranch db projectId name with
          | Some _ => (db, Failed 400 "Branch already exists")
          | None =>
              match findBranch db projectId source with
              | None => (db, Failed 404 "Source branch not found")
              | Some sourceBranch =>
                  let branch :=
                    {| Branch._id := nextId db; Branch.project := projectId;
                       Branch.name := name; Branch.description := br_description req;
                       Branch.isDefault := false; Branch.isProtected := false;
                       Branch.creator := userId; Branch.lastCommit := None;
                       Branch.parentBranch := Some (Branch._id sourceBranch);
                       Branch.stats :=
                         {| Branch.totalCommits := 0; Branch.commitsAhead := 0;
                            Branch.commitsBehind := 0;
                            Branch.lastActivity := now env |} |} in
                  let db0 := with_nextId (S (nextId db)) db in
                  match Branch.save_new false branch (branches db0) with
                  | (_, Some _) => (db0, Failed 500 "Error creating branch")
                  | (branches1, None) =>
                      let db1 := with_branches branches1 db0 in
                      let sourceFiles :=
                        filter (fun f => (File.project f =? projectId)%nat
                                         && (File.branch f =? source)
                                         && negb (File.isDeleted f)) (files db1) in
                      let '(files1, next, e) :=
                        copyFiles projectId name sourceFiles (files db1) (nextId db1) in
                      let db2 := with_nextId next (with_files files1 db1) in
                      match e with
                      | Some _ => (db2, Failed 500 "Error creating branch")
                      | None =>
                          let '(branches2, branch', e') :=
                            Branch.updateStats branch (commits db2) (branches db2) in
                          match e' with
                          | Some _ => (db2, Failed 500 "Error creating branch")
                          | None => (with_branches branches2 db2, Sent 201 branch')
                          end
                      end
                  end
              end
          end
    end.

Record BranchUpdate : Type := {
  up_projectId : ObjectId;
  up_branchName : string;
  up_protected : option bool;
  up_description : option string
}.

(** [PATCH /:id/branches/:branchName]. *)
Definition updateBranch (db : Db) (userId : ObjectId) (req : BranchUpdate)
  : Db * Result Branch.t :=
  if negb (required (up_branchName req) && maxlength 100 (up_branchName req))
  then (db, Failed 400 "Validation failed")
  else
    match findProject db (up_projectId req) with
    | None => (db, Failed 404 "Project not found")
    | Some project =>
        if negb (Project.hasPermission project userId "admin")
        then (db, Failed 403 "Access denied: insufficient permissions")
        else
          match findBranch db (up_projectId req) (up_branchName req) with
          | None => (db, Failed 404 "Branch not found")
          | Some branch =>
              let branch1 :=
                match up_protected req with
                | Some p => Branch.with_isProtected p branch
                | None => branch
                end in
              let branch2 :=
                match up_description req with
                | Some d => Branch.with_description (Some d) branch1
                | None => branch1
                end in
              match Branch.save false branch2 (branches db) with
              | (_, Some _) => (db, Failed 500 "Error updating branch")
              | (branches', None) => (with_branches branches' db, Sent 200 branch2)
              end
          end
    end.

(** [DELETE /:id/branches/:branchName]. *)
Definition deleteBranch (db : Db) (userId projectId : ObjectId) (branchName : string)
  : Db * Result unit :=
  if negb (required branchName && maxlength 100 branchName)
  then (db, Failed 400 "Validation failed")
  else
    match findProject db projectId with
    | None => (db, Failed 404 "Project not found")
    | Some project =>
        if negb (Project.hasPermission project userId "admin")
        then (db, Failed 403 "Access denied: insufficient permissions")
        else
          match findBranch db projectId branchName with
          | None => (db, Failed 404 "Branch not found")
          | Some branch =>
              if Branch.isDefault branch
              then (db, Failed 400 "Cannot delete default branch")
              else if Branch.isProtected branch
              then (db, Failed 400 "Cannot delete protected branch")
              else
                (with_branches
                   (filter (fun b => negb (Branch._id b =? Branch._id branch)%nat)
                           (branches db)) db,
                 Sent 200 tt)
          end
    end.

(** ** Runs of the server *)

(** The requests that write to the project, branch, file and commit
    collections. *)
Inductive Request : Type :=
| CreateProject (userId : ObjectId) (req : ProjectRequest)
| UpdateProject (userId projectId : ObjectId) (req : ProjectUpdate)
| DeleteProject (userId projectId : ObjectId)
| AddCollaborator (userId projectId : ObjectId) (found : option ObjectId)
    (role : option string)
| RemoveCollaborator (userId projectId : ObjectId) (collaboratorId : string)
| Put (userId : ObjectId) (req : PutRequest)
| Remove (userId : ObjectId) (req : DeleteRequest)
| CreateBranch (userId : ObjectId) (req : BranchRequest)
| UpdateBranch (userId : ObjectId) (req : BranchUpdate)
| DeleteBranch (userId projectId : ObjectId) (branchName : string).

Definition serve (db : Db) (env : Env) (r : Request) : Db :=
  match r with
  | CreateProject userId req => fst (createProject db env userId req)
  | UpdateProject userId projectId req => fst (updateProject db userId projectId req)
  | DeleteProject userId projectId => fst (deleteProject db userId projectId)
  | AddCollaborator userId projectId found role =>
      fst (addCollaborator db userId projectId found role)
  | RemoveCollaborator userId projectId collaboratorId =>
      fst (removeCollaborator db userId projectId collaboratorId)
  | Put userId req => fst (put db env userId req)
  | Remove userId req => fst (remove db env userId req)
  | CreateBranch userId req => fst (createBranch db env userId req)
  | UpdateBranch userId req => fst (updateBranch db userId req)
  | DeleteBranch userId projectId branchName =>
      fst (deleteBranch db userId projectId branchName)
  end.

(** The store after a sequence of requests, each with its environment. *)
Definition run (db : Db) (trace : list (Env * Request)) : Db :=
  fold_left (fun db' er => serve db' (fst er) (snd er)) trace db.

Definition reachable (db : Db) : Prop := exists trace, run empty trace = db.

Definition isDefaultOf (projectId : ObjectId) (b : Branch.t) : bool :=
  (Branch.project b =? projectId)%nat && Branch.isDefault b.

(** The branches of a project that carry [isDefault]. *)
Definition defaultBranches (db : Db) (projectId : ObjectId) : list Branch.t :=
  filter (isDefaultOf projectId) (branches db).

Definition onBranch (projectId : ObjectId) (branch : string) (f : File.t) : bool :=
  (File.project f =? projectId)%nat && (File.branch f =? branch).

(** The file documents of a branch, deleted ones included. *)
Definition filesOf (db : Db) (projectId : ObjectId) (branch : string) : list File.t :=
  filter (onBranch projectId branch) (files db).

(** Is the request a file write ([put] or [remove]) on this branch? *)
Definition writesTo (projectId : ObjectId) (branch : string) (r : Request) : bool :=
  match r with
  | Put _ req =>
      (put_projectId req =? projectId)%nat
      && ((match put_branch req with Some b => b | None => "main" end) =? branch)
  | Remove _ req =>
      (del_projectId req =? projectId)%nat
      && ((match del_branch req with Some b => b | None => "main" end) =? branch)
  | _ => false
  end.

(** The stored paths and names are in the form their setter produces. *)
Definition casted (db : Db) : Prop :=
  forall f, In f (files db) ->
    File.cast (File.path f) = File.path f /\ File.cast (File.name f) = File.name f.

(** The commits recorded on a branch, in the order of the ledger. *)
Definition recordedOn (projectId : ObjectId) (branch : string) (commits : list Commit.t)
  : list Commit.t :=
  filter (fun c => (Commit.project c =? projectId)%nat && (Commit.branch c =? branch))
         commits.

(** Does the hash of [c] occur among the hashes of [others]? *)
Definition hashOccurs (c : Commit.t) (others : list Commit.t) : bool :=
  existsb (fun c' =>
             match Commit.hash c, Commit.hash c' with
             | Some a, Some b => a =? b
             | None, None => true
             | _, _ => false
             end) others.

(** The string that [generateHash] digests. *)
Definition hashInput (env : Env) (this : Commit.t) : string :=
  oid_toString (Commit.project this) ++ Commit.message this
    ++ oid_toString (Commit.author this) ++ Js.decimal (now env) ++ random env.

Definition newline : string := String "010"%char EmptyString.

(** Neither the owner nor a collaborator of the project. *)
Definition outsider (p : Project.t) (userId : ObjectId) : Prop :=
  userId <> Project.owner p /\
  forall col, In col (Project.collaborators p) -> Project.user col <> userId.

(** The handler stopped at the validation of the request or at the
    permission gate, and left the store as it was. *)
Definition stopped {A : Type} (db : Db) (r : Db * Result A) : Prop :=
  r = (db, Failed 400 "Validation failed")
  \/ r = (db, Failed 403 "Access denied: insufficient permissions").


(** ** A small project, used to try the handlers on *)

Module Scenario.

Definition alice : ObjectId := 7.
Definition mallory : ObjectId := 9.

Definition env1 : Env := {| now := 1730000000000; random := "0.4170220047" |}.
Definition env2 : Env := {| now := 1730000060000; random := "0.7203244934" |}.
Definition env3 : Env := {| now := 1730000120000; random := "0.0001143748" |}.
Definition env4 : Env := {| now := 1730000180000; random := "0.3023325726" |}.

Definition request : ProjectRequest :=
  {| new_title := "P"; new_description := "A project";
     new_readme := Some ("hello" ++ newline ++ "world"); new_isPublic := None |}.

(** Project P, with branch main and /README.md. *)
Definition created : Db := fst (createProject empty env1 alice request).

Definition P : ObjectId := 0.

Definition project : Project.t :=
  {| Project._id := P; Project.title := "P"; Project.description := "A project";
     Project.readme := "hello" ++ newline ++ "world"; Project.owner := alice;
     Project.collaborators := []; Project.isPublic := true |}.

Definition fork : BranchRequest :=
  {| br_projectId := P; br_name := "feature"; br_source := Some "main";
     br_description := None |}.

(** Branch feature forked from main. *)
Definition forked : Db := fst (createBranch created env2 alice fork).

Definition write : PutRequest :=
  {| put_projectId := P; put_filePath := "README.md";
     put_content := "hello" ++ newline ++ "world" ++ newline ++ "more";
     put_message := "Add a line"; put_branch := Some "feature" |}.

(** /README.md written on feature. *)
Definition written : Db := fst (put forked env3 alice write).

Definition main : Branch.t :=
  {| Branch._id := 1; Branch.project := P; Branch.name := "main";
     Branch.description := Some "Main branch"; Branch.isDefault := true;
     Branch.isProtected := true; Branch.creator := alice;
     Branch.lastCommit := Some 3; Branch.parentBranch := None;
     Branch.stats := {| Branch.totalCommits := 1; Branch.commitsAhead := 0;
                        Branch.commitsBehind := 0;
                        Branch.lastActivity := 1730000000000 |} |}.

Definition feature : Branch.t :=
  {| Branch._id := 4; Branch.project := P; Branch.name := "feature";
     Branch.description := None; Branch.isDefault := false;
     Branch.isProtected := false; Branch.creator := alice;
     Branch.lastCommit := None; Branch.parentBranch := Some 1;
     Branch.stats := {| Branch.totalCommits := 0; Branch.commitsAhead := 0;
                        Branch.commitsBehind := 0;
                        Branch.lastActivity := 1730000060000 |} |}.

(** The commit that the creation of P recorded. *)
Definition initialCommit : Commit.t :=
  {| Commit._id := 3; Commit.project := P; Commit.hash := Some "4601e1b";
     Commit.message := "Initial commit"; Commit.author := alice;
     Commit.branch := "main"; Commit.parentCommits := [];
     Commit.changes :=
       [{| Commit.file := Some 2; Commit.action := "added";
           Commit.filePath := "/README.md"; Commit.oldPath := None;
           Commit.linesAdded := 2; Commit.linesDeleted := 0 |}];
     Commit.stats := {| Commit.filesChanged := 1; Commit.totalLinesAdded := 2;
                        Commit.totalLinesDeleted := 0 |};
     Commit.createdAt := 1730000000000 |}.

(** /README.md on main. *)
Definition readme : File.t :=
  {| File._id := 2; File.project := P; File.path := "/"; File.name := "README.md";
     File.content := "hello" ++ newline ++ "world"; File.type := "file";
     File.extension := Some "md"; File.size := 11; File.language := "Markdown";
     File.branch := "main"; File.lastCommit := Some 3; File.isDeleted := false;
     File.parentDirectory := None |}.

(** Its copy on feature, as the fork made it. *)
Definition copy : File.t :=
  {| File._id := 5; File.project := P; File.path := "/"; File.name := "README.md";
     File.content := "hello" ++ newline ++ "world"; File.type := "file";
     File.extension := Some "md"; File.size := 11; File.language := "Markdown";
     File.branch := "feature"; File.lastCommit := None; File.isDeleted := false;
     File.parentDirectory := None |}.

End Scenario.

(** ** A ledger with two hashes that share their first seven digits *)

Module Ambiguous.

Definition commit (id : ObjectId) (h : string) (time : N) : Commit.t :=
  Commit.with_createdAt time
    (Commit.with_hash (Some h)
       (Commit.new id Scenario.P "Imported" Scenario.alice "main" [])).

Definition first : Commit.t :=
  commit 10 "a3f91c2e5b7d4086f1e2a3b4c5d6e7f8091a2b3c" 1730000200000.

Definition second : Commit.t :=
  commit 11 "a3f91c2077e1d5c4b3a29180f7e6d5c4b3a29180" 1730000300000.

Definition db : Db :=
  with_commits [Scenario.initialCommit; first; second] Scenario.created.

End Ambiguous.

(** The commits of a project. *)
Definition commitsOf (db : Db) (projectId : ObjectId) : list Commit.t :=
  filter (fun c => (Commit.project c =? projectId)%nat) (commits db).

(** ** Three writes to one path of a new project *)

Module RoundTrip.

Definition writeA : PutRequest :=
  {| put_projectId := Scenario.P; put_filePath := "a.txt"; put_content := "A";
     put_message := "Add a.txt"; put_branch := None |}.

Definition writeB : PutRequest :=
  {| put_projectId := Scenario.P; put_filePath := "a.txt"; put_content := "B";
     put_message := "Change a.txt"; put_branch := None |}.

Definition delete : DeleteRequest :=
  {| del_projectId := Scenario.P; del_filePath := "a.txt";
     del_message := "Drop a.txt"; del_branch := None |}.

Definition afterA : Db := fst (put Scenario.created Scenario.env2 Scenario.alice writeA).
Definition afterB : Db := fst (put afterA Scenario.env3 Scenario.alice writeB).
Definition afterDelete : Db := fst (remove afterB Scenario.env4 Scenario.alice delete).

Definition allOfMain : HistoryQuery :=
  {| q_branch := Some "main"; q_page := None; q_limit := None; q_author := None;
     q_since := None; q_until := None |}.

(** a.txt as the first write leaves it. *)
Definition fileA : File.t :=
  {| File._id := 4; File.project := Scenario.P; File.path := "/"; File.name := "a.txt";
     File.content := "A"; File.type := "file"; File.extension := Some "txt";
     File.size := 1; File.language := "Text"; File.branch := "main";
     File.lastCommit := None; File.isDeleted := false; File.parentDirectory := None |}.

End RoundTrip.

(** ** Consistency of the branch collection *)

(** The ids of the branches are distinct and older than the counter, the
    branches belong to ids older than the counter, and each project has
    one default branch. *)
Definition branchesOk (db : Db) : Prop :=
  NoDup (map Branch._id (branches db))
  /\ (forall b, In b (branches db) ->
        Branch._id b < nextId db /\ Branch.project b < nextId db)
  /\ (forall p, In p (projects db) -> Project._id p < nextId db)
  /\ (forall p, In p (projects db) ->
        exists b, defaultBranches db (Project._id p) = [b]).

(** ** Consistency of the file collection *)

(** The ids of the files are distinct and older than the counter, and the
    paths and names are in the form their setter produces. *)
Definition filesOk (db : Db) : Prop :=
  NoDup (map File._id (files db))
  /\ (forall f, In f (files db) -> File._id f < nextId db)
  /\ casted db.

(** The file is a copy of [source] on branch [name]: same path, name and
    content, not deleted, no last commit. *)
Definition copyOn (projectId : ObjectId) (name : string) (source f : File.t) : Prop :=
  File.project f = projectId /\ File.branch f = name
  /\ File.path f = File.path source /\ File.name f = File.name source
  /\ File.content f = File.content source
  /\ File.lastCommit f = None /\ File.isDeleted f = false.

(** The string does not start with white space. *)
Definition clean_start (s : string) : Prop := Js.trimStart s = s.

(** ** Further statics and routes *)

(** [branchSchema.statics.getDefault]: [findOne({ project, isDefault: true })]. *)
Definition getDefault (db : Db) (projectId : ObjectId) : option Branch.t :=
  find (isDefaultOf projectId) (branches db).

(** The rank of a role that took part in a comparison of [hasPermission]. *)
Definition outranks (have need : string) : bool :=
  match Project.roleHierarchy have, Project.roleHierarchy need with
  | Some h, Some n => (n <=? h)%nat
  | _, _ => false
  end.

(** The user is among the collaborators of the project. *)
Definition collaborates (p : Project.t) (userId : ObjectId) : bool :=
  existsb (fun col => (Project.user col =? userId)%nat) (Project.collaborators p).

(** ** Project P with two collaborators *)

Module Team.

Definition bob : ObjectId := 11.
Definition carol : ObjectId := 12.

Definition private : ProjectUpdate :=
  {| upd_title := None; upd_description := None; upd_readme := None;
     upd_isPublic := Some false; upd_owner := None; upd_collaborators := None |}.

(** P after alice made bob an editor and carol a viewer, and the project
    private. *)
Definition db : Db :=
  run Scenario.created
    [(Scenario.env2, AddCollaborator Scenario.alice Scenario.P (Some bob) (Some "editor"));
     (Scenario.env2, AddCollaborator Scenario.alice Scenario.P (Some carol) None);
     (Scenario.env2, UpdateProject Scenario.alice Scenario.P private)].

Definition project : Project.t :=
  {| Project._id := Scenario.P; Project.title := "P";
     Project.description := "A project";
     Project.readme := "hello" ++ newline ++ "world"; Project.owner := Scenario.alice;
     Project.collaborators :=
       [{| Project.user := bob; Project.role := "editor" |};
        {| Project.user := carol; Project.role := "viewer" |}];
     Project.isPublic := false |}.

End Team.

(** ** routes/projects.js, the reading routes *)

(** The body of [GET /:id]: the project and the role of the caller. *)
Record ProjectView : Type := {
  view_project : Project.t;
  view_userRole : option string
}.

(** [owner ? 'owner' : collaborators.find(...)?.role || null]. *)
Definition userRole (project : Project.t) (user : option ObjectId) : option string :=
  match user with
  | None => None
  | Some userId =>
      if (Project.owner project =? userId)%nat then Some "owner"
      else
        match find (fun col => (Project.user col =? userId)%nat)
                   (Project.collaborators project) with
        | Some col => if Project.role col =? "" then None else Some (Project.role col)
        | None => None
        end
  end.

(** [collaborators.some(col => col.user._id.toString() === userId.toString())]
    on the populated project.  [populate] leaves [null] for a user without
    an account ([account] tells which ids have one), and reading [_id] of
    it throws: the result is [None] when the test reaches such a
    collaborator before it finds the user. *)
Fixpoint someCollaborator (account : ObjectId -> bool) (userId : ObjectId)
  (collaborators : list Project.Collaborator) : option bool :=
  match collaborators with
  | [] => Some false
  | col :: rest =>
      if negb (account (Project.user col)) then None
      else if (Project.user col =? userId)%nat then Some true
      else someCollaborator account userId rest
  end.

(** [collaborators.find(col => col.user._id.toString() === userId.toString())],
    likewise. *)
Fixpoint findCollaborator (account : ObjectId -> bool) (userId : ObjectId)
  (collaborators : list Project.Collaborator) : option (option Project.Collaborator) :=
  match collaborators with
  | [] => Some None
  | col :: rest =>
      if negb (account (Project.user col)) then None
      else if (Project.user col =? userId)%nat then Some (Some col)
      else findCollaborator account userId rest
  end.

(** [GET /:id], the details of a project, with [owner] and
    [collaborators.user] populated; a test that throws is answered by the
    [catch] of the handler. *)
Definition getProject (account : ObjectId -> bool) (db : Db) (user : option ObjectId)
  (projectId : ObjectId) : Result ProjectView :=
  match findProject db projectId with
  | None => Failed 404 "Project not found"
  | Some project =>
      let thrown := Failed 500 "Error retrieving project" in
      let answer :=
        match user with
        | None => Sent 200 {| view_project := project; view_userRole := None |}
        | Some userId =>
            if negb (account (Project.owner project)) then thrown
            else if (Project.owner project =? userId)%nat
            then Sent 200 {| view_project := project; view_userRole := Some "owner" |}
            else
              match findCollaborator account userId (Project.collaborators project) with
              | None => thrown
              | Some found =>
                  Sent 200
                    {| view_project := project;
                       view_userRole :=
                         match found with
                         | Some col =>
                             if Project.role col =? "" then None
                             else Some (Project.role col)
                         | None => None
                         end |}
              end
        end in
      if Project.isPublic project then answer
      else
        match user with
        | None => Failed 401 "Authentication required to view private project"
        | Some userId =>
            if negb (account (Project.owner project)) then thrown
            else if (Project.owner project =? userId)%nat then answer
            else
              match someCollaborator account userId (Project.collaborators project) with
              | None => thrown
              | Some true => answer
              | Some false => Failed 403 "Access denied to private project"
              end
        end
  end.

(** The order of [.sort({ isDefault: -1, name: 1 })]. *)
Definition branch_order (a b : Branch.t) : bool :=
  match Branch.isDefault a, Branch.isDefault b with
  | true, false => true
  | false, true => false
  | _, _ => Js.leb (Branch.name a) (Branch.name b)
  end.

(** [GET /:id/branches], the branches of a project. *)
Definition getBranches (db : Db) (user : option ObjectId) (projectId : ObjectId)
  : Result (list Branch.t) :=
  match findProject db projectId with
  | None => Failed 404 "Project not found"
  | Some project =>
      if denied project user then Failed 403 "Access denied"
      else
        Sent 200
          (sort_by branch_order
             (filter (fun b => (Branch.project b =? projectId)%nat) (branches db)))
  end.

(** ** The order of a listing, as the comment of the route has it *)


(** ** Consistency of the hashes *)




(** The commits of the project that the prefix matches. *)
Definition matching (db : Db) (projectId : ObjectId) (commitHash : string)
  : list Commit.t :=
  filter (Commit.matches_prefix projectId commitHash) (commits db).

(** The text is ASCII: every byte is below 128. *)
Definition isAscii (s : string) : bool :=
  forallb (fun c => (nat_of_ascii c <? 128)%nat) (list_ascii_of_string s).

(** ** index.js, the body parser in front of the routers *)

(** [app.use(express.json())] with its default limit of 100 kB. *)
Definition bodyLimit : N := 102400.

(** A request with a body of [bodyLength] bytes: when the body is over
    the limit the parser refuses it, the error handler of the app answers
    500 and the route is not reached. *)
Definition parsed {A : Type} (bodyLength : N) (db : Db) (route : Db * Result A)
  : Db * Result A :=
  if (bodyLimit <? bodyLength)%N then (db, Failed 500 "Something went wrong!")
  else route.

(** ** Consistency of the branch names *)

(** A branch that carries [isDefault] is called main, and a project has no
    two branches of one name. *)
Definition namesOk (db : Db) : Prop :=
  (forall b, In b (branches db) -> Branch.isDefault b = true -> Branch.name b = "main")
  /\ (forall a b, In a (branches db) -> In b (branches db) ->
        Branch.project a = Branch.project b -> Branch.name a = Branch.name b -> a = b).

(** ** How the requests change the file collection *)

(** What a route does to a file it has read before it saves it again,
    with the flag [isModified('content')] of that save. *)
Inductive Edit (f0 : File.t) : File.t -> bool -> Prop :=
| edit_content (c : string) :
    Edit f0 (File.with_content c f0) (negb (File.content f0 =? c))
| edit_lastCommit (x : option ObjectId) : Edit f0 (File.with_lastCommit x f0) false
| edit_isDeleted : Edit f0 (File.with_isDeleted true f0) false.

(** One write to the file collection: none, the save of a live file after
    an edit, the save of a new file, or the save of the copy of a live
    file. *)
Inductive Step (db db' : Db) : Prop :=
| step_none :
    files db' = files db -> nextId db <= nextId db' -> Step db db'
| step_edit (f0 g : File.t) (loaded m : bool) :
    In f0 (files db) -> File.isDeleted f0 = false -> Edit f0 g m ->
    File.validate_modified loaded m g = None ->
    files db' = File.replace (File.pre_save false m g) (files db) ->
    nextId db <= nextId db' -> Step db db'
| step_new (id project : ObjectId) (name path content branch : string) :
    nextId db <= id < nextId db' ->
    File.validate (File.new id project name path content branch) = None ->
    files db'
    = (files db ++ [File.pre_save true true
                      (File.new id project name path content branch)])%list ->
    Step db db'
| step_copy (id projectId : ObjectId) (name : string) (s : File.t) :
    In s (files db) -> File.isDeleted s = false ->
    nextId db <= id < nextId db' ->
    File.validate (copyOf id projectId name s) = None ->
    files db' = (files db ++ [File.pre_save true true (copyOf id projectId name s)])%list ->
    Step db db'.

(** A sequence of writes to the file collection. *)
Inductive Steps : Db -> Db -> Prop :=
| steps_refl (db : Db) : Steps db db
| steps_step (db mid db' : Db) : Steps db mid -> Step mid db' -> Steps db db'.

(** Every document of the file collection has the type [file], its [size]
    is the length of its content, and it has a path and a name. *)
Definition derivedOk (db : Db) : Prop :=
  forall f, In f (files db) ->
    File.type f = "file" /\ File.size f = String.length (File.content f)
    /\ required (File.path f) = true /\ required (File.name f) = true.

(** The later document stands for the earlier one: same id, project,
    branch, path and name. *)
Definition sameFile (f f' : File.t) : Prop :=
  File._id f' = File._id f /\ File.project f' = File.project f
  /\ File.branch f' = File.branch f /\ File.path f' = File.path f
  /\ File.name f' = File.name f.

(** ** routes/commits.js, pages and comparisons *)

(** The query with [page] and [limit] given. *)
Definition paged (q : HistoryQuery) (page limit : nat) : HistoryQuery :=
  {| q_branch := q_branch q; q_page := Some page; q_limit := Some limit;
     q_author := q_author q; q_since := q_since q; q_until := q_until q |}.

(** The commits of a response of [GET /:projectId]. *)
Definition pageOf (r : Result (list Commit.t * nat)) : list Commit.t :=
  match r with
  | Sent _ (commits, _) => commits
  | Failed _ _ => []
  end.

(** All the commits that the query selects, newest first. *)
Definition selected (db : Db) (projectId : ObjectId) (q : HistoryQuery) : list Commit.t :=
  sort_by Commit.newest_first
    (filter (historyFilter projectId (or_else (q_branch q) "main") q) (commits db)).

(** The body of [GET /:projectId/compare/:baseHash...:headHash]. *)
Record Comparison : Type := {
  cmp_base : Commit.t;
  cmp_head : Commit.t;
  cmp_commits : list Commit.t;
  cmp_filesChanged : nat;
  cmp_linesAdded : nat;
  cmp_linesDeleted : nat;
  cmp_totalCommits : nat
}.

(** The order of [.sort({ createdAt: 1 })]. *)
Definition oldest_first (a b : Commit.t) : bool :=
  (Commit.createdAt a <=? Commit.createdAt b)%N.

(** The filter [{ project, createdAt: { $gt: base.createdAt, $lte: head.createdAt } }]. *)
Definition between (projectId : ObjectId) (baseCommit headCommit c : Commit.t) : bool :=
  (Commit.project c =? projectId)%nat
  && (Commit.createdAt baseCommit <? Commit.createdAt c)%N
  && (Commit.createdAt c <=? Commit.createdAt headCommit)%N.

Definition hashLength (h : string) : bool :=
  (7 <=? String.length h)%nat && (String.length h <=? 40)%nat.

(** [GET /:projectId/compare/:baseHash...:headHash], the commits of the
    project made after the base commit and up to the head commit, with
    the sums of their statistics. *)
Definition compareCommits (db : Db) (user : option ObjectId) (projectId : ObjectId)
  (baseHash headHash : string) : Result Comparison :=
  if negb (hashLength baseHash && hashLength headHash)
  then Failed 400 "Validation failed"
  else
    match findProject db projectId with
    | None => Failed 404 "Project not found"
    | Some project =>
        if denied project user then Failed 403 "Access denied"
        else
          match find (Commit.matches_prefix projectId baseHash) (commits db),
                find (Commit.matches_prefix projectId headHash) (commits db) with
          | Some baseCommit, Some headCommit =>
              let commitsBetween :=
                sort_by oldest_first
                  (filter (between projectId baseCommit headCommit) (commits db)) in
              let '(filesChanged, linesAdded, linesDeleted) :=
                fold_left
                  (fun acc commit =>
                     let '(f, a, d) := acc in
                     (f + Commit.filesChanged (Commit.stats commit),
                      a + Commit.totalLinesAdded (Commit.stats commit),
                      d + Commit.totalLinesDeleted (Commit.stats commit)))
                  commitsBetween (0, 0, 0) in
              Sent 200
                {| cmp_base := baseCommit; cmp_head := headCommit;
                   cmp_commits := commitsBetween;
                   cmp_filesChanged := filesChanged;
                   cmp_linesAdded := linesAdded;
                   cmp_linesDeleted := linesDeleted;
                   cmp_totalCommits := List.length commitsBetween |}
          | _, _ => Failed 404 "One or both commits not found"
          end
    end.

(** ** The ledger *)

(** The commit is one that the creation of a project records: the message
    and the branch of [POST /], no parent, and the README as the one
    change. *)
Definition isInitial (c : Commit.t) : Prop :=
  Commit.message c = "Initial commit" /\ Commit.branch c = "main"
  /\ Commit.parentCommits c = []
  /\ exists change,
       Commit.changes c = [change]
       /\ Commit.action change = "added" /\ Commit.filePath change = "/README.md"
       /\ Commit.linesDeleted change = 0.

(** One entry of the body of [GET /:projectId/:commitHash/diff]. *)
Record Diff : Type := {
  diff_name : string;
  diff_path : string;
  diff_action : string;
  beforeContent : string;
  afterContent : string;
  diff_linesAdded : nat;
  diff_linesDeleted : nat
}.

(** [populate('changes.file', 'name path content')]: the document that the
    change refers to, as the file collection holds it now. *)
Definition populated (db : Db) (change : Commit.Change) : option File.t :=
  match Commit.file change with
  | Some id => find (fun f => (File._id f =? id)%nat) (files db)
  | None => None
  end.

(** The filter [{ project, name, path, lastCommit: { $in: parentCommits } }]. *)
Definition previousVersion (projectId : ObjectId) (file : File.t)
  (parentCommits : list ObjectId) (f : File.t) : bool :=
  (File.project f =? projectId)%nat
  && (File.name f =? File.cast (File.name file))
  && (File.path f =? File.cast (File.path file))
  && match File.lastCommit f with
     | Some c => existsb (Nat.eqb c) parentCommits
     | None => false
     end.

(** The body of the loop over [commit.changes]; a change without file
    document is skipped. *)
Definition diffOf (db : Db) (projectId : ObjectId) (commit : Commit.t)
  (change : Commit.Change) : option Diff :=
  match populated db change with
  | None => None
  | Some file =>
      let beforeContent := "" in
      let afterContent := File.content file in
      let beforeContent :=
        if (Commit.action change =? "modified")
           && (0 <? List.length (Commit.parentCommits commit))%nat
        then
          match find (previousVersion projectId file (Commit.parentCommits commit))
                     (files db) with
          | Some previousFile => File.content previousFile
          | None => beforeContent
          end
        else beforeContent in
      let '(beforeContent, afterContent) :=
        if Commit.action change =? "deleted" then (File.content file, "")
        else (beforeContent, afterContent) in
      Some {| diff_name := File.name file;
              diff_path := Commit.filePath change;
              diff_action := Commit.action change;
              beforeContent := beforeContent;
              afterContent := afterContent;
              diff_linesAdded := Commit.linesAdded change;
              diff_linesDeleted := Commit.linesDeleted change |}
  end.

Fixpoint diffsOf (db : Db) (projectId : ObjectId) (commit : Commit.t)
  (changes : list Commit.Change) : list Diff :=
  match changes with
  | [] => []
  | change :: rest =>
      match diffOf db projectId commit change with
      | Some d => d :: diffsOf db projectId commit rest
      | None => diffsOf db projectId commit rest
      end
  end.

(** The change refers to a document of the file collection. *)
Definition hasFile (db : Db) (change : Commit.Change) : bool :=
  match populated db change with
  | Some _ => true
  | None => false
  end.

(** The entry shows the change: the name of its file, the action, the
    path and the line counts of the change, and as contents those of the
    file document as it is now. *)
Definition shows (db : Db) (commit : Commit.t) (change : Commit.Change) (d : Diff)
  : Prop :=
  exists file,
    populated db change = Some file
    /\ Commit.file change = Some (File._id file) /\ In file (files db)
    /\ diff_name d = File.name file
    /\ diff_action d = Commit.action change
    /\ diff_path d = Commit.filePath change
    /\ diff_linesAdded d = Commit.linesAdded change
    /\ diff_linesDeleted d = Commit.linesDeleted change
    /\ (Commit.action change = "deleted" ->
        beforeContent d = File.content file /\ afterContent d = "")
    /\ (Commit.action change <> "deleted" ->
        afterContent d = File.content file
        /\ (Commit.action change <> "modified" \/ Commit.parentCommits commit = [] ->
            beforeContent d = "")).

(** [GET /:projectId/:commitHash/diff], the changes of a commit with the
    contents of their files. *)
Definition commitDiff (db : Db) (user : option ObjectId) (projectId : ObjectId)
  (commitHash : string) : Result (Commit.t * list Diff) :=
  if negb (hashLength commitHash) then Failed 400 "Validation failed"
  else
    match findProject db projectId with
    | None => Failed 404 "Project not found"
    | Some project =>
        if denied project user then Failed 403 "Access denied"
        else
          match find (Commit.matches_prefix projectId commitHash) (commits db) with
          | None => Failed 404 "Commit not found"
          | Some commit =>
              Sent 200 (commit, diffsOf db projectId commit (Commit.changes commit))
          end
    end.

(** ** The router of routes/commits.js *)

Module Router.

(** A segment of the path of a route: a parameter ([:projectId]), a
    literal ([diff]), or two parameters joined by three dots
    ([:baseHash...:headHash]). *)
Inductive Segment : Type :=
| Param (name : string)
| Literal (text : string)
| Dotted (first second : string).

Inductive Handler : Type :=
| History
| Details
| DiffOf
| Compare
| Statistics.

(** The [router.get] calls of the file, in their order. *)
Definition routes : list (list Segment * Handler) :=
  [([Param "projectId"], History);
   ([Param "projectId"; Param "commitHash"], Details);
   ([Param "projectId"; Param "commitHash"; Literal "diff"], DiffOf);
   ([Param "projectId"; Literal "compare"; Dotted "baseHash" "headHash"], Compare);
   ([Param "projectId"; Literal "stats"], Statistics)].

Section Dispatch.

(** Which pieces a pair of parameters joined by dots matches is left
    open. *)
Variable dotted : string -> bool.

(** A parameter matches any piece that is not empty, a literal its text
    in either case. *)
Definition matches (segment : Segment) (piece : string) : bool :=
  match segment with
  | Param _ => negb (piece =? "")
  | Literal text => Js.toLowerCase piece =? Js.toLowerCase text
  | Dotted _ _ => dotted piece
  end.

Fixpoint matches_all (pattern : list Segment) (path : list string) : bool :=
  match pattern, path with
  | [], [] => true
  | segment :: pattern', piece :: path' =>
      matches segment piece && matches_all pattern' path'
  | _, _ => false
  end.

(** The request goes to the first route whose path matches the pieces of
    its path; the handlers of this router answer themselves and pass no
    request on. *)
Definition dispatch (path : list string) : option Handler :=
  option_map snd (find (fun route => matches_all (fst route) path) routes).

End Dispatch.

End Router.
(** * Properties *)

(** ** SHA-1 test vectors (FIPS 180-4, appendix) *)

Example sha1_abc : Sha1.hex "abc" = "a9993e364706816aba3e25717850c26c9cd0d89d".
Proof. vm_compute. reflexivity. Qed.

Example sha1_empty : Sha1.hex "" = "da39a3ee5e6b4b0d3255bfef95601890afd80709".
Proof. vm_compute. reflexivity. Qed.

Example sha1_two_blocks :
  Sha1.hex "abcdbcdecdefdefgefghfghighijhijkijkljklmklmnlmnomnopnopq"
  = "84983e441c3bd26ebaae4aa1f95129e5e54670f1".
Proof. vm_compute. reflexivity. Qed.

(** ** The path of a request *)

Example parsePath_root : parsePath "README.md" = ("/", "README.md").
Proof. reflexivity. Qed.

Example parsePath_leading_slash : parsePath "/README.md" = ("/", "README.md").
Proof. reflexivity. Qed.

Example parsePath_nested : parsePath "src/lib/a.js" = ("/src/lib", "a.js").
Proof. reflexivity. Qed.

Example fullPath_nested :
  File.fullPath (File.new 0 0 "a.js" "/src/lib" "x" "main") = "/src/lib/a.js".
Proof. reflexivity. Qed.

Example trim_both_ends : Js.trim "  a b  " = "a b".
Proof. reflexivity. Qed.

Example lineCount_two : Js.lineCount ("hello" ++ newline ++ "world") = 2.
Proof. reflexivity. Qed.

(** ** The states of the scenario *)

Lemma created_commits : commits Scenario.created = [Scenario.initialCommit].
Proof. vm_compute. reflexivity. Qed.

Lemma created_files : files Scenario.created = [Scenario.readme].
Proof. vm_compute. reflexivity. Qed.

Lemma forked_files : files Scenario.forked = [Scenario.readme; Scenario.copy].
Proof. vm_compute. reflexivity. Qed.

(** ** Permissions *)

Lemma owner_hasPermission (p : Project.t) (requiredRole : string) :
  Project.hasPermission p (Project.owner p) requiredRole = true.
Proof. unfold Project.hasPermission. now rewrite Nat.eqb_refl. Qed.

Lemma outsider_hasPermission (p : Project.t) (userId : ObjectId) (requiredRole : string) :
  outsider p userId -> Project.hasPermission p userId requiredRole = false.
Proof.
  intros [Hown Hcol]. unfold Project.hasPermission.
  destruct (Nat.eqb_spec (Project.owner p) userId) as [E | _]; [now elim Hown |].
  destruct (find _ (Project.collaborators p)) as [col |] eqn:F; [| reflexivity].
  apply find_some in F. destruct F as [Hin Heq].
  apply Nat.eqb_eq in Heq. now elim (Hcol col Hin).
Qed.

(** Case analysis on every test a handler makes. *)
Ltac split_handler :=
  repeat (simpl in *;
          match goal with
          | |- context [match ?x with _ => _ end] => destruct x eqn:?
          | |- context [if ?x then _ else _] => destruct x eqn:?
          end).

Lemma put_owner_not_403 (db : Db) (env : Env) (p : Project.t) (req : PutRequest) :
  findProject db (put_projectId req) = Some p ->
  status_of (snd (put db env (Project.owner p) req)) <> 403.
Proof.
  intros F. unfold put, put_with. rewrite F, owner_hasPermission.
  split_handler; simpl; discriminate.
Qed.

Lemma remove_owner_not_403 (db : Db) (env : Env) (p : Project.t) (req : DeleteRequest) :
  findProject db (del_projectId req) = Some p ->
  status_of (snd (remove db env (Project.owner p) req)) <> 403.
Proof.
  intros F. unfold remove, remove_with. rewrite F, owner_hasPermission.
  split_handler; simpl; discriminate.
Qed.

Lemma createBranch_owner_not_403 (db : Db) (env : Env) (p : Project.t) (req : BranchRequest) :
  findProject db (br_projectId req) = Some p ->
  status_of (snd (createBranch db env (Project.owner p) req)) <> 403.
Proof.
  intros F. unfold createBranch. rewrite F, owner_hasPermission.
  split_handler; simpl; discriminate.
Qed.

Lemma deleteBranch_owner_not_403 (db : Db) (p : Project.t) (projectId : ObjectId)
  (name : string) :
  findProject db projectId = Some p ->
  status_of (snd (deleteBranch db (Project.owner p) projectId name)) <> 403.
Proof.
  intros F. unfold deleteBranch. rewrite F, owner_hasPermission.
  split_handler; simpl; discriminate.
Qed.

Lemma put_outsider_stopped (db : Db) (env : Env) (p : Project.t) (u : ObjectId)
  (req : PutRequest) :
  findProject db (put_projectId req) = Some p -> outsider p u ->
  stopped db (put db env u req).
Proof.
  intros F O. unfold put, put_with, stopped. rewrite F, (outsider_hasPermission _ _ _ O).
  simpl. destruct (negb _); auto.
Qed.

Lemma remove_outsider_stopped (db : Db) (env : Env) (p : Project.t) (u : ObjectId)
  (req : DeleteRequest) :
  findProject db (del_projectId req) = Some p -> outsider p u ->
  stopped db (remove db env u req).
Proof.
  intros F O. unfold remove, remove_with, stopped. rewrite F, (outsider_hasPermission _ _ _ O).
  simpl. destruct (negb _); auto.
Qed.

Lemma createBranch_outsider_stopped (db : Db) (env : Env) (p : Project.t) (u : ObjectId)
  (req : BranchRequest) :
  findProject db (br_projectId req) = Some p -> outsider p u ->
  stopped db (createBranch db env u req).
Proof.
  intros F O. unfold createBranch, stopped. rewrite F, (outsider_hasPermission _ _ _ O).
  simpl. destruct (negb _); auto.
Qed.

Lemma deleteBranch_outsider_stopped (db : Db) (p : Project.t) (u projectId : ObjectId)
  (name : string) :
  findProject db projectId = Some p -> outsider p u ->
  stopped db (deleteBranch db u projectId name).
Proof.
  intros F O. unfold deleteBranch, stopped. rewrite F, (outsider_hasPermission _ _ _ O).
  simpl. destruct (negb _); auto.
Qed.

(** C10. The owner of a project has every role: [hasPermission] answers
    [true] for the owner whatever the required role and the collaborators
    list, so the four gated handlers (write file, delete file, create
    branch, delete branch) never answer 403 to the owner.  A user who is
    neither the owner nor a collaborator gets [false] for every role, and
    the four handlers stop at the validation or at the gate (403) and
    leave the store as it was. *)
Theorem C10_owner_passes_outsider_fails
  (db : Db) (env : Env) (p : Project.t) (u : ObjectId) (requiredRole : string)
  (w : PutRequest) (d : DeleteRequest) (b : BranchRequest) (name : string) :
  findProject db (Project._id p) = Some p ->
  put_projectId w = Project._id p -> del_projectId d = Project._id p ->
  br_projectId b = Project._id p ->
  outsider p u ->
  Project.hasPermission p (Project.owner p) requiredRole = true
  /\ Project.hasPermission p u requiredRole = false
  /\ status_of (snd (put db env (Project.owner p) w)) <> 403
  /\ status_of (snd (remove db env (Project.owner p) d)) <> 403
  /\ status_of (snd (createBranch db env (Project.owner p) b)) <> 403
  /\ status_of (snd (deleteBranch db (Project.owner p) (Project._id p) name)) <> 403
  /\ stopped db (put db env u w)
  /\ stopped db (remove db env u d)
  /\ stopped db (createBranch db env u b)
  /\ stopped db (deleteBranch db u (Project._id p) name).
Proof.
  intros F Hw Hd Hb O.
  repeat split.
  - apply owner_hasPermission.
  - now apply outsider_hasPermission.
  - apply put_owner_not_403. now rewrite Hw.
  - apply remove_owner_not_403. now rewrite Hd.
  - apply createBranch_owner_not_403. now rewrite Hb.
  - now apply deleteBranch_owner_not_403.
  - apply put_outsider_stopped with p; [now rewrite Hw | assumption].
  - apply remove_outsider_stopped with p; [now rewrite Hd | assumption].
  - apply createBranch_outsider_stopped with p; [now rewrite Hb | assumption].
  - now apply deleteBranch_outsider_stopped with p.
Qed.

Lemma C10_owner_passes_outsider_fails_witness :
  let db := Scenario.created in
  let p := Scenario.project in
  let w := Scenario.write in
  let d := {| del_projectId := Scenario.P; del_filePath := "README.md";
              del_message := "Drop it"; del_branch := None |} in
  Project.hasPermission p Scenario.alice "admin" = true
  /\ Project.hasPermission p Scenario.mallory "admin" = false
  /\ status_of (snd (put db Scenario.env3 Scenario.alice w)) <> 403
  /\ status_of (snd (remove db Scenario.env3 Scenario.alice d)) <> 403
  /\ status_of (snd (createBranch db Scenario.env3 Scenario.alice Scenario.fork)) <> 403
  /\ status_of (snd (deleteBranch db Scenario.alice Scenario.P "main")) <> 403
  /\ stopped db (put db Scenario.env3 Scenario.mallory w)
  /\ stopped db (remove db Scenario.env3 Scenario.mallory d)
  /\ stopped db (createBranch db Scenario.env3 Scenario.mallory Scenario.fork)
  /\ stopped db (deleteBranch db Scenario.mallory Scenario.P "main").
Proof.
  intros db p w d.
  apply (C10_owner_passes_outsider_fails db Scenario.env3 p Scenario.mallory "admin"
           w d Scenario.fork "main").
  - vm_compute. reflexivity.
  - reflexivity.
  - reflexivity.
  - reflexivity.
  - split; [discriminate | intros col []].
Defined.

(** ** Sorted queries *)

Section Sorting.
Context {A : Type}.
Variable le : A -> A -> bool.

Lemma insert_sorted_perm (x : A) (l : list A) :
  Permutation (insert_sorted le x l) (x :: l).
Proof.
  induction l as [| y l IH]; simpl.
  - apply Permutation_refl.
  - destruct (le x y).
    + apply Permutation_refl.
    + eapply perm_trans; [apply perm_skip, IH | apply perm_swap].
Qed.

Lemma sort_by_perm (l : list A) : Permutation (sort_by le l) l.
Proof.
  induction l as [| x l IH]; simpl.
  - apply perm_nil.
  - eapply perm_trans; [apply insert_sorted_perm | now apply perm_skip].
Qed.

Lemma filter_perm (f : A -> bool) (l l' : list A) :
  Permutation l l' -> Permutation (filter f l) (filter f l').
Proof.
  induction 1 as [| x l l' _ IH | x y l | l l' l'' _ IH1 _ IH2]; simpl.
  - apply perm_nil.
  - destruct (f x); [now apply perm_skip | assumption].
  - destruct (f x), (f y); try apply Permutation_refl. apply perm_swap.
  - now apply perm_trans with (filter f l').
Qed.

Lemma existsb_perm (f : A -> bool) (l l' : list A) :
  Permutation l l' -> existsb f l = existsb f l'.
Proof.
  intros P. apply eq_true_iff_eq. rewrite !existsb_exists.
  split; intros [x [Hin Hf]]; exists x; split; trivial.
  - now apply Permutation_in with l.
  - apply Permutation_in with l'; [now apply Permutation_sym | assumption].
Qed.

Lemma count_sorted (f : A -> bool) (l : list A) :
  List.length (filter f (sort_by le l)) = List.length (filter f l).
Proof. apply Permutation_length, filter_perm, sort_by_perm. Qed.

End Sorting.

(** ** Divergence of two branches *)

Lemma has_hashOccurs (c : Commit.t) (l : list Commit.t) :
  Branch.has (Branch.hashes l) (Commit.hash c) = hashOccurs c l.
Proof.
  unfold Branch.has, Branch.hashes, hashOccurs.
  induction l as [| c' l IH]; simpl; [reflexivity |]. now rewrite IH.
Qed.

Lemma hashOccurs_sorted (le : Commit.t -> Commit.t -> bool) (c : Commit.t)
  (l : list Commit.t) :
  hashOccurs c (sort_by le l) = hashOccurs c l.
Proof. apply existsb_perm, sort_by_perm. Qed.

Lemma difference_counts (a : Branch.t) (targetName : string) (commits : list Commit.t) :
  Branch.difference a targetName commits
  = (List.length
       (filter (fun c => negb (hashOccurs c (recordedOn (Branch.project a) targetName commits)))
               (recordedOn (Branch.project a) (Branch.name a) commits)),
     List.length
       (filter (fun c => negb (hashOccurs c (recordedOn (Branch.project a) (Branch.name a)
                                                        commits)))
               (recordedOn (Branch.project a) targetName commits))).
Proof.
  unfold Branch.difference, Commit.of_branch.
  fold (recordedOn (Branch.project a) (Branch.name a) commits).
  fold (recordedOn (Branch.project a) targetName commits).
  rewrite !count_sorted. f_equal; f_equal; apply filter_ext; intros c;
    now rewrite has_hashOccurs, hashOccurs_sorted.
Qed.

(** C3. For two branches [a] and [b] of one project, [calculateDifference]
    stores as [commitsAhead] of [a] the number of commits recorded on [a]
    whose hash does not occur among the commits recorded on [b], and as
    [commitsBehind] the number of commits recorded on [b] whose hash does
    not occur among those of [a]; so the ahead count of [a] against [b] is
    the behind count of [b] against [a]. *)
Theorem C3_divergence_is_set_difference
  (a b : Branch.t) (commits : list Commit.t) (branches : list Branch.t) :
  Branch.project a = Branch.project b ->
  let onA := recordedOn (Branch.project a) (Branch.name a) commits in
  let onB := recordedOn (Branch.project a) (Branch.name b) commits in
  let saved := snd (fst (Branch.calculateDifference a (Branch.name b) commits branches)) in
  Branch.commitsAhead (Branch.stats saved)
    = List.length (filter (fun c => negb (hashOccurs c onB)) onA)
  /\ Branch.commitsBehind (Branch.stats saved)
    = List.length (filter (fun c => negb (hashOccurs c onA)) onB)
  /\ fst (Branch.difference a (Branch.name b) commits)
    = snd (Branch.difference b (Branch.name a) commits)
  /\ snd (Branch.difference a (Branch.name b) commits)
    = fst (Branch.difference b (Branch.name a) commits).
Proof.
  intros Hp onA onB saved.
  assert (Hsaved :
    (Branch.commitsAhead (Branch.stats saved), Branch.commitsBehind (Branch.stats saved))
    = Branch.difference a (Branch.name b) commits).
  { subst saved. unfold Branch.calculateDifference.
    destruct (Branch.difference a (Branch.name b) commits) as [ahead behind].
    destruct (Branch.save _ _ _) as [bs e]. reflexivity. }
  rewrite (difference_counts a), (difference_counts b), <- Hp in *.
  fold onA onB in Hsaved |- *. simpl.
  inversion Hsaved. repeat split; reflexivity.
Qed.

Lemma C3_divergence_is_set_difference_witness :
  let commits := commits Scenario.created in
  fst (Branch.difference Scenario.feature "main" commits)
    = snd (Branch.difference Scenario.main "feature" commits)
  /\ snd (Branch.difference Scenario.feature "main" commits)
    = fst (Branch.difference Scenario.main "feature" commits).
Proof.
  intros commits.
  apply (C3_divergence_is_set_difference Scenario.feature Scenario.main commits []).
  reflexivity.
Defined.

(** ** Commit statistics *)

Lemma fold_sum {A : Type} (f : A -> nat) (l : list A) (start : nat) :
  fold_left (fun sum x => sum + f x) l start = start + list_sum (map f l).
Proof.
  revert start. induction l as [| x l IH]; intros start; simpl.
  - lia.
  - rewrite IH. lia.
Qed.

Lemma calculateStats_sums (c : Commit.t) :
  Commit.calculateStats c
  = {| Commit.filesChanged := List.length (Commit.changes c);
       Commit.totalLinesAdded := list_sum (map Commit.linesAdded (Commit.changes c));
       Commit.totalLinesDeleted := list_sum (map Commit.linesDeleted (Commit.changes c)) |}.
Proof. unfold Commit.calculateStats. now rewrite !fold_sum. Qed.

Lemma pre_save_changes (env : Env) (c : Commit.t) :
  Commit.changes (Commit.pre_save env c) = Commit.changes c.
Proof. unfold Commit.pre_save. now destruct (Commit.no_hash c). Qed.

Lemma commit_save_stats (env : Env) (c saved : Commit.t) (commits commits' : list Commit.t) :
  Commit.save env c commits = (commits', saved, None) ->
  Commit.changes saved = Commit.changes c
  /\ Commit.stats saved = Commit.calculateStats c.
Proof.
  unfold Commit.save. destruct (Commit.validate c); [discriminate |].
  destruct (existsb _ commits); [discriminate |].
  intros H. injection H as _ <-. unfold Commit.pre_save.
  destruct (Commit.no_hash c); split; reflexivity.
Qed.

Lemma file_save_kept (loaded m : bool) (this this' : File.t) (l l' : list File.t) :
  File.save loaded m this l = (l', this', None) -> File.content this' = File.content this.
Proof.
  unfold File.save. destruct (File.validate_modified loaded m this); [discriminate |].
  intros H. injection H as _ <-. unfold File.pre_save. now destruct m.
Qed.

Section BuiltChanges.

#[local] Arguments File.save : simpl never.
#[local] Arguments File.save_new : simpl never.
#[local] Arguments parsePath : simpl never.

(** The commit that [put] hands to [save]. *)
Lemma put_with_change (db db' : Db) (env : Env) (u : ObjectId) (req : PutRequest)
  (file : File.t) (commit : Commit.t) :
  put_with storeAsIs db env u req = (db', Sent 200 (file, commit)) ->
  exists change,
    Commit.changes commit = [change]
    /\ match find (File.live_at (put_projectId req) (snd (parsePath (put_filePath req)))
                     (fst (parsePath (put_filePath req)))
                     (or_else (put_branch req) "main")) (files db) with
       | None =>
           Commit.action change = "added"
           /\ Commit.linesAdded change = Js.lineCount (put_content req)
           /\ Commit.linesDeleted change = 0
       | Some old =>
           Commit.action change = "modified"
           /\ Commit.linesAdded change = 0
           /\ Commit.linesDeleted change = Js.lineCount (File.content old)
       end.
Proof.
  unfold put_with, storeAsIs, or_else.
  destruct (negb _); [discriminate |].
  destruct (findProject db (put_projectId req)) as [p |]; [| discriminate].
  destruct (negb (Project.hasPermission p u "editor")); [discriminate |].
  destruct (parsePath (put_filePath req)) as [dirPath fileName]. simpl fst. simpl snd.
  destruct (find _ (files db)) as [old |].
  - destruct (File.save _ _ _ _) as [[files1 file1] [e1 |]]; [discriminate |].
    simpl. destruct (File.save _ _ _ _) as [[files2 file2] [e2 |]]; [discriminate |].
    intros H. injection H as _ _ <-. eexists. split; [reflexivity |]. simpl. auto.
  - destruct (File.save_new _ _) as [[files1 file1] [e1 |]]; [discriminate |].
    simpl. destruct (File.save _ _ _ _) as [[files2 file2] [e2 |]]; [discriminate |].
    intros H. injection H as _ _ <-. eexists. split; [reflexivity |]. simpl. auto.
Qed.

(** The commit that [remove] hands to [save]. *)
Lemma remove_with_change (db db' : Db) (env : Env) (u : ObjectId) (req : DeleteRequest)
  (commit : Commit.t) :
  remove_with storeAsIs db env u req = (db', Sent 200 commit) ->
  exists change old,
    Commit.changes commit = [change]
    /\ find (File.live_at (del_projectId req) (snd (parsePath (del_filePath req)))
               (fst (parsePath (del_filePath req)))
               (or_else (del_branch req) "main")) (files db) = Some old
    /\ Commit.action change = "deleted"
    /\ Commit.linesAdded change = 0
    /\ Commit.linesDeleted change = Js.lineCount (File.content old).
Proof.
  unfold remove_with, storeAsIs, or_else.
  destruct (negb _); [discriminate |].
  destruct (findProject db (del_projectId req)) as [p |]; [| discriminate].
  destruct (negb (Project.hasPermission p u "editor")); [discriminate |].
  destruct (parsePath (del_filePath req)) as [dirPath fileName]. simpl fst. simpl snd.
  destruct (find _ (files db)) as [old |]; [| discriminate].
  destruct (File.save _ _ _ _) as [[files1 file1] [e1 |]] eqn:Hsave; [discriminate |].
  simpl. intros H. injection H as _ <-.
  apply file_save_kept in Hsave.
  eexists. exists old. split; [reflexivity |]. split; [reflexivity |]. simpl.
  rewrite Hsave. auto.
Qed.

End BuiltChanges.

(** C6, as the code has it. [put] and [remove] are [put_with] and
    [remove_with] at [Commit.save].  The commit that [put] builds and
    hands to [save] has one change: for a new file, [added] with
    [linesAdded] = the line count of the new content and [linesDeleted]
    = 0; for a file that exists, [modified] with [linesAdded] = 0 and
    [linesDeleted] = the line count of the old content.  The commit that
    [remove] builds has one change, [deleted], with [linesAdded] = 0 and
    [linesDeleted] = the line count of the deleted content.  A commit
    that [Commit.save] stores has [filesChanged] = the number of its
    changes and as totals the sums of [linesAdded] and of [linesDeleted]
    over the changes. *)
Theorem C6_size_based_statistics :
  (forall db env u req, put db env u req = put_with Commit.save db env u req)
  /\ (forall db env u req, remove db env u req = remove_with Commit.save db env u req)
  /\ (forall db env u req db' file commit,
        put_with storeAsIs db env u req = (db', Sent 200 (file, commit)) ->
        exists change,
          Commit.changes commit = [change]
          /\ match find (File.live_at (put_projectId req)
                           (snd (parsePath (put_filePath req)))
                           (fst (parsePath (put_filePath req)))
                           (or_else (put_branch req) "main")) (files db) with
             | None =>
                 Commit.action change = "added"
                 /\ Commit.linesAdded change = Js.lineCount (put_content req)
                 /\ Commit.linesDeleted change = 0
             | Some old =>
                 Commit.action change = "modified"
                 /\ Commit.linesAdded change = 0
                 /\ Commit.linesDeleted change = Js.lineCount (File.content old)
             end)
  /\ (forall db env u req db' commit,
        remove_with storeAsIs db env u req = (db', Sent 200 commit) ->
        exists change old,
          Commit.changes commit = [change]
          /\ find (File.live_at (del_projectId req)
                     (snd (parsePath (del_filePath req)))
                     (fst (parsePath (del_filePath req)))
                     (or_else (del_branch req) "main")) (files db) = Some old
          /\ Commit.action change = "deleted"
          /\ Commit.linesAdded change = 0
          /\ Commit.linesDeleted change = Js.lineCount (File.content old))
  /\ (forall env c commits commits' saved,
        Commit.save env c commits = (commits', saved, None) ->
        Commit.changes saved = Commit.changes c
        /\ Commit.filesChanged (Commit.stats saved) = List.length (Commit.changes c)
        /\ Commit.totalLinesAdded (Commit.stats saved)
           = list_sum (map Commit.linesAdded (Commit.changes c))
        /\ Commit.totalLinesDeleted (Commit.stats saved)
           = list_sum (map Commit.linesDeleted (Commit.changes c))).
Proof.
  split; [reflexivity |]. split; [reflexivity |].
  split; [intros; eapply put_with_change; eassumption |].
  split; [intros; eapply remove_with_change; eassumption |].
  intros env c commits commits' saved H.
  apply commit_save_stats in H as [Hchanges Hstats].
  rewrite Hstats, calculateStats_sums. simpl. auto.
Qed.

(** The first write of a.txt builds a change [added] with one added line,
    and its deletion a change [deleted] with one deleted line. *)
Example put_with_builds_added :
  exists db' file commit,
    put_with storeAsIs Scenario.created Scenario.env2 Scenario.alice RoundTrip.writeA
    = (db', Sent 200 (file, commit))
    /\ Commit.changes commit
       = [{| Commit.file := Some 4; Commit.action := "added";
             Commit.filePath := "/a.txt"; Commit.oldPath := None;
             Commit.linesAdded := 1; Commit.linesDeleted := 0 |}].
Proof. do 3 eexists. split; [vm_compute; reflexivity | reflexivity]. Qed.

Example remove_with_builds_deleted :
  exists db' commit,
    remove_with storeAsIs RoundTrip.afterB Scenario.env4 Scenario.alice RoundTrip.delete
    = (db', Sent 200 commit)
    /\ Commit.changes commit
       = [{| Commit.file := Some 4; Commit.action := "deleted";
             Commit.filePath := "/a.txt"; Commit.oldPath := None;
             Commit.linesAdded := 0; Commit.linesDeleted := 1 |}].
Proof. do 2 eexists. split; [vm_compute; reflexivity | reflexivity]. Qed.

(** The write of the scenario changes a file of two lines that exists
    into one of three lines; the change of the commit that [put] builds
    counts no added line. *)
Lemma C6_modified_counts_no_added_line :
  exists db' file commit change,
    put_with storeAsIs Scenario.forked Scenario.env3 Scenario.alice Scenario.write
    = (db', Sent 200 (file, commit))
    /\ Commit.changes commit = [change]
    /\ Commit.action change = "modified"
    /\ Js.lineCount (put_content Scenario.write) = 3
    /\ Commit.linesAdded change = 0
    /\ Commit.linesAdded change <> Js.lineCount (put_content Scenario.write).
Proof.
  do 4 eexists. split; [vm_compute; reflexivity |].
  split; [reflexivity |]. split; [reflexivity |]. split; [reflexivity |].
  split; [reflexivity | discriminate].
Qed.

(** ** Looking a commit up by the prefix of its hash *)

Lemma lower_char_idem (c : ascii) : Js.lower_char (Js.lower_char c) = Js.lower_char c.
Proof. destruct c as [[] [] [] [] [] [] [] []]; reflexivity. Qed.


Lemma startsWith_ci_lower_hash (prefix s : string) :
  Js.startsWith_ci prefix (Js.toLowerCase s) = Js.startsWith_ci prefix s.
Proof.
  revert s. induction prefix as [| a p IH]; intros s; simpl; [reflexivity |].
  destruct s as [| b s]; simpl; [reflexivity |]. now rewrite lower_char_idem, IH.
Qed.

Lemma find_first {A : Type} (f : A -> bool) (before after : list A) (x : A) :
  (forall y, In y before -> f y = false) -> f x = true ->
  find f (before ++ x :: after) = Some x.
Proof.
  intros Hb Hx. induction before as [| y before IH]; simpl.
  - now rewrite Hx.
  - rewrite (Hb y (or_introl eq_refl)). apply IH. intros z Hz. apply Hb. now right.
Qed.

Lemma find_nothing {A : Type} (f : A -> bool) (l : list A) :
  (forall y, In y l -> f y = false) -> find f l = None.
Proof.
  intros H. induction l as [| y l IH]; simpl; [reflexivity |].
  rewrite (H y (or_introl eq_refl)). apply IH. intros z Hz. apply H. now right.
Qed.

(** ** Commit hashes *)

Lemma digit_is_digit (n : Z) : Hex.is_digit (Hex.digit n) = true.
Proof.
  destruct n as [| p | p]; try reflexivity.
  do 4 (try destruct p as [p | p |]); reflexivity.
Qed.

Lemma render_length (digits : nat) (z : Z) : String.length (Hex.render digits z) = digits.
Proof. induction digits as [| k IH]; simpl; [reflexivity | now rewrite IH]. Qed.

Lemma render_digits (digits : nat) (z : Z) : Hex.all_digits (Hex.render digits z) = true.
Proof.
  induction digits as [| k IH]; simpl; [reflexivity |].
  now rewrite digit_is_digit, IH.
Qed.

Lemma append_length (s t : string) :
  String.length (s ++ t) = String.length s + String.length t.
Proof. induction s as [| c s IH]; simpl; [reflexivity | now rewrite IH]. Qed.

Lemma append_digits (s t : string) :
  Hex.all_digits (s ++ t) = Hex.all_digits s && Hex.all_digits t.
Proof.
  induction s as [| c s IH]; simpl; [reflexivity |]. now rewrite IH, andb_assoc.
Qed.

Lemma sha1_hex_length (s : string) : String.length (Sha1.hex s) = 40.
Proof.
  unfold Sha1.hex. destruct (Sha1.digest s) as [[[[h0 h1] h2] h3] h4].
  now rewrite !append_length, !render_length.
Qed.

Lemma sha1_hex_digits (s : string) : Hex.all_digits (Sha1.hex s) = true.
Proof.
  unfold Sha1.hex. destruct (Sha1.digest s) as [[[[h0 h1] h2] h3] h4].
  now rewrite !append_digits, !render_digits.
Qed.

Lemma substring0_length (n : nat) (s : string) :
  String.length (Js.substring0 n s) = Nat.min n (String.length s).
Proof.
  unfold Js.substring0. revert s.
  induction n as [| n IH]; intros s; destruct s as [| c s]; simpl; try reflexivity.
  now rewrite IH.
Qed.

Lemma substring0_digits (n : nat) (s : string) :
  Hex.all_digits s = true -> Hex.all_digits (Js.substring0 n s) = true.
Proof.
  unfold Js.substring0. revert s.
  induction n as [| n IH]; intros s; destruct s as [| c s]; simpl; try reflexivity.
  intros H. apply andb_true_iff in H. destruct H as [Hc Hs].
  now rewrite Hc, IH.
Qed.

Lemma substring0_short (n : nat) (s : string) :
  String.length s <= n -> Js.substring0 n s = s.
Proof.
  unfold Js.substring0. revert s.
  induction n as [| n IH]; intros s; destruct s as [| c s]; simpl; intros H;
    try reflexivity; try lia.
  rewrite IH; [reflexivity | lia].
Qed.

Lemma generateHash_length (env : Env) (c : Commit.t) :
  String.length (Commit.generateHash env c) = 7.
Proof.
  unfold Commit.generateHash. now rewrite substring0_length, sha1_hex_length.
Qed.

Lemma has_hash_none (h : string) (commits : list Commit.t) :
  existsb (Commit.has_hash (Some h)) commits = false ->
  ~ In (Some h) (map Commit.hash commits).
Proof.
  intros E Hin. apply in_map_iff in Hin. destruct Hin as [c [Hc Hin]].
  assert (X : existsb (Commit.has_hash (Some h)) commits = true).
  { apply existsb_exists. exists c. split; [assumption |].
    unfold Commit.has_hash. rewrite Hc. apply String.eqb_refl. }
  congruence.
Qed.

(** The unique index on [hash]: a save keeps the hashes of the ledger
    distinct, whether it succeeds or not. *)
Lemma save_keeps_hashes_distinct (env : Env) (c : Commit.t) (commits : list Commit.t) :
  NoDup (map Commit.hash commits) ->
  NoDup (map Commit.hash (fst (fst (Commit.save env c commits)))).
Proof.
  intros ND. unfold Commit.save.
  destruct (Commit.validate c) as [e |] eqn:V; [assumption |].
  assert (H : Commit.no_hash c = false).
  { unfold Commit.validate in V. now destruct (Commit.no_hash c). }
  unfold Commit.pre_save. rewrite H. simpl.
  destruct (existsb _ commits) eqn:E; simpl; [assumption |].
  rewrite map_app. simpl.
  unfold Commit.no_hash in H. destruct (Commit.hash c) as [h |] eqn:Hh; [| discriminate].
  apply NoDup_app. repeat split; trivial.
  - constructor; [intros [] | constructor].
  - intros x Hx [<- | []]. revert Hx. now apply has_hash_none.
Qed.

Ltac by_commit_save :=
  match goal with
  | H : Commit.save ?env ?c ?l = (?l', _, _) |- NoDup (map Commit.hash ?l') =>
      let X := fresh in
      pose proof (save_keeps_hashes_distinct env c l) as X;
      rewrite H in X; simpl in X; apply X
  end.

Lemma serve_keeps_hashes_distinct (db : Db) (env : Env) (r : Request) :
  NoDup (map Commit.hash (commits db)) ->
  NoDup (map Commit.hash (commits (serve db env r))).
Proof.
  intros ND. destruct r; simpl.
  - unfold createProject. split_handler; trivial; by_commit_save; trivial.
  - unfold updateProject. split_handler; trivial.
  - unfold deleteProject. split_handler; trivial.
  - unfold addCollaborator. split_handler; trivial.
  - unfold removeCollaborator. split_handler; trivial.
  - unfold put, put_with. split_handler; trivial.
  - unfold remove, remove_with. split_handler; trivial.
  - unfold createBranch. split_handler; trivial.
  - unfold updateBranch. split_handler; trivial.
  - unfold deleteBranch. split_handler; trivial.
Qed.

Lemma run_snoc (db : Db) (trace : list (Env * Request)) (env : Env) (r : Request) :
  run db (trace ++ [(env, r)]) = serve (run db trace) env r.
Proof. unfold run. now rewrite fold_left_app. Qed.

(** Induction on the requests served so far. *)
Lemma reachable_ind (P : Db -> Prop) :
  P empty ->
  (forall db env r, reachable db -> P db -> P (serve db env r)) ->
  forall db, reachable db -> P db.
Proof.
  intros H0 Hstep db [trace <-].
  induction trace as [| [env r] trace IH] using rev_ind.
  - exact H0.
  - rewrite run_snoc. apply Hstep; [now exists trace | exact IH].
Qed.

Lemma reachable_hashes_distinct (db : Db) :
  reachable db -> NoDup (map Commit.hash (commits db)).
Proof.
  revert db. apply (reachable_ind (fun db => NoDup (map Commit.hash (commits db)))).
  - constructor.
  - intros db' env r _ IH. now apply serve_keeps_hashes_distinct.
Qed.

Lemma NoDup_map_filter {A B : Type} (f : A -> B) (g : A -> bool) (l : list A) :
  NoDup (map f l) -> NoDup (map f (filter g l)).
Proof.
  induction l as [| x l IH]; simpl; intros ND; [constructor |].
  inversion ND as [| y ys Hnot ND']; subst.
  destruct (g x); simpl; [| now apply IH].
  constructor; [| now apply IH].
  intros Hin. apply Hnot. apply in_map_iff in Hin. destruct Hin as [z [Hz Hin]].
  apply in_map_iff. exists z. split; [assumption |].
  apply filter_In in Hin. tauto.
Qed.

(** C9, as the code has it. [generateHash] takes the SHA-1 digest (forty
    hexadecimal digits) of the project, message, author, time and random
    number, and keeps its first seven digits: the hash of the commit is
    that seven-digit string, and [shortHash] is the same string.  The
    hashes of the commits of a project are pairwise distinct in every
    store the server can reach (the unique index on [hash] refuses a
    second commit with a hash already taken). *)
Theorem C9_hash_is_seven_digits_of_sha1
  (env : Env) (c : Commit.t) (db : Db) (projectId : ObjectId) :
  reachable db ->
  let h := Commit.generateHash env c in
  h = Js.substring0 7 (Sha1.hex (hashInput env c))
  /\ String.length (Sha1.hex (hashInput env c)) = 40
  /\ String.length h = 7
  /\ Hex.all_digits h = true
  /\ Commit.shortHash (Commit.with_hash (Some h) c) = h
  /\ NoDup (map Commit.hash (commitsOf db projectId)).
Proof.
  intros R h. repeat split.
  - apply sha1_hex_length.
  - apply generateHash_length.
  - apply substring0_digits, sha1_hex_digits.
  - unfold Commit.shortHash. simpl. apply substring0_short.
    subst h. now rewrite generateHash_length.
  - apply NoDup_map_filter. now apply reachable_hashes_distinct.
Qed.

Lemma C9_hash_is_seven_digits_of_sha1_witness :
  let c := Commit.new 3 Scenario.P "Initial commit" Scenario.alice "main" [] in
  let h := Commit.generateHash Scenario.env1 c in
  h = Js.substring0 7 (Sha1.hex (hashInput Scenario.env1 c))
  /\ String.length (Sha1.hex (hashInput Scenario.env1 c)) = 40
  /\ String.length h = 7
  /\ Hex.all_digits h = true
  /\ Commit.shortHash (Commit.with_hash (Some h) c) = h
  /\ NoDup (map Commit.hash (commitsOf Scenario.created Scenario.P)).
Proof.
  intros c.
  apply (C9_hash_is_seven_digits_of_sha1 Scenario.env1 c Scenario.created Scenario.P).
  exists [(Scenario.env1, CreateProject Scenario.alice Scenario.request)].
  vm_compute. reflexivity.
Defined.

(** The commit that the creation of P recorded holds the seven digits
    4601e1b as its hash; the forty digits of the digest are not in it. *)
Lemma C9_full_digest_is_not_retained :
  commits Scenario.created = [Scenario.initialCommit]
  /\ Sha1.hex (hashInput Scenario.env1 Scenario.initialCommit)
     = "4601e1b15b038e1df5b2d55b388f26ae453ef28c"
  /\ Commit.hash Scenario.initialCommit = Some "4601e1b"
  /\ Commit.shortHash Scenario.initialCommit = "4601e1b"
  /\ Commit.hash Scenario.initialCommit
     <> Some (Sha1.hex (hashInput Scenario.env1 Scenario.initialCommit)).
Proof.
  assert (D : Sha1.hex (hashInput Scenario.env1 Scenario.initialCommit)
              = "4601e1b15b038e1df5b2d55b388f26ae453ef28c")
    by (vm_compute; reflexivity).
  split; [apply created_commits |].
  split; [exact D |].
  split; [reflexivity |].
  split; [reflexivity |].
  rewrite D. discriminate.
Qed.

(** ** Listing a directory *)

Lemma sort_by_In {A : Type} (le : A -> A -> bool) (l : list A) (x : A) :
  In x (sort_by le l) <-> In x l.
Proof.
  split; apply Permutation_in; [| apply Permutation_sym]; apply sort_by_perm.
Qed.

(** The entries of a listing are the documents of the branch at that path
    that are not marked deleted. *)
Lemma getTree_entries (db : Db) (user : option ObjectId) (projectId : ObjectId)
  (branch path : string) (listing : list File.t) (f : File.t) :
  getTree db user projectId (Some branch) (Some path) = Sent 200 listing ->
  In f listing <->
  In f (files db) /\ File.project f = projectId /\ File.branch f = branch
  /\ File.path f = File.cast path /\ File.isDeleted f = false.
Proof.
  unfold getTree. destruct (findProject db projectId) as [p |]; [| discriminate].
  destruct (denied p user); [discriminate |].
  intros H. inversion H; subst listing; clear H.
  rewrite sort_by_In, filter_In, !andb_true_iff, negb_true_iff,
    Nat.eqb_eq, !String.eqb_eq.
  tauto.
Qed.

(** ** The order of a listing *)

Section SortedBy.
Context {A : Type}.
Variable le : A -> A -> bool.
Hypothesis le_total : forall a b, le a b = false -> le b a = true.
Hypothesis le_trans : forall a b c, le a b = true -> le b c = true -> le a c = true.

Lemma insert_sorted_sorted (x : A) (l : list A) :
  StronglySorted (fun a b => le a b = true) l ->
  StronglySorted (fun a b => le a b = true) (insert_sorted le x l).
Proof.
  induction 1 as [| y l S IH F]; simpl.
  - constructor; constructor.
  - destruct (le x y) eqn:E.
    + constructor; [now constructor |]. constructor; [assumption |].
      apply Forall_forall. intros z Hz. apply le_trans with y; [assumption |].
      now apply (proj1 (Forall_forall _ _) F).
    + constructor; [assumption |].
      apply Forall_forall. intros z Hz.
      apply (Permutation_in _ (insert_sorted_perm le x l)) in Hz.
      destruct Hz as [<- | Hz].
      * now apply le_total.
      * now apply (proj1 (Forall_forall _ _) F).
Qed.

Lemma sort_by_sorted (l : list A) :
  StronglySorted (fun a b => le a b = true) (sort_by le l).
Proof.
  induction l as [| x l IH]; simpl; [constructor | now apply insert_sorted_sorted].
Qed.

End SortedBy.

Lemma compare_gt_lt (s t : string) : String.compare s t = Gt <-> String.compare t s = Lt.
Proof.
  rewrite (String.compare_antisym s t). destruct (String.compare t s); simpl; split; congruence.
Qed.

Lemma compare_lt_trans (s t u : string) :
  String.compare s t = Lt -> String.compare t u = Lt -> String.compare s u = Lt.
Proof.
  intros H1 H2. apply OrderedTypeEx.String_as_OT.cmp_lt.
  apply OrderedTypeEx.String_as_OT.lt_trans with t;
    now apply OrderedTypeEx.String_as_OT.cmp_lt.
Qed.

Lemma compare_gt_trans (s t u : string) :
  String.compare s t = Gt -> String.compare t u = Gt -> String.compare s u = Gt.
Proof.
  rewrite !compare_gt_lt. intros H1 H2. now apply compare_lt_trans with t.
Qed.

Lemma compare_refl (s : string) : String.compare s s = Eq.
Proof. now apply OrderedTypeEx.String_as_OT.cmp_eq. Qed.

Lemma leb_trans (s t u : string) :
  Js.leb s t = true -> Js.leb t u = true -> Js.leb s u = true.
Proof.
  unfold Js.leb.
  destruct (String.compare s t) eqn:E1; try discriminate;
    destruct (String.compare t u) eqn:E2; try discriminate; intros _ _.
  - apply String.compare_eq_iff in E1, E2. subst. now rewrite compare_refl.
  - apply String.compare_eq_iff in E1. subst. now rewrite E2.
  - apply String.compare_eq_iff in E2. subst. now rewrite E1.
  - now rewrite (compare_lt_trans s t u).
Qed.

Lemma tree_order_total (a b : File.t) :
  File.tree_order a b = false -> File.tree_order b a = true.
Proof.
  unfold File.tree_order, Js.leb.
  rewrite (String.compare_antisym (File.type b) (File.type a)).
  rewrite (String.compare_antisym (File.name b) (File.name a)).
  destruct (String.compare (File.type a) (File.type b)); simpl; try congruence.
  destruct (String.compare (File.name a) (File.name b)); simpl; congruence.
Qed.

Lemma tree_order_trans (a b c : File.t) :
  File.tree_order a b = true -> File.tree_order b c = true -> File.tree_order a c = true.
Proof.
  unfold File.tree_order.
  destruct (String.compare (File.type a) (File.type b)) eqn:E1; try discriminate;
    destruct (String.compare (File.type b) (File.type c)) eqn:E2; try discriminate.
  - apply String.compare_eq_iff in E1, E2. rewrite E1, E2, compare_refl.
    apply leb_trans.
  - apply String.compare_eq_iff in E1. rewrite E1, E2. reflexivity.
  - apply String.compare_eq_iff in E2. rewrite <- E2, E1. reflexivity.
  - now rewrite (compare_gt_trans _ _ _ E1 E2).
Qed.

(** A listing is in the order of the sort: types descending, then names
    ascending. *)
Lemma getTree_sorted (db : Db) (user : option ObjectId) (projectId : ObjectId)
  (branch path : option string) (listing : list File.t) :
  getTree db user projectId branch path = Sent 200 listing ->
  StronglySorted (fun a b => File.tree_order a b = true) listing.
Proof.
  unfold getTree. destruct (findProject db projectId) as [p |]; [| discriminate].
  destruct (denied p user); [discriminate |].
  intros H. inversion H. apply sort_by_sorted.
  - exact tree_order_total.
  - exact tree_order_trans.
Qed.

(** So no listing has a directory before a file. *)
Lemma getTree_no_directory_before_file (db : Db) (user : option ObjectId)
  (projectId : ObjectId) (branch path : option string)
  (before between after : list File.t) (d f : File.t) :
  getTree db user projectId branch path
  = Sent 200 (before ++ d :: between ++ f :: after)%list ->
  File.type d = "directory" -> File.type f = "file" -> False.
Proof.
  intros H Td Tf. apply getTree_sorted in H.
  assert (S : StronglySorted (fun a b => File.tree_order a b = true)
                (d :: between ++ f :: after)).
  { clear - H. induction before as [| x before IH]; simpl in H; [assumption |].
    apply IH. now inversion H. }
  inversion S as [| x l _ F]; subst.
  assert (O : File.tree_order d f = true).
  { apply (proj1 (Forall_forall _ _) F). apply in_app_iff. right. now left. }
  unfold File.tree_order in O. rewrite Td, Tf in O. discriminate O.
Qed.

(** ** The fork scenario *)

Lemma written_files :
  files Scenario.written
  = [Scenario.readme; File.with_derived (Some "md") "Markdown" 16
                        (File.with_content (put_content Scenario.write) Scenario.copy)].
Proof. vm_compute. reflexivity. Qed.

Lemma written_commits : commits Scenario.written = [Scenario.initialCommit].
Proof. vm_compute. reflexivity. Qed.

Lemma written_branches : branches Scenario.written = [Scenario.main; Scenario.feature].
Proof. vm_compute. reflexivity. Qed.

(** C4, as the code has it. Project P has branch main with /README.md =
    "hello\nworld"; feature is forked from main; /README.md =
    "hello\nworld\nmore" is written on feature.  Then the difference of
    feature against main has behind = 1 and the difference of main
    against feature has ahead = 1: the initial commit is recorded on main
    and a fork copies files, not commits.  The content of /README.md on
    main is still "hello\nworld". *)
Theorem C4_fork_scenario :
  findBranch Scenario.written Scenario.P "main" = Some Scenario.main
  /\ findBranch Scenario.written Scenario.P "feature" = Some Scenario.feature
  /\ snd (Branch.difference Scenario.feature "main" (commits Scenario.written)) = 1
  /\ fst (Branch.difference Scenario.main "feature" (commits Scenario.written)) = 1
  /\ Branch.commitsBehind
       (Branch.stats
          (snd (fst (Branch.calculateDifference Scenario.feature "main"
                       (commits Scenario.written) (branches Scenario.written))))) = 1
  /\ Branch.commitsAhead
       (Branch.stats
          (snd (fst (Branch.calculateDifference Scenario.main "feature"
                       (commits Scenario.written) (branches Scenario.written))))) = 1
  /\ getContent Scenario.written (Some Scenario.alice) Scenario.P "/README.md" (Some "main")
     = Sent 200 Scenario.readme
  /\ File.content Scenario.readme = "hello" ++ newline ++ "world".
Proof.
  split; [vm_compute; reflexivity |].
  split; [vm_compute; reflexivity |].
  split; [vm_compute; reflexivity |].
  split; [vm_compute; reflexivity |].
  split; [vm_compute; reflexivity |].
  split; [vm_compute; reflexivity |].
  split; [vm_compute; reflexivity | reflexivity].
Qed.

(** In the scenario the difference of feature against main is behind by
    one commit, not by none. *)
Lemma C4_feature_is_behind_main :
  Branch.difference Scenario.feature "main" (commits Scenario.written) <> (1, 0)
  /\ snd (Branch.difference Scenario.feature "main" (commits Scenario.written)) = 1
  /\ Branch.difference Scenario.main "feature" (commits Scenario.written) <> (0, 1)
  /\ fst (Branch.difference Scenario.main "feature" (commits Scenario.written)) = 1.
Proof.
  assert (F : Branch.difference Scenario.feature "main" (commits Scenario.written) = (0, 1))
    by (vm_compute; reflexivity).
  assert (M : Branch.difference Scenario.main "feature" (commits Scenario.written) = (1, 0))
    by (vm_compute; reflexivity).
  rewrite F, M. split; [discriminate |]. split; [reflexivity |].
  split; [discriminate | reflexivity].
Qed.

(** ** Writes and the ledger *)

(** The commit that [put] builds has no hash when it is saved, and the
    validators run before the hook that would generate one: the save is
    refused, so [put] answers with an error and records no commit. *)
Lemma put_records_no_commit (db : Db) (env : Env) (u : ObjectId) (req : PutRequest) :
  commits (fst (put db env u req)) = commits db
  /\ exists status message, snd (put db env u req) = Failed status message.
Proof.
  unfold put, put_with. split_handler; split; simpl; eauto.
Qed.

Lemma remove_records_no_commit (db : Db) (env : Env) (u : ObjectId) (req : DeleteRequest) :
  commits (fst (remove db env u req)) = commits db
  /\ exists status message, snd (remove db env u req) = Failed status message.
Proof.
  unfold remove, remove_with. split_handler; split; simpl; eauto.
Qed.

(** C5, on the new project P: a.txt is written with "A", then with "B",
    then deleted, on main.  After the first write the content read back
    is "A"; after the three requests the listing of / no longer has
    a.txt and reading it fails with 404.  But each of the three requests
    was answered with status 500 and recorded no commit: the history of
    main holds the initial commit alone, where the claim has three
    commits (added, modified, deleted) for a.txt. *)
Theorem C5_writes_leave_no_commit :
  put Scenario.created Scenario.env2 Scenario.alice RoundTrip.writeA
  = (RoundTrip.afterA, Failed 500 "Error saving file")
  /\ getContent RoundTrip.afterA (Some Scenario.alice) Scenario.P "a.txt" None
     = Sent 200 RoundTrip.fileA
  /\ File.content RoundTrip.fileA = "A"
  /\ snd (put RoundTrip.afterA Scenario.env3 Scenario.alice RoundTrip.writeB)
     = Failed 500 "Error saving file"
  /\ snd (remove RoundTrip.afterB Scenario.env4 Scenario.alice RoundTrip.delete)
     = Failed 500 "Error deleting file"
  /\ getTree RoundTrip.afterDelete (Some Scenario.alice) Scenario.P None None
     = Sent 200 [Scenario.readme]
  /\ getContent RoundTrip.afterDelete (Some Scenario.alice) Scenario.P "a.txt" None
     = Failed 404 "File not found"
  /\ history RoundTrip.afterDelete (Some Scenario.alice) Scenario.P RoundTrip.allOfMain
     = Sent 200 ([Scenario.initialCommit], 1)
  /\ Commit.changes Scenario.initialCommit
     = [{| Commit.file := Some 2; Commit.action := "added";
           Commit.filePath := "/README.md"; Commit.oldPath := None;
           Commit.linesAdded := 2; Commit.linesDeleted := 0 |}].
Proof.
  split; [vm_compute; reflexivity |].
  split; [vm_compute; reflexivity |].
  split; [reflexivity |].
  split; [vm_compute; reflexivity |].
  split; [vm_compute; reflexivity |].
  split; [vm_compute; reflexivity |].
  split; [vm_compute; reflexivity |].
  split; [vm_compute; reflexivity | reflexivity].
Qed.

(** ** One default branch per project *)

Lemma NoDup_id_inj (l : list Branch.t) (a b : Branch.t) :
  NoDup (map Branch._id l) -> In a l -> In b l -> Branch._id a = Branch._id b -> a = b.
Proof.
  induction l as [| x l IH]; simpl; intros ND Ha Hb E; [contradiction |].
  inversion ND as [| y ys Hnot ND']; subst.
  destruct Ha as [-> | Ha], Hb as [-> | Hb]; trivial.
  - elim Hnot. rewrite E. now apply in_map.
  - elim Hnot. rewrite <- E. now apply in_map.
  - now apply IH.
Qed.

Lemma replace_ids (this : Branch.t) (l : list Branch.t) :
  map Branch._id (Branch.replace this l) = map Branch._id l.
Proof.
  unfold Branch.replace. rewrite map_map. apply map_ext_in. intros b _.
  destruct (Nat.eqb_spec (Branch._id b) (Branch._id this)); congruence.
Qed.

Lemma replace_In (this b : Branch.t) (l : list Branch.t) :
  In b (Branch.replace this l) -> b = this \/ In b l.
Proof.
  unfold Branch.replace. rewrite in_map_iff. intros [x [Hx Hin]].
  destruct (Nat.eqb_spec (Branch._id x) (Branch._id this)) as [E | _].
  - left. now symmetry.
  - right. now subst.
Qed.

Lemma replace_defaults (projectId : ObjectId) (this : Branch.t) (l : list Branch.t) :
  (forall b, In b l -> Branch._id b = Branch._id this ->
             isDefaultOf projectId b = isDefaultOf projectId this) ->
  map Branch._id (filter (isDefaultOf projectId) (Branch.replace this l))
  = map Branch._id (filter (isDefaultOf projectId) l).
Proof.
  unfold Branch.replace. induction l as [| x l IH]; intros H; simpl; [reflexivity |].
  assert (IH' := IH (fun b Hb => H b (or_intror Hb))). clear IH.
  destruct (Nat.eqb_spec (Branch._id x) (Branch._id this)) as [E | N].
  - rewrite <- (H x (or_introl eq_refl) E).
    destruct (isDefaultOf projectId x); simpl; congruence.
  - destruct (isDefaultOf projectId x); simpl; congruence.
Qed.

Lemma delete_defaults (projectId : ObjectId) (b0 : Branch.t) (l : list Branch.t) :
  (forall b, In b l -> Branch._id b = Branch._id b0 -> Branch.isDefault b = false) ->
  filter (isDefaultOf projectId)
         (filter (fun b => negb (Branch._id b =? Branch._id b0)%nat) l)
  = filter (isDefaultOf projectId) l.
Proof.
  induction l as [| x l IH]; intros H; simpl; [reflexivity |].
  assert (IH' := IH (fun b Hb => H b (or_intror Hb))). clear IH.
  destruct (Nat.eqb_spec (Branch._id x) (Branch._id b0)) as [E | N]; simpl.
  - unfold isDefaultOf at 2. now rewrite (H x (or_introl eq_refl) E), andb_false_r.
  - destruct (isDefaultOf projectId x); congruence.
Qed.

Lemma one_default_by_ids (l l' : list Branch.t) (f : Branch.t -> bool) :
  map Branch._id (filter f l') = map Branch._id (filter f l) ->
  (exists b, filter f l = [b]) -> exists b, filter f l' = [b].
Proof.
  intros E [b Hb]. rewrite Hb in E.
  destruct (filter f l') as [| b' [| b'' rest]]; try discriminate. now exists b'.
Qed.

Lemma ok_frame (db db' : Db) :
  branchesOk db ->
  projects db' = projects db -> branches db' = branches db ->
  nextId db <= nextId db' ->
  branchesOk db'.
Proof.
  intros (ND & Hb & Hp & Hd) Ep Eb Hn. unfold branchesOk, defaultBranches.
  rewrite Ep, Eb. split; [assumption |]. split; [| split; [| assumption]].
  - intros b Hin. specialize (Hb b Hin). lia.
  - intros p Hin. specialize (Hp p Hin). lia.
Qed.

Lemma ok_replace (db db' : Db) (this b0 : Branch.t) :
  branchesOk db ->
  projects db' = projects db ->
  branches db' = Branch.replace this (branches db) ->
  nextId db <= nextId db' ->
  In b0 (branches db) ->
  Branch._id this = Branch._id b0 ->
  Branch.project this = Branch.project b0 ->
  Branch.isDefault this = Branch.isDefault b0 ->
  branchesOk db'.
Proof.
  intros (ND & Hb & Hp & Hd) Ep Eb Hn H0 Eid Epr Ed. unfold branchesOk, defaultBranches.
  rewrite Ep, Eb. split; [now rewrite replace_ids |]. split; [| split].
  - intros b Hin. apply replace_In in Hin. destruct Hin as [-> | Hin].
    + rewrite Eid, Epr. specialize (Hb b0 H0). lia.
    + specialize (Hb b Hin). lia.
  - intros p Hin. specialize (Hp p Hin). lia.
  - intros p Hin. apply one_default_by_ids with (branches db); [| now apply Hd].
    apply replace_defaults. intros b Hb' E.
    assert (b = b0) by (apply (NoDup_id_inj (branches db)); trivial; congruence).
    subst b. unfold isDefaultOf. now rewrite Epr, Ed.
Qed.

Lemma ok_delete (db db' : Db) (b0 : Branch.t) :
  branchesOk db ->
  projects db' = projects db ->
  branches db'
  = filter (fun b => negb (Branch._id b =? Branch._id b0)%nat) (branches db) ->
  nextId db <= nextId db' ->
  In b0 (branches db) -> Branch.isDefault b0 = false ->
  branchesOk db'.
Proof.
  intros (ND & Hb & Hp & Hd) Ep Eb Hn H0 Ed. unfold branchesOk, defaultBranches.
  rewrite Ep, Eb. split; [now apply NoDup_map_filter |]. split; [| split].
  - intros b Hin. apply filter_In in Hin. specialize (Hb b (proj1 Hin)). lia.
  - intros p Hin. specialize (Hp p Hin). lia.
  - intros p Hin. rewrite delete_defaults; [now apply Hd |].
    intros b Hb' E.
    assert (b = b0) by (apply (NoDup_id_inj (branches db)); trivial).
    now subst b.
Qed.

Lemma ok_append (db db' : Db) (b : Branch.t) :
  branchesOk db ->
  projects db' = projects db ->
  branches db' = (branches db ++ [b])%list ->
  nextId db < nextId db' ->
  Branch._id b = nextId db -> Branch.project b < nextId db ->
  Branch.isDefault b = false ->
  branchesOk db'.
Proof.
  intros (ND & Hb & Hp & Hd) Ep Eb Hn Eid Hpr Ed. unfold branchesOk, defaultBranches.
  rewrite Ep, Eb. split; [| split; [| split]].
  - rewrite map_app. simpl. apply NoDup_app. repeat split; trivial.
    + constructor; [intros [] | constructor].
    + intros x Hx [<- | []]. apply in_map_iff in Hx. destruct Hx as [y [Hy Hin]].
      specialize (Hb y Hin). lia.
  - intros x Hin. apply in_app_iff in Hin. destruct Hin as [Hin | [<- | []]].
    + specialize (Hb x Hin). lia.
    + lia.
  - intros p Hin. specialize (Hp p Hin). lia.
  - intros p Hin. rewrite filter_app. simpl. unfold isDefaultOf at 2.
    rewrite Ed, andb_false_r, app_nil_r. now apply Hd.
Qed.

(** A new project with its main branch. *)
Lemma ok_project (db db' : Db) (p : Project.t) (b : Branch.t) :
  branchesOk db ->
  projects db' = (projects db ++ [p])%list ->
  branches db' = (branches db ++ [b])%list ->
  S (nextId db) < nextId db' ->
  Project._id p = nextId db ->
  Branch._id b = S (nextId db) -> Branch.project b = nextId db ->
  Branch.isDefault b = true ->
  branchesOk db'.
Proof.
  intros (ND & Hb & Hp & Hd) Ep Eb Hn Epid Eid Epr Ed. unfold branchesOk, defaultBranches.
  rewrite Ep, Eb. split; [| split; [| split]].
  - rewrite map_app. simpl. apply NoDup_app. repeat split; trivial.
    + constructor; [intros [] | constructor].
    + intros x Hx [<- | []]. apply in_map_iff in Hx. destruct Hx as [y [Hy Hin]].
      specialize (Hb y Hin). lia.
  - intros x Hin. apply in_app_iff in Hin. destruct Hin as [Hin | [<- | []]].
    + specialize (Hb x Hin). lia.
    + lia.
  - intros q Hin. apply in_app_iff in Hin. destruct Hin as [Hin | [<- | []]].
    + specialize (Hp q Hin). lia.
    + lia.
  - intros q Hin. rewrite filter_app. simpl. unfold isDefaultOf at 2. rewrite Epr, Ed.
    apply in_app_iff in Hin. destruct Hin as [Hin | [<- | []]].
    + specialize (Hp q Hin).
      destruct (Nat.eqb_spec (nextId db) (Project._id q)) as [E | _]; [lia |].
      simpl. rewrite app_nil_r. now apply Hd.
    + rewrite Epid, Nat.eqb_refl. simpl. exists b.
      assert (N : filter (isDefaultOf (nextId db)) (branches db) = []).
      { clear - Hb. induction (branches db) as [| x l IH]; simpl; [reflexivity |].
        unfold isDefaultOf at 1.
        destruct (Nat.eqb_spec (Branch.project x) (nextId db)) as [E | _].
        - specialize (Hb x (or_introl eq_refl)). lia.
        - simpl. apply IH. intros y Hy. apply Hb. now right. }
      now rewrite N.
Qed.

Lemma pre_save_unmodified (this : Branch.t) (l : list Branch.t) :
  Branch.pre_save false this l = l.
Proof. unfold Branch.pre_save. now rewrite andb_false_r. Qed.

Lemma save_unmodified (this : Branch.t) (l l' : list Branch.t) (e : option SaveError) :
  Branch.save false this l = (l', e) ->
  (e = None /\ l' = Branch.replace this l) \/ l' = l.
Proof.
  unfold Branch.save. rewrite pre_save_unmodified.
  destruct (Branch.validate this); intros H; inversion H; auto.
Qed.

Lemma save_new_unmodified (this : Branch.t) (l l' : list Branch.t) (e : option SaveError) :
  Branch.save_new false this l = (l', e) ->
  (e = None /\ l' = (l ++ [this])%list) \/ (e <> None /\ l' = l).
Proof.
  unfold Branch.save_new. rewrite pre_save_unmodified.
  destruct (Branch.validate this); [intros H; inversion H; right; split; congruence |].
  destruct (existsb _ l); intros H; inversion H; [right | left]; split; congruence.
Qed.

Lemma updatedStats_same (this : Branch.t) (commits : list Commit.t) :
  Branch._id (Branch.updatedStats this commits) = Branch._id this
  /\ Branch.project (Branch.updatedStats this commits) = Branch.project this
  /\ Branch.isDefault (Branch.updatedStats this commits) = Branch.isDefault this.
Proof.
  unfold Branch.updatedStats. destruct (Commit.of_branch _ _ _); simpl; auto.
Qed.

Lemma updateStats_result (this this' : Branch.t) (commits : list Commit.t)
  (l l' : list Branch.t) (e : option SaveError) :
  Branch.updateStats this commits l = (l', this', e) ->
  this' = Branch.updatedStats this commits
  /\ ((e = None /\ l' = Branch.replace this' l) \/ l' = l).
Proof.
  unfold Branch.updateStats.
  destruct (Branch.save false _ l) as [l1 e1] eqn:S. intros H. inversion H; subst.
  split; [reflexivity |]. now apply save_unmodified in S.
Qed.

Lemma createMain_fresh (id projectId creatorId : ObjectId) (time : N) (l : list Branch.t) :
  (forall b, In b l -> Branch.project b <> projectId) ->
  Branch.createMain id projectId creatorId time l
  = ((l ++ [Branch.main id projectId creatorId time])%list,
     Branch.main id projectId creatorId time, None).
Proof.
  intros Fresh. unfold Branch.createMain, Branch.save_new.
  assert (V : Branch.validate (Branch.main id projectId creatorId time) = None)
    by reflexivity.
  rewrite V.
  assert (H : Branch.pre_save true (Branch.main id projectId creatorId time) l = l).
  { unfold Branch.pre_save. simpl. rewrite <- (map_id l) at 2. apply map_ext_in.
    intros b Hb. destruct (Nat.eqb_spec (Branch.project b) projectId) as [E | _].
    - now elim (Fresh b Hb).
    - reflexivity. }
  rewrite H.
  assert (X : existsb (Branch.same_key (Branch.main id projectId creatorId time)) l = false).
  { clear H. induction l as [| b l IH]; simpl; [reflexivity |].
    rewrite IH by (intros y Hy; apply Fresh; now right).
    unfold Branch.same_key at 1. simpl.
    destruct (Nat.eqb_spec projectId (Branch.project b)) as [E | _].
    - elim (Fresh b (or_introl eq_refl)). now symmetry.
    - reflexivity. }
  now rewrite X.
Qed.

Lemma copyFiles_next (projectId : ObjectId) (name : string) (sourceFiles files files' : list File.t)
  (next next' : ObjectId) (e : option SaveError) :
  copyFiles projectId name sourceFiles files next = (files', next', e) -> next <= next'.
Proof.
  revert files next. induction sourceFiles as [| f rest IH]; intros files next; simpl.
  - intros H. inversion H. lia.
  - destruct (File.save_new (copyOf next projectId name f) files) as [[fs f'] [err |]]; intros H.
    + inversion H. lia.
    + apply IH in H. lia.
Qed.

Section Handlers.

#[local] Arguments Branch.save : simpl never.
#[local] Arguments Branch.save_new : simpl never.
#[local] Arguments Branch.updateStats : simpl never.
#[local] Arguments Branch.createMain : simpl never.
#[local] Arguments File.save : simpl never.
#[local] Arguments File.save_new : simpl never.
#[local] Arguments Commit.save : simpl never.
#[local] Arguments copyFiles : simpl never.

Lemma put_ok (db : Db) (env : Env) (u : ObjectId) (req : PutRequest) :
  branchesOk db -> branchesOk (fst (put db env u req)).
Proof.
  intros Ok. unfold put, put_with. split_handler; trivial;
    (apply ok_frame with db; simpl; trivial; lia).
Qed.

Lemma remove_ok (db : Db) (env : Env) (u : ObjectId) (req : DeleteRequest) :
  branchesOk db -> branchesOk (fst (remove db env u req)).
Proof.
  intros Ok. unfold remove, remove_with. split_handler; trivial;
    (apply ok_frame with db; simpl; trivial; lia).
Qed.

Lemma findBranch_In (db : Db) (projectId : ObjectId) (name : string) (b : Branch.t) :
  findBranch db projectId name = Some b ->
  In b (branches db) /\ Branch.project b = projectId /\ Branch.name b = name.
Proof.
  unfold findBranch. intros F. apply find_some in F. destruct F as [Hin H].
  apply andb_true_iff in H. destruct H as [H1 H2].
  apply Nat.eqb_eq in H1. apply String.eqb_eq in H2. auto.
Qed.

Lemma findProject_In (db : Db) (projectId : ObjectId) (p : Project.t) :
  findProject db projectId = Some p -> In p (projects db) /\ Project._id p = projectId.
Proof.
  unfold findProject. intros F. apply find_some in F. destruct F as [Hin H].
  apply Nat.eqb_eq in H. auto.
Qed.

Lemma updateBranch_ok (db : Db) (u : ObjectId) (req : BranchUpdate) :
  branchesOk db -> branchesOk (fst (updateBranch db u req)).
Proof.
  intros Ok. unfold updateBranch. split_handler; trivial.
  all: match goal with
       | H : findBranch _ _ _ = Some ?b |- _ => apply findBranch_In in H; destruct H as [Hin _]
       end.
  all: match goal with
       | H : Branch.save false ?this _ = _ |- _ =>
           apply save_unmodified in H; destruct H as [[_ ->] | ->]
       end.
  all: try (apply ok_frame with db; simpl; trivial; lia).
  all: eapply ok_replace with (db := db); simpl; eauto.
  all: destruct (up_description req), (up_protected req); reflexivity.
Qed.

Lemma deleteBranch_ok (db : Db) (u projectId : ObjectId) (name : string) :
  branchesOk db -> branchesOk (fst (deleteBranch db u projectId name)).
Proof.
  intros Ok. unfold deleteBranch. split_handler; trivial.
  match goal with
  | H : findBranch _ _ _ = Some ?b |- _ => apply findBranch_In in H; destruct H as [Hin _]
  end.
  eapply ok_delete with (db := db); simpl; eauto.
Qed.

Ltac branch_facts :=
  repeat match goal with
    | H : Branch.save_new false _ _ = _ |- _ =>
        apply save_new_unmodified in H; destruct H as [[? ->] | [? ->]]
    | H : Branch.updateStats _ _ _ = _ |- _ =>
        apply updateStats_result in H; destruct H as [-> [[? ->] | ->]]
    | H : copyFiles _ _ _ _ _ = _ |- _ => apply copyFiles_next in H
    | H : findProject _ _ = Some _ |- _ => apply findProject_In in H; destruct H as [? ?]
    end.

Lemma createBranch_ok (db : Db) (env : Env) (u : ObjectId) (req : BranchRequest) :
  branchesOk db -> branchesOk (fst (createBranch db env u req)).
Proof.
  intros Ok. unfold createBranch. split_handler; trivial.
  all: branch_facts.
  all: try match goal with H : ?x <> ?x |- _ => now elim H end.
  all: try discriminate.
  all: try (apply ok_frame with db; simpl in *; trivial; lia).
  all: assert (B : br_projectId req < nextId db)
    by (match goal with E : Project._id _ = _ |- _ => rewrite <- E end;
        now apply (proj1 (proj2 (proj2 Ok)))).
  all: simpl fst.
  all: try (eapply ok_append with (db := db); simpl in *; eauto; lia).
  all: match goal with
       | |- branchesOk (with_branches (Branch.replace (Branch.updatedStats ?b ?cs) _) ?mid) =>
           eapply ok_replace with (db := mid) (b0 := b) (this := Branch.updatedStats b cs);
           try apply updatedStats_same; simpl; trivial
       end.
  all: try (apply in_app_iff; right; now left).
  all: eapply ok_append with (db := db); simpl in *; eauto; lia.
Qed.

Lemma createProject_ok (db : Db) (env : Env) (u : ObjectId) (req : ProjectRequest) :
  branchesOk db -> branchesOk (fst (createProject db env u req)).
Proof.
  intros Ok. unfold createProject. cbv zeta. simpl.
  rewrite createMain_fresh.
  2: { intros b Hb E. apply (proj1 (proj2 Ok)) in Hb. lia. }
  split_handler; trivial.
  all: branch_facts.
  all: try (apply ok_frame with db; simpl in *; trivial; lia).
  all: simpl fst.
  all: try (eapply ok_project with (db := db); simpl in *; eauto; lia).
  all: match goal with
       | |- branchesOk (with_branches (Branch.replace (Branch.updatedStats ?b ?cs) _) ?mid) =>
           eapply ok_replace with (db := mid) (b0 := b) (this := Branch.updatedStats b cs);
           try apply updatedStats_same; simpl; trivial
       end.
  all: try (apply in_app_iff; right; now left).
  all: eapply ok_project with (db := db); simpl in *; eauto; lia.
Qed.

Lemma project_replace_In (this p : Project.t) (l : list Project.t) :
  In p (Project.replace this l) ->
  exists q, In q l /\ Project._id p = Project._id q.
Proof.
  unfold Project.replace. rewrite in_map_iff. intros [x [Hx Hin]].
  exists x. split; [assumption |].
  destruct (Nat.eqb_spec (Project._id x) (Project._id this)) as [E | _]; subst; congruence.
Qed.

(** A change of the project documents that brings no new project id. *)
Lemma ok_projects (db db' : Db) :
  branchesOk db ->
  (forall p, In p (projects db') ->
     exists q, In q (projects db) /\ Project._id p = Project._id q) ->
  branches db' = branches db -> nextId db <= nextId db' ->
  branchesOk db'.
Proof.
  intros (ND & Hb & Hp & Hd) Hsub Eb Hn. unfold branchesOk, defaultBranches.
  rewrite Eb. split; [assumption |]. split; [| split].
  - intros b Hin. specialize (Hb b Hin). lia.
  - intros p Hin. destruct (Hsub p Hin) as [q [Hq ->]]. specialize (Hp q Hq). lia.
  - intros p Hin. destruct (Hsub p Hin) as [q [Hq ->]]. now apply Hd.
Qed.

Ltac projects_only Ok :=
  eapply ok_projects; [exact Ok | | reflexivity | simpl; lia];
  simpl; intros p Hin;
  first [ apply project_replace_In in Hin; exact Hin
        | apply filter_In in Hin; exists p; tauto ].

Lemma updateProject_ok (db : Db) (u projectId : ObjectId) (req : ProjectUpdate) :
  branchesOk db -> branchesOk (fst (updateProject db u projectId req)).
Proof.
  intros Ok. unfold updateProject. split_handler; trivial; projects_only Ok.
Qed.

Lemma deleteProject_ok (db : Db) (u projectId : ObjectId) :
  branchesOk db -> branchesOk (fst (deleteProject db u projectId)).
Proof.
  intros Ok. unfold deleteProject. split_handler; trivial; projects_only Ok.
Qed.

Lemma addCollaborator_ok (db : Db) (u projectId : ObjectId) (found : option ObjectId)
  (role : option string) :
  branchesOk db -> branchesOk (fst (addCollaborator db u projectId found role)).
Proof.
  intros Ok. unfold addCollaborator. split_handler; trivial; projects_only Ok.
Qed.

Lemma removeCollaborator_ok (db : Db) (u projectId : ObjectId) (collaboratorId : string) :
  branchesOk db -> branchesOk (fst (removeCollaborator db u projectId collaboratorId)).
Proof.
  intros Ok. unfold removeCollaborator. split_handler; trivial; projects_only Ok.
Qed.

Lemma serve_ok (db : Db) (env : Env) (r : Request) :
  branchesOk db -> branchesOk (serve db env r).
Proof.
  intros Ok. destruct r; simpl.
  - now apply createProject_ok.
  - now apply updateProject_ok.
  - now apply deleteProject_ok.
  - now apply addCollaborator_ok.
  - now apply removeCollaborator_ok.
  - now apply put_ok.
  - now apply remove_ok.
  - now apply createBranch_ok.
  - now apply updateBranch_ok.
  - now apply deleteBranch_ok.
Qed.

End Handlers.

Lemma reachable_ok (db : Db) : reachable db -> branchesOk db.
Proof.
  revert db. apply (reachable_ind branchesOk).
  - unfold branchesOk. simpl. split; [constructor |].
    split; [intros b [] |]. split; intros p [].
  - intros db env r _ Ok. now apply serve_ok.
Qed.

Lemma save_clears_siblings (this b : Branch.t) (l : list Branch.t) :
  Branch.isDefault this = true ->
  In b (Branch.pre_save true this l) ->
  Branch.project b = Branch.project this -> Branch._id b <> Branch._id this ->
  Branch.isDefault b = false.
Proof.
  intros D Hin Ep Nid. unfold Branch.pre_save in Hin. rewrite D in Hin. simpl in Hin.
  apply in_map_iff in Hin. destruct Hin as [x [Hx _]].
  destruct (Nat.eqb_spec (Branch.project x) (Branch.project this)) as [E | N];
    destruct (Nat.eqb_spec (Branch._id x) (Branch._id this)) as [E' | N'];
    simpl in Hx; subst b; simpl in *; congruence.
Qed.

(** C2. In every store that the server reaches by requests (project
    creation, which calls [createMain], branch creation, branch update,
    branch deletion, file writes), each project has exactly one branch
    with [isDefault] set.  And a save of a branch whose [isDefault] is
    set and modified leaves [isDefault] cleared on every other branch of
    its project. *)
Theorem C2_one_default_branch_per_project
  (db : Db) (this : Branch.t) (others : list Branch.t) :
  reachable db ->
  Branch.validate this = None -> Branch.isDefault this = true ->
  (forall p, In p (projects db) ->
     exists b, defaultBranches db (Project._id p) = [b])
  /\ (forall b, In b (fst (Branch.save true this others)) ->
        Branch.project b = Branch.project this -> Branch._id b <> Branch._id this ->
        Branch.isDefault b = false)
  /\ (forall b, In b (fst (Branch.save_new true this others)) ->
        Branch.project b = Branch.project this -> Branch._id b <> Branch._id this ->
        Branch.isDefault b = false).
Proof.
  intros R V D. split; [apply (reachable_ok db R) |]. split.
  - intros b. unfold Branch.save. rewrite V. simpl. intros Hin Ep Nid.
    apply replace_In in Hin. destruct Hin as [-> | Hin]; [now elim Nid |].
    now apply (save_clears_siblings this b others).
  - intros b. unfold Branch.save_new. rewrite V.
    destruct (existsb _ _); simpl; intros Hin Ep Nid.
    + now apply (save_clears_siblings this b others).
    + apply in_app_iff in Hin. destruct Hin as [Hin | [<- | []]]; [| now elim Nid].
      now apply (save_clears_siblings this b others).
Qed.

Lemma forked_reachable : reachable Scenario.forked.
Proof.
  exists [(Scenario.env1, CreateProject Scenario.alice Scenario.request);
          (Scenario.env2, CreateBranch Scenario.alice Scenario.fork)].
  vm_compute. reflexivity.
Defined.

Lemma C2_one_default_branch_per_project_witness :
  (forall p, In p (projects Scenario.forked) ->
     exists b, defaultBranches Scenario.forked (Project._id p) = [b])
  /\ (forall b, In b (fst (Branch.save true Scenario.main [Scenario.main; Scenario.feature])) ->
        Branch.project b = Branch.project Scenario.main ->
        Branch._id b <> Branch._id Scenario.main ->
        Branch.isDefault b = false)
  /\ (forall b, In b (fst (Branch.save_new true Scenario.main [Scenario.feature])) ->
        Branch.project b = Branch.project Scenario.main ->
        Branch._id b <> Branch._id Scenario.main ->
        Branch.isDefault b = false).
Proof.
  destruct (C2_one_default_branch_per_project Scenario.forked Scenario.main
              [Scenario.main; Scenario.feature]) as [H1 [H2 _]].
  - exact forked_reachable.
  - reflexivity.
  - reflexivity.
  - split; [exact H1 |]. split; [exact H2 |].
    apply (C2_one_default_branch_per_project Scenario.forked Scenario.main
             [Scenario.feature] forked_reachable); reflexivity.
Defined.

(** ** The setter of paths and names *)

Lemma append_assoc (s t u : string) : (s ++ t) ++ u = s ++ (t ++ u).
Proof. induction s as [| c s IH]; simpl; [reflexivity | now rewrite IH]. Qed.

Lemma reverse_onto_app (s acc : string) :
  Js.reverse_onto s acc = Js.reverse_onto s "" ++ acc.
Proof.
  revert acc. induction s as [| c s IH]; intros acc; simpl; [reflexivity |].
  rewrite (IH (String c acc)), (IH (String c "")), append_assoc. reflexivity.
Qed.

Lemma reverse_cons (c : ascii) (s : string) :
  Js.reverse (String c s) = Js.reverse s ++ String c "".
Proof. unfold Js.reverse. simpl. apply reverse_onto_app. Qed.

Lemma append_empty (s : string) : s ++ "" = s.
Proof. induction s as [| c s IH]; simpl; [reflexivity | now rewrite IH]. Qed.

Lemma reverse_app (s t : string) :
  Js.reverse (s ++ t) = Js.reverse t ++ Js.reverse s.
Proof.
  induction s as [| c s IH]; simpl.
  - now rewrite append_empty.
  - now rewrite !reverse_cons, IH, append_assoc.
Qed.

Lemma reverse_involutive (s : string) : Js.reverse (Js.reverse s) = s.
Proof.
  induction s as [| c s IH]; [reflexivity |].
  now rewrite reverse_cons, reverse_app, IH.
Qed.

Lemma trimStart_clean (s : string) : clean_start (Js.trimStart s).
Proof.
  unfold clean_start. induction s as [| c s IH]; simpl; [reflexivity |].
  destruct (Js.is_space c) eqn:E; [exact IH |]. simpl. now rewrite E.
Qed.

Lemma clean_start_app (s t : string) :
  s <> "" -> clean_start (s ++ t) -> clean_start s.
Proof.
  unfold clean_start. destruct s as [| c s]; [congruence |]. intros _. simpl.
  destruct (Js.is_space c); [| reflexivity].
  intros H. exfalso.
  assert (L : String.length (Js.trimStart (s ++ t)) <= String.length (s ++ t)).
  { clear. induction (s ++ t) as [| a r IH]; simpl; [lia |].
    destruct (Js.is_space a); simpl; lia. }
  rewrite H in L. simpl in L. lia.
Qed.

(** A suffix cut by [trimStart] ends as the string did. *)
Lemma trimStart_keeps_end (s : string) :
  clean_start (Js.reverse s) -> clean_start (Js.reverse (Js.trimStart s)).
Proof.
  induction s as [| c s IH]; simpl; [trivial |].
  destruct (Js.is_space c) eqn:E; [| trivial].
  intros H. rewrite reverse_cons in H.
  destruct s as [| d s]; [reflexivity |].
  apply IH. apply clean_start_app with (String c ""); [| exact H].
  rewrite reverse_cons. destruct (Js.reverse s); discriminate.
Qed.

Lemma trim_idempotent (s : string) : Js.trim (Js.trim s) = Js.trim s.
Proof.
  unfold Js.trim at 1.
  assert (E : clean_start (Js.reverse (Js.trim s))).
  { unfold Js.trim. apply trimStart_keeps_end. rewrite reverse_involutive.
    apply trimStart_clean. }
  rewrite E, reverse_involutive. unfold Js.trim. apply trimStart_clean.
Qed.

Lemma cast_idempotent (s : string) : File.cast (File.cast s) = File.cast s.
Proof. apply trim_idempotent. Qed.

(** ** Saving files *)

Lemma file_pre_save_same (m1 m2 : bool) (f : File.t) :
  File._id (File.pre_save m1 m2 f) = File._id f
  /\ File.project (File.pre_save m1 m2 f) = File.project f
  /\ File.branch (File.pre_save m1 m2 f) = File.branch f
  /\ File.path (File.pre_save m1 m2 f) = File.path f
  /\ File.name (File.pre_save m1 m2 f) = File.name f
  /\ File.content (File.pre_save m1 m2 f) = File.content f
  /\ File.lastCommit (File.pre_save m1 m2 f) = File.lastCommit f
  /\ File.isDeleted (File.pre_save m1 m2 f) = File.isDeleted f.
Proof. unfold File.pre_save. destruct m1, m2; simpl; auto 10. Qed.

Lemma file_save_result (loaded m : bool) (this this' : File.t) (l l' : list File.t)
  (e : option SaveError) :
  File.save loaded m this l = (l', this', e) ->
  (e = None /\ this' = File.pre_save false m this /\ l' = File.replace this' l)
  \/ (e <> None /\ l' = l).
Proof.
  unfold File.save. destruct (File.validate_modified loaded m this);
    intros H; inversion H; auto.
  right. split; [discriminate | reflexivity].
Qed.

Lemma file_save_new_result (this this' : File.t) (l l' : list File.t)
  (e : option SaveError) :
  File.save_new this l = (l', this', e) ->
  (e = None /\ this' = File.pre_save true true this /\ l' = (l ++ [this'])%list)
  \/ (e <> None /\ l' = l).
Proof.
  unfold File.save_new. destruct (File.validate this); intros H; inversion H; auto.
  right. split; [discriminate | reflexivity].
Qed.

Lemma file_replace_ids (this : File.t) (l : list File.t) :
  map File._id (File.replace this l) = map File._id l.
Proof.
  unfold File.replace. rewrite map_map. apply map_ext_in. intros f _.
  destruct (Nat.eqb_spec (File._id f) (File._id this)); congruence.
Qed.

Lemma file_replace_In (this f : File.t) (l : list File.t) :
  In f (File.replace this l) -> f = this \/ In f l.
Proof.
  unfold File.replace. rewrite in_map_iff. intros [x [Hx Hin]].
  destruct (Nat.eqb_spec (File._id x) (File._id this)) as [E | _].
  - left. now symmetry.
  - right. now subst.
Qed.

Lemma file_replace_self (this f0 : File.t) (l : list File.t) :
  In f0 l -> File._id f0 = File._id this -> In this (File.replace this l).
Proof.
  intros Hin E. unfold File.replace. apply in_map_iff. exists f0.
  split; [| assumption]. now rewrite E, Nat.eqb_refl.
Qed.

Lemma fok_frame (db db' : Db) :
  filesOk db -> files db' = files db -> nextId db <= nextId db' -> filesOk db'.
Proof.
  intros (ND & Hf & Hc) Ef Hn. unfold filesOk, casted. rewrite Ef.
  split; [assumption |]. split; [| exact Hc].
  intros f Hin. specialize (Hf f Hin). lia.
Qed.

Lemma fok_replace (db db' : Db) (this f0 : File.t) :
  filesOk db -> files db' = File.replace this (files db) -> nextId db <= nextId db' ->
  In f0 (files db) ->
  File._id this = File._id f0 -> File.path this = File.path f0 ->
  File.name this = File.name f0 ->
  filesOk db'.
Proof.
  intros (ND & Hf & Hc) Ef Hn H0 Eid Ep En. unfold filesOk, casted. rewrite Ef.
  split; [now rewrite file_replace_ids |]. split.
  - intros f Hin. apply file_replace_In in Hin. destruct Hin as [-> | Hin].
    + rewrite Eid. specialize (Hf f0 H0). lia.
    + specialize (Hf f Hin). lia.
  - intros f Hin. apply file_replace_In in Hin. destruct Hin as [-> | Hin].
    + rewrite Ep, En. now apply Hc.
    + now apply Hc.
Qed.

Lemma fok_extend (db db' : Db) (copies : list File.t) :
  filesOk db -> files db' = (files db ++ copies)%list ->
  (forall c, In c copies ->
     nextId db <= File._id c < nextId db'
     /\ File.cast (File.path c) = File.path c /\ File.cast (File.name c) = File.name c) ->
  NoDup (map File._id copies) ->
  nextId db <= nextId db' ->
  filesOk db'.
Proof.
  intros (ND & Hf & Hc) Ef Hcs NDc Hn. unfold filesOk, casted. rewrite Ef.
  split; [| split].
  - rewrite map_app. apply NoDup_app; trivial.
    intros x Hx Hx'. apply in_map_iff in Hx, Hx'.
    destruct Hx as [a [Ea Ha]], Hx' as [c [Ec Hc']].
    specialize (Hf a Ha). specialize (Hcs c Hc'). lia.
  - intros f Hin. apply in_app_iff in Hin. destruct Hin as [Hin | Hin].
    + specialize (Hf f Hin). lia.
    + specialize (Hcs f Hin). lia.
  - intros f Hin. apply in_app_iff in Hin. destruct Hin as [Hin | Hin].
    + now apply Hc.
    + now apply Hcs.
Qed.

Lemma fok_append (db db' : Db) (f : File.t) :
  filesOk db -> files db' = (files db ++ [f])%list ->
  nextId db <= File._id f < nextId db' ->
  File.cast (File.path f) = File.path f -> File.cast (File.name f) = File.name f ->
  filesOk db'.
Proof.
  intros Ok Ef Hn Ep En. apply fok_extend with db [f]; trivial; try lia.
  - intros c [<- | []]. repeat split; trivial; lia.
  - constructor; [intros [] | constructor].
Qed.

(** What the copy loop adds to the collection. *)
Lemma copyFiles_result (projectId : ObjectId) (name : string) (sourceFiles : list File.t) :
  forall (files files' : list File.t) (next next' : ObjectId) (e : option SaveError),
    copyFiles projectId name sourceFiles files next = (files', next', e) ->
    next <= next'
    /\ exists copies,
        files' = (files ++ copies)%list
        /\ NoDup (map File._id copies)
        /\ (forall c, In c copies ->
              next <= File._id c < next'
              /\ File.project c = projectId /\ File.branch c = name
              /\ exists s, In s sourceFiles
                   /\ File.path c = File.cast (File.path s)
                   /\ File.name c = File.cast (File.name s))
        /\ (e = None ->
            forall s, In s sourceFiles ->
              exists c, In c copies
                /\ File.project c = projectId /\ File.branch c = name
                /\ File.path c = File.cast (File.path s)
                /\ File.name c = File.cast (File.name s)
                /\ File.content c = File.content s
                /\ File.lastCommit c = None /\ File.isDeleted c = false).
Proof.
  induction sourceFiles as [| s rest IH]; intros files files' next next' e; simpl.
  - intros H. inversion H; subst. split; [lia |]. exists [].
    rewrite app_nil_r. repeat split; try constructor; intros; contradiction.
  - destruct (File.save_new (copyOf next projectId name s) files) as [[fs c0] e0] eqn:S.
    apply file_save_new_result in S.
    destruct (file_pre_save_same true true (copyOf next projectId name s))
      as (Pid & Ppr & Pbr & Ppa & Pna & Pco & Plc & Pde).
    destruct e0 as [err |].
    + intros H. inversion H; subst. destruct S as [[X _] | [_ ->]]; [discriminate |].
      split; [lia |]. exists []. rewrite app_nil_r.
      repeat split; try constructor; try discriminate; intros; contradiction.
    + destruct S as [(_ & -> & ->) | [X _]]; [| now elim X].
      intros H. apply IH in H.
      destruct H as (Hn & copies & -> & ND & Hall & Hok).
      split; [lia |].
        exists (File.pre_save true true (copyOf next projectId name s) :: copies).
        split; [now rewrite <- app_assoc |]. split; [| split].
        -- rewrite map_cons. constructor; [| exact ND]. rewrite Pid. simpl.
           intros Hin. apply in_map_iff in Hin. destruct Hin as [c [Ec Hc]].
           specialize (Hall c Hc). lia.
        -- intros c [<- | Hc].
           ++ rewrite Pid, Ppr, Pbr, Ppa, Pna. simpl. repeat split; try lia.
              exists s. auto.
           ++ destruct (Hall c Hc) as (B & P1 & P2 & s' & Hs' & P3).
              repeat split; try lia; trivial. exists s'. auto.
        -- intros E s' [<- | Hs'].
           ++ exists (File.pre_save true true (copyOf next projectId name s)).
              rewrite Ppr, Pbr, Ppa, Pna, Pco, Plc, Pde. simpl. auto 10.
           ++ destruct (Hok E s' Hs') as (c & Hc & P). exists c. split; [now right | exact P].
Qed.

Lemma file_pre_save_id (m1 m2 : bool) (f : File.t) :
  File._id (File.pre_save m1 m2 f) = File._id f.
Proof. apply file_pre_save_same. Qed.

Lemma file_pre_save_project (m1 m2 : bool) (f : File.t) :
  File.project (File.pre_save m1 m2 f) = File.project f.
Proof. apply file_pre_save_same. Qed.

Lemma file_pre_save_branch (m1 m2 : bool) (f : File.t) :
  File.branch (File.pre_save m1 m2 f) = File.branch f.
Proof. apply file_pre_save_same. Qed.

Lemma file_pre_save_path (m1 m2 : bool) (f : File.t) :
  File.path (File.pre_save m1 m2 f) = File.path f.
Proof. apply file_pre_save_same. Qed.

Lemma file_pre_save_name (m1 m2 : bool) (f : File.t) :
  File.name (File.pre_save m1 m2 f) = File.name f.
Proof. apply file_pre_save_same. Qed.

Lemma file_pre_save_isDeleted (m1 m2 : bool) (f : File.t) :
  File.isDeleted (File.pre_save m1 m2 f) = File.isDeleted f.
Proof. apply file_pre_save_same. Qed.

Create Rewrite HintDb file_fields.

#[local] Hint Rewrite file_pre_save_id file_pre_save_project file_pre_save_branch
  file_pre_save_path file_pre_save_name file_pre_save_isDeleted : file_fields.

Section FileHandlers.

#[local] Arguments Branch.save : simpl never.
#[local] Arguments Branch.save_new : simpl never.
#[local] Arguments Branch.updateStats : simpl never.
#[local] Arguments Branch.createMain : simpl never.
#[local] Arguments File.save : simpl never.
#[local] Arguments File.save_new : simpl never.
#[local] Arguments File.pre_save : simpl never.
#[local] Arguments File.cast : simpl never.
#[local] Arguments copyFiles : simpl never.

Ltac file_facts :=
  repeat match goal with
    | H : File.save _ _ _ _ = _ |- _ =>
        apply file_save_result in H; destruct H as [(? & -> & ->) | [? ->]]
    | H : File.save_new _ _ = _ |- _ =>
        apply file_save_new_result in H; destruct H as [(? & -> & ->) | [? ->]]
    | H : find (File.live_at _ _ _ _) _ = Some _ |- _ =>
        apply find_some in H; destruct H as [? _]
    | H : copyFiles _ _ _ _ _ = _ |- _ =>
        apply copyFiles_result in H;
        destruct H as (Hnext & copies & -> & NDcopies & Hcopies & _)
    end;
  try match goal with H : ?x <> ?x |- _ => now elim H end.

Ltac same_fields := autorewrite with file_fields; simpl; trivial.

Lemma put_fok (db : Db) (env : Env) (u : ObjectId) (req : PutRequest) :
  filesOk db -> filesOk (fst (put db env u req)).
Proof.
  intros Ok. unfold put, put_with. split_handler; trivial.
  all: file_facts; try discriminate.
  all: try (apply fok_frame with db; simpl in *; trivial; lia).
  all: simpl fst.
  - eapply fok_replace with (db := db); simpl; eauto; same_fields.
  - eapply fok_append with (db := db); simpl; eauto; same_fields;
      try apply cast_idempotent; lia.
Qed.

Lemma remove_fok (db : Db) (env : Env) (u : ObjectId) (req : DeleteRequest) :
  filesOk db -> filesOk (fst (remove db env u req)).
Proof.
  intros Ok. unfold remove, remove_with. split_handler; trivial.
  all: file_facts; try discriminate.
  all: try (apply fok_frame with db; simpl in *; trivial; lia).
  all: simpl fst.
  all: eapply fok_replace with (db := db); simpl; eauto; same_fields.
Qed.

Lemma updateBranch_fok (db : Db) (u : ObjectId) (req : BranchUpdate) :
  filesOk db -> filesOk (fst (updateBranch db u req)).
Proof.
  intros Ok. unfold updateBranch. split_handler; trivial;
    (apply fok_frame with db; simpl; trivial; lia).
Qed.

Lemma deleteBranch_fok (db : Db) (u projectId : ObjectId) (name : string) :
  filesOk db -> filesOk (fst (deleteBranch db u projectId name)).
Proof.
  intros Ok. unfold deleteBranch. split_handler; trivial;
    (apply fok_frame with db; simpl; trivial; lia).
Qed.

Lemma createBranch_fok (db : Db) (env : Env) (u : ObjectId) (req : BranchRequest) :
  filesOk db -> filesOk (fst (createBranch db env u req)).
Proof.
  intros Ok. unfold createBranch. split_handler; trivial.
  all: file_facts.
  all: try (apply fok_frame with db; simpl in *; trivial; lia).
  all: simpl fst.
  all: eapply fok_extend with (db := db) (copies := copies); simpl in *; eauto; try lia.
  all: intros c Hin; destruct (Hcopies c Hin) as (B & _ & _ & src & Hs & Ep & En).
  all: rewrite Ep, En, !cast_idempotent; repeat split; trivial; lia.
Qed.

#[local] Arguments Commit.save : simpl never.

Lemma createProject_fok (db : Db) (env : Env) (u : ObjectId) (req : ProjectRequest) :
  filesOk db -> filesOk (fst (createProject db env u req)).
Proof.
  intros Ok. unfold createProject. split_handler; trivial.
  all: file_facts; try discriminate.
  all: try (apply fok_frame with db; simpl in *; trivial; lia).
  all: simpl fst.
  all: try (eapply fok_append with (db := db); simpl in *; eauto; same_fields;
            try apply cast_idempotent; lia).
  all: try match goal with
           | |- filesOk (with_branches _ ?inner) =>
               apply fok_frame with (db := inner); [| reflexivity | simpl; lia]
           end.
  all: match goal with
       | |- filesOk (with_files (File.replace ?saved (_ ++ [?old])%list) ?mid) =>
           eapply fok_replace with (db := mid) (this := saved) (f0 := old);
           simpl; trivial; same_fields
       end.
  all: try (apply in_app_iff; right; now left).
  all: eapply fok_append with (db := db); simpl in *; eauto; same_fields;
    try apply cast_idempotent; lia.
Qed.

Lemma projects_fok (db : Db) (l : list Project.t) :
  filesOk db -> filesOk (with_projects l db).
Proof. intros Ok. now apply fok_frame with db. Qed.

Lemma serve_fok (db : Db) (env : Env) (r : Request) :
  filesOk db -> filesOk (serve db env r).
Proof.
  intros Ok. destruct r; simpl.
  - now apply createProject_fok.
  - unfold updateProject. split_handler; trivial; now apply projects_fok.
  - unfold deleteProject. split_handler; trivial; now apply projects_fok.
  - unfold addCollaborator. split_handler; trivial; now apply projects_fok.
  - unfold removeCollaborator. split_handler; trivial; now apply projects_fok.
  - now apply put_fok.
  - now apply remove_fok.
  - now apply createBranch_fok.
  - now apply updateBranch_fok.
  - now apply deleteBranch_fok.
Qed.

End FileHandlers.

Lemma reachable_fok (db : Db) : reachable db -> filesOk db.
Proof.
  revert db. apply (reachable_ind filesOk).
  - unfold filesOk, casted. simpl. split; [constructor |]. split; intros f [].
  - intros db env r _ Ok. now apply serve_fok.
Qed.

(** ** Writes stay on their branch *)

Lemma file_replace_elsewhere (p : ObjectId) (b : string) (this : File.t) (l : list File.t) :
  (forall x, In x l -> File._id x = File._id this -> onBranch p b x = false) ->
  onBranch p b this = false ->
  filter (onBranch p b) (File.replace this l) = filter (onBranch p b) l.
Proof.
  intros H T. unfold File.replace. induction l as [| x l IH]; simpl; [reflexivity |].
  assert (IH' := IH (fun y Hy => H y (or_intror Hy))). clear IH.
  destruct (Nat.eqb_spec (File._id x) (File._id this)) as [E | N].
  - now rewrite T, (H x (or_introl eq_refl) E).
  - now rewrite IH'.
Qed.

Lemma file_id_inj (l : list File.t) (a b : File.t) :
  NoDup (map File._id l) -> In a l -> In b l -> File._id a = File._id b -> a = b.
Proof.
  induction l as [| x l IH]; simpl; intros ND Ha Hb E; [contradiction |].
  inversion ND as [| y ys Hnot ND']; subst.
  destruct Ha as [-> | Ha], Hb as [-> | Hb]; trivial.
  - elim Hnot. rewrite E. now apply in_map.
  - elim Hnot. rewrite <- E. now apply in_map.
  - now apply IH.
Qed.

Lemma live_at_onBranch (p : ObjectId) (n d b : string) (f : File.t) :
  File.live_at p n d b f = true -> File.project f = p /\ File.branch f = b.
Proof.
  unfold File.live_at. rewrite !andb_true_iff, Nat.eqb_eq, !String.eqb_eq. tauto.
Qed.

Lemma onBranch_other (p p0 : ObjectId) (b b0 : string) (f : File.t) :
  File.project f = p0 -> File.branch f = b0 -> p0 <> p \/ b0 <> b ->
  onBranch p b f = false.
Proof.
  intros <- <- [N | N]; unfold onBranch; apply andb_false_iff; [left | right].
  - now apply Nat.eqb_neq.
  - now apply String.eqb_neq.
Qed.

Section Isolation.

#[local] Arguments File.save : simpl never.
#[local] Arguments File.save_new : simpl never.
#[local] Arguments File.pre_save : simpl never.
#[local] Arguments File.cast : simpl never.

Variables (p : ObjectId) (b : string).

Ltac written_file :=
  repeat match goal with
    | H : File.save _ _ _ _ = _ |- _ =>
        apply file_save_result in H; destruct H as [(? & -> & ->) | [? ->]]
    | H : File.save_new _ _ = _ |- _ =>
        apply file_save_new_result in H; destruct H as [(? & -> & ->) | [? ->]]
    | H : find (File.live_at _ _ _ _) _ = Some _ |- _ =>
        apply find_some in H; destruct H as [Hfound Hlive];
        apply live_at_onBranch in Hlive; destruct Hlive as [Hproject Hbranch]
    end;
  try match goal with H : ?x <> ?x |- _ => now elim H end.

Ltac split_find :=
  simpl;
  match goal with
  | |- context [find (File.live_at ?a ?n ?d ?br) ?l] =>
      destruct (find (File.live_at a n d br) l) eqn:?
  end.

Lemma replaced_elsewhere (db : Db) (this f0 : File.t) (p0 : ObjectId) (b0 : string) :
  filesOk db -> In f0 (files db) ->
  File._id this = File._id f0 ->
  File.project f0 = p0 -> File.branch f0 = b0 ->
  File.project this = p0 -> File.branch this = b0 ->
  p0 <> p \/ b0 <> b ->
  filter (onBranch p b) (File.replace this (files db)) = filter (onBranch p b) (files db).
Proof.
  intros (ND & _) H0 Eid Ep Eb Tp Tb N. apply file_replace_elsewhere.
  - intros x Hx E.
    assert (x = f0) by (apply (file_id_inj (files db)); trivial; congruence).
    subst x. now apply onBranch_other with p0 b0.
  - now apply onBranch_other with p0 b0.
Qed.

Lemma put_elsewhere (db : Db) (env : Env) (u : ObjectId) (req : PutRequest) :
  filesOk db ->
  put_projectId req <> p
  \/ match put_branch req with Some b0 => b0 | None => "main" end <> b ->
  filesOf (fst (put db env u req)) p b = filesOf db p b.
Proof.
  intros Ok N. unfold put, put_with, filesOf.
  destruct (negb _); [reflexivity |].
  destruct (findProject db (put_projectId req)); [| reflexivity].
  destruct (negb _); [reflexivity |].
  split_find; split_handler; trivial.
  all: written_file; try discriminate; trivial.
  all: try (eapply replaced_elsewhere; eauto; autorewrite with file_fields; simpl; trivial).
  all: simpl; rewrite filter_app; simpl;
    match goal with
    | |- context [onBranch p b ?f] =>
        rewrite (onBranch_other p (put_projectId req) b
                   (match put_branch req with Some b0 => b0 | None => "main" end)
                   f eq_refl eq_refl N)
    end; apply app_nil_r.
Qed.

Lemma remove_elsewhere (db : Db) (env : Env) (u : ObjectId) (req : DeleteRequest) :
  filesOk db ->
  del_projectId req <> p
  \/ match del_branch req with Some b0 => b0 | None => "main" end <> b ->
  filesOf (fst (remove db env u req)) p b = filesOf db p b.
Proof.
  intros Ok N. unfold remove, remove_with, filesOf.
  destruct (negb _); [reflexivity |].
  destruct (findProject db (del_projectId req)); [| reflexivity].
  destruct (negb _); [reflexivity |].
  split_find; split_handler; trivial.
  all: written_file; try discriminate; trivial.
  all: eapply replaced_elsewhere; eauto; autorewrite with file_fields; simpl; trivial.
Qed.

Lemma serve_elsewhere (db : Db) (env : Env) (r : Request) (p0 : ObjectId) (b0 : string) :
  filesOk db -> writesTo p0 b0 r = true -> p0 <> p \/ b0 <> b ->
  filesOf (serve db env r) p b = filesOf db p b.
Proof.
  intros Ok W N. destruct r; simpl in W; try discriminate; simpl.
  - apply andb_true_iff in W. destruct W as [W1 W2].
    apply Nat.eqb_eq in W1. apply String.eqb_eq in W2.
    apply put_elsewhere; trivial. now rewrite W1, W2.
  - apply andb_true_iff in W. destruct W as [W1 W2].
    apply Nat.eqb_eq in W1. apply String.eqb_eq in W2.
    apply remove_elsewhere; trivial. now rewrite W1, W2.
Qed.

Lemma run_elsewhere (trace : list (Env * Request)) (p0 : ObjectId) (b0 : string) :
  forall db, filesOk db ->
    Forall (fun er => writesTo p0 b0 (snd er) = true) trace ->
    p0 <> p \/ b0 <> b ->
    filesOf (run db trace) p b = filesOf db p b.
Proof.
  induction trace as [| [env r] trace IH]; intros db Ok W N; [reflexivity |].
  inversion W as [| x xs Wr Wt]; subst. simpl in Wr.
  change (run db ((env, r) :: trace)) with (run (serve db env r) trace).
  rewrite IH; trivial.
  - now apply serve_elsewhere with p0 b0.
  - now apply serve_fok.
Qed.

End Isolation.

(** ** What a fork copies *)

Section Fork.

#[local] Arguments Branch.save : simpl never.
#[local] Arguments Branch.save_new : simpl never.
#[local] Arguments Branch.updateStats : simpl never.
#[local] Arguments File.save_new : simpl never.
#[local] Arguments File.pre_save : simpl never.
#[local] Arguments File.cast : simpl never.
#[local] Arguments copyFiles : simpl never.

Ltac split_hyp H :=
  repeat (simpl in H;
          match type of H with
          | context [match ?x with _ => _ end] => destruct x eqn:?; try discriminate H
          | context [if ?x then _ else _] => destruct x eqn:?; try discriminate H
          end).

Lemma createBranch_created (db db' : Db) (env : Env) (u : ObjectId) (req : BranchRequest)
  (branch : Branch.t) :
  createBranch db env u req = (db', Sent 201 branch) ->
  let p := br_projectId req in
  let name := br_name req in
  let source := match br_source req with Some s => s | None => "main" end in
  findBranch db p name = None
  /\ (exists sourceBranch, findBranch db p source = Some sourceBranch)
  /\ exists copies,
      files db' = (files db ++ copies)%list
      /\ (forall c, In c copies ->
            nextId db <= File._id c < nextId db'
            /\ File.project c = p /\ File.branch c = name)
      /\ (forall s, In s (files db) ->
            File.project s = p -> File.branch s = source -> File.isDeleted s = false ->
            exists c, In c copies
              /\ File.project c = p /\ File.branch c = name
              /\ File.path c = File.cast (File.path s)
              /\ File.name c = File.cast (File.name s)
              /\ File.content c = File.content s
              /\ File.lastCommit c = None /\ File.isDeleted c = false).
Proof.
  intros H p name source. unfold createBranch in H. split_hyp H.
  all: inversion H; subst; clear H.
  all: match goal with
       | H : copyFiles _ _ _ _ _ = _ |- _ =>
           apply copyFiles_result in H;
           destruct H as (Hnext & copies & Hfiles & _ & Hcopies & Hall)
       end.
  all: simpl in Hfiles; subst.
  all: split; [assumption |]; split; [eauto |].
  all: exists copies; simpl; split; [reflexivity |]; split.
  all: try (intros c Hc; destruct (Hcopies c Hc) as (B & Hp & Hb & _);
            repeat split; trivial; lia).
  all: intros s Hs Ep Eb Ed; apply (Hall eq_refl s).
  all: apply filter_In; split; [assumption |].
  all: rewrite Ep, Eb, Ed; subst p source;
    now rewrite Nat.eqb_refl, String.eqb_refl.
Qed.

End Fork.

Lemma reachable_serve (db : Db) (env : Env) (r : Request) :
  reachable db -> reachable (serve db env r).
Proof. intros [trace <-]. exists (trace ++ [(env, r)])%list. apply run_snoc. Qed.

Lemma reachable_run (db : Db) (trace : list (Env * Request)) :
  reachable db -> reachable (run db trace).
Proof.
  revert db. induction trace as [| [env r] trace IH]; intros db R; [exact R |].
  change (run db ((env, r) :: trace)) with (run (serve db env r) trace).
  apply IH. now apply reachable_serve.
Qed.

(** C1. When the creation of branch [name] from branch [source] succeeds
    (status 201), every file of [source] that is not deleted has a copy
    in the new store: a new document (its id was not in use) on branch
    [name] with the same path, name and content, not deleted and with no
    last commit.  The copy is made once: after the fork and whatever
    requests followed it, a file write ([put] or [remove]) on [source]
    leaves the documents of [name] as they are, and a file write on
    [name] leaves the documents of [source] as they are; so does any
    sequence of such writes. *)
Theorem C1_fork_copies_once
  (db db' : Db) (env : Env) (u : ObjectId) (req : BranchRequest) (branch : Branch.t) :
  reachable db ->
  createBranch db env u req = (db', Sent 201 branch) ->
  let p := br_projectId req in
  let name := br_name req in
  let source := match br_source req with Some s => s | None => "main" end in
  (forall s, In s (files db) ->
     File.project s = p -> File.branch s = source -> File.isDeleted s = false ->
     exists c, In c (files db')
       /\ ~ In (File._id c) (map File._id (files db))
       /\ copyOn p name s c)
  /\ (forall later env' r,
        writesTo p source r = true ->
        filesOf (serve (run db' later) env' r) p name = filesOf (run db' later) p name)
  /\ (forall later env' r,
        writesTo p name r = true ->
        filesOf (serve (run db' later) env' r) p source = filesOf (run db' later) p source)
  /\ (forall writes,
        Forall (fun er => writesTo p source (snd er) = true) writes ->
        filesOf (run db' writes) p name = filesOf db' p name)
  /\ (forall writes,
        Forall (fun er => writesTo p name (snd er) = true) writes ->
        filesOf (run db' writes) p source = filesOf db' p source).
Proof.
  intros R H p name source.
  assert (Ok : filesOk db) by now apply reachable_fok.
  assert (R' : reachable db').
  { replace db' with (serve db env (CreateBranch u req)).
    - now apply reachable_serve.
    - simpl. now rewrite H. }
  assert (Ok' : filesOk db') by now apply reachable_fok.
  destruct (createBranch_created _ _ _ _ _ _ H)
    as (Hnone & [sb Hsome] & copies & Hfiles & Hcopies & Hall).
  fold p name source in Hnone, Hsome, Hcopies, Hall.
  assert (N : source <> name).
  { intros E. rewrite E in Hsome. congruence. }
  split; [| split; [| split; [| split]]].
  - intros s Hs Ep Eb Ed.
    destruct (Hall s Hs Ep Eb Ed) as (c & Hc & Cp & Cb & Cpath & Cname & Cc & Cl & Cd).
    destruct Ok as (_ & Hid & Hcast). destruct (Hcast s Hs) as [Ecp Ecn].
    exists c. split; [| split].
    + rewrite Hfiles. apply in_app_iff. now right.
    + intros Hin. apply in_map_iff in Hin. destruct Hin as [x [Ex Hx]].
      specialize (Hid x Hx). destruct (Hcopies c Hc) as [B _]. lia.
    + unfold copyOn. rewrite Cpath, Cname, Ecp, Ecn. auto 10.
  - intros later env' r W. apply serve_elsewhere with p source; auto.
    now apply reachable_fok, reachable_run.
  - intros later env' r W. apply serve_elsewhere with p name; auto.
    now apply reachable_fok, reachable_run.
  - intros writes W. apply run_elsewhere with p source; auto.
  - intros writes W. apply run_elsewhere with p name; auto.
Qed.

Lemma C1_fork_copies_once_witness :
  (forall s, In s (files Scenario.created) ->
     File.project s = Scenario.P -> File.branch s = "main" -> File.isDeleted s = false ->
     exists c, In c (files Scenario.forked)
       /\ ~ In (File._id c) (map File._id (files Scenario.created))
       /\ copyOn Scenario.P "feature" s c)
  /\ (forall later env' r,
        writesTo Scenario.P "main" r = true ->
        filesOf (serve (run Scenario.forked later) env' r) Scenario.P "feature"
        = filesOf (run Scenario.forked later) Scenario.P "feature")
  /\ (forall later env' r,
        writesTo Scenario.P "feature" r = true ->
        filesOf (serve (run Scenario.forked later) env' r) Scenario.P "main"
        = filesOf (run Scenario.forked later) Scenario.P "main")
  /\ (forall writes,
        Forall (fun er => writesTo Scenario.P "main" (snd er) = true) writes ->
        filesOf (run Scenario.forked writes) Scenario.P "feature"
        = filesOf Scenario.forked Scenario.P "feature")
  /\ (forall writes,
        Forall (fun er => writesTo Scenario.P "feature" (snd er) = true) writes ->
        filesOf (run Scenario.forked writes) Scenario.P "main"
        = filesOf Scenario.forked Scenario.P "main").
Proof.
  apply (C1_fork_copies_once Scenario.created Scenario.forked Scenario.env2 Scenario.alice
           Scenario.fork Scenario.feature).
  - exists [(Scenario.env1, CreateProject Scenario.alice Scenario.request)].
    vm_compute. reflexivity.
  - vm_compute. reflexivity.
Defined.

(** * Further properties of the models and routes *)

(** ** Collaborators and their rights (models/Project.js) *)

Lemma find_collaborator_app (u : ObjectId) (l : list Project.Collaborator)
  (c : Project.Collaborator) :
  find (fun col => (Project.user col =? u)%nat) l = None ->
  find (fun col => (Project.user col =? u)%nat) (l ++ [c])
  = if (Project.user c =? u)%nat then Some c else None.
Proof.
  induction l as [| x l IH]; simpl; [reflexivity |].
  destruct (Project.user x =? u)%nat; [discriminate | exact IH].
Qed.

Lemma find_collaborator_other (u v : ObjectId) (l : list Project.Collaborator)
  (c : Project.Collaborator) :
  Project.user c <> v ->
  find (fun col => (Project.user col =? v)%nat) (l ++ [c])
  = find (fun col => (Project.user col =? v)%nat) l.
Proof.
  intros Hne. induction l as [| x l IH]; simpl.
  - apply Nat.eqb_neq in Hne. now rewrite Hne.
  - now destruct (Project.user x =? v)%nat.
Qed.

Lemma find_collaborator_removed (u : ObjectId) (l : list Project.Collaborator) :
  find (fun col => (Project.user col =? u)%nat)
       (filter (fun col => negb (Project.user col =? u)%nat) l) = None.
Proof.
  induction l as [| x l IH]; simpl; [reflexivity |].
  destruct (Project.user x =? u)%nat eqn:E; simpl; [exact IH |].
  now rewrite E.
Qed.

Lemma find_collaborator_kept (u v : ObjectId) (l : list Project.Collaborator) :
  v <> u ->
  find (fun col => (Project.user col =? v)%nat)
       (filter (fun col => negb (Project.user col =? u)%nat) l)
  = find (fun col => (Project.user col =? v)%nat) l.
Proof.
  intros Hne. induction l as [| x l IH]; simpl; [reflexivity |].
  destruct (Project.user x =? u)%nat eqn:E; simpl.
  - apply Nat.eqb_eq in E.
    destruct (Project.user x =? v)%nat eqn:E'; [| exact IH].
    apply Nat.eqb_eq in E'. congruence.
  - now destruct (Project.user x =? v)%nat.
Qed.

Lemma filter_absent (u : ObjectId) (l : list Project.Collaborator) :
  find (fun col => (Project.user col =? u)%nat) l = None ->
  filter (fun col => negb (Project.user col =? u)%nat) l = l.
Proof.
  induction l as [| x l IH]; simpl; [reflexivity |].
  destruct (Project.user x =? u)%nat; [discriminate |].
  intros H. simpl. now rewrite IH.
Qed.

(** X1. The rights of [hasPermission] are closed downwards: a user who
    passes the gate of a role passes the gate of every role that ranks
    no higher (admin, then editor, then viewer). *)
Theorem hasPermission_downward (p : Project.t) (u : ObjectId) (have need : string)
  (h n : nat) :
  Project.roleHierarchy have = Some h -> Project.roleHierarchy need = Some n ->
  n <= h ->
  Project.hasPermission p u have = true -> Project.hasPermission p u need = true.
Proof.
  intros Hh Hn Hle. unfold Project.hasPermission.
  destruct (Project.owner p =? u)%nat; [reflexivity |].
  destruct (find _ (Project.collaborators p)) as [c |]; [| discriminate].
  rewrite Hh, Hn.
  destruct (Project.roleHierarchy (Project.role c)) as [r |]; [| discriminate].
  intros H. apply Nat.leb_le in H. apply Nat.leb_le. lia.
Qed.

Lemma hasPermission_downward_witness :
  Project.hasPermission Team.project Team.bob "editor" = true
  /\ Project.hasPermission Team.project Team.bob "viewer" = true.
Proof.
  split; [reflexivity |].
  apply (hasPermission_downward Team.project Team.bob "editor" "viewer" 2 1);
    [reflexivity | reflexivity | lia | reflexivity].
Defined.

Lemma team_projects : projects Team.db = [Team.project].
Proof. vm_compute. reflexivity. Qed.

Lemma with_collaborators_same (p : Project.t) :
  Project.with_collaborators (Project.collaborators p) p = p.
Proof. now destruct p. Qed.

(** X2. [addCollaborator] succeeds only for a user who is neither the owner
    nor a collaborator yet, so who had no right on the project; afterwards
    that user passes exactly the gates that the given role outranks, and
    the rights of every other user are as before. *)
Theorem addCollaborator_grants (p p' : Project.t) (u : ObjectId) (r : string) :
  Project.addCollaborator p u r = inr p' ->
  u <> Project.owner p
  /\ (forall need, Project.hasPermission p u need = false)
  /\ Project.owner p' = Project.owner p
  /\ (forall need, Project.hasPermission p' u need = outranks r need)
  /\ (forall v need, v <> u ->
        Project.hasPermission p' v need = Project.hasPermission p v need).
Proof.
  unfold Project.addCollaborator.
  destruct (find _ (Project.collaborators p)) eqn:Hfind; [discriminate |].
  destruct (Project.owner p =? u)%nat eqn:Howner; [discriminate |].
  intros H. injection H as <-.
  apply Nat.eqb_neq in Howner as Hne.
  repeat split.
  - congruence.
  - intros need. unfold Project.hasPermission. now rewrite Howner, Hfind.
  - intros need. unfold Project.hasPermission, outranks. simpl.
    rewrite Howner, (find_collaborator_app u _ _ Hfind). simpl.
    now rewrite Nat.eqb_refl.
  - intros v need Hv. unfold Project.hasPermission. simpl.
    now rewrite find_collaborator_other by (simpl; congruence).
Qed.

Lemma addCollaborator_grants_witness :
  let p' := Project.with_collaborators
              (Project.collaborators Team.project
                 ++ [{| Project.user := Scenario.mallory; Project.role := "admin" |}])%list
              Team.project in
  Project.addCollaborator Team.project Scenario.mallory "admin" = inr p'
  /\ Project.hasPermission p' Scenario.mallory "editor" = outranks "admin" "editor".
Proof.
  split; [reflexivity |].
  apply (addCollaborator_grants Team.project _ Scenario.mallory "admin"). reflexivity.
Defined.

(** X3. Adding a collaborator and removing that user again restores the
    list of the collaborators, entry for entry, and leaves the owner, the
    title, the description, the readme and the visibility of the project
    as they were, so that every user has the rights they had before.
    (The time stamps that the two saves refresh are not part of the
    record.) *)
Theorem removeCollaborator_undoes_add (p p' : Project.t) (u : ObjectId) (r : string) :
  Project.addCollaborator p u r = inr p' ->
  let p'' := Project.removeCollaborator p' u in
  Project.collaborators p'' = Project.collaborators p
  /\ Project._id p'' = Project._id p /\ Project.owner p'' = Project.owner p
  /\ Project.title p'' = Project.title p
  /\ Project.description p'' = Project.description p
  /\ Project.readme p'' = Project.readme p
  /\ Project.isPublic p'' = Project.isPublic p
  /\ forall v need, Project.hasPermission p'' v need = Project.hasPermission p v need.
Proof.
  unfold Project.addCollaborator.
  destruct (find _ (Project.collaborators p)) eqn:Hfind; [discriminate |].
  destruct (Project.owner p =? u)%nat; [discriminate |].
  intros H. injection H as <-.
  assert (Hlist : filter (fun col => negb (Project.user col =? u)%nat)
                    (Project.collaborators p
                       ++ [{| Project.user := u; Project.role := r |}])%list
                  = Project.collaborators p).
  { rewrite filter_app, (filter_absent u _ Hfind). simpl.
    rewrite Nat.eqb_refl. simpl. apply app_nil_r. }
  simpl. rewrite Hlist. repeat split; trivial.
  intros v need. unfold Project.hasPermission. simpl. now rewrite Hlist.
Qed.

Lemma removeCollaborator_undoes_add_witness :
  exists p', Project.addCollaborator Team.project Scenario.mallory "admin" = inr p'
             /\ Project.collaborators (Project.removeCollaborator p' Scenario.mallory)
                = Project.collaborators Team.project.
Proof.
  eexists. split; [reflexivity |].
  apply (removeCollaborator_undoes_add Team.project _ Scenario.mallory "admin").
  reflexivity.
Defined.

(** X4. After [removeCollaborator] the user passes a gate only as the owner
    of the project; the rights of every other user are as before, and a
    second removal changes nothing. *)
Theorem removeCollaborator_revokes (p : Project.t) (u : ObjectId) :
  (forall need,
     Project.hasPermission (Project.removeCollaborator p u) u need
     = (Project.owner p =? u)%nat)
  /\ (forall v need, v <> u ->
        Project.hasPermission (Project.removeCollaborator p u) v need
        = Project.hasPermission p v need)
  /\ Project.removeCollaborator (Project.removeCollaborator p u) u
     = Project.removeCollaborator p u.
Proof.
  repeat split.
  - intros need. unfold Project.hasPermission. simpl.
    rewrite find_collaborator_removed. now destruct (Project.owner p =? u)%nat.
  - intros v need Hv. unfold Project.hasPermission. simpl.
    now rewrite find_collaborator_kept.
  - unfold Project.removeCollaborator. simpl.
    now rewrite (filter_absent u _ (find_collaborator_removed u _)).
Qed.

(** ** The collaborator and project routes (routes/projects.js) *)

Lemma collaborates_find (p : Project.t) (u : ObjectId) :
  collaborates p u = true ->
  exists col, find (fun col => (Project.user col =? u)%nat) (Project.collaborators p)
              = Some col.
Proof.
  unfold collaborates. induction (Project.collaborators p) as [| x l IH]; simpl.
  - discriminate.
  - destruct (Project.user x =? u)%nat; [now exists x | exact IH].
Qed.

Lemma find_collaborates (p : Project.t) (u : ObjectId) :
  collaborates p u
  = match find (fun col => (Project.user col =? u)%nat) (Project.collaborators p) with
    | Some _ => true
    | None => false
    end.
Proof.
  unfold collaborates. induction (Project.collaborators p) as [| x l IH]; simpl.
  - reflexivity.
  - now destruct (Project.user x =? u)%nat.
Qed.

(** X5. [POST /:id/collaborators] never changes the rights of the owner or
    of a user who is a collaborator already: the store stays as it was,
    whatever role the request names, and the answer is not a success. *)
Theorem addCollaborator_keeps_existing (db : Db) (u projectId c : ObjectId)
  (role : option string) (p : Project.t) :
  findProject db projectId = Some p ->
  c = Project.owner p \/ collaborates p c = true ->
  fst (addCollaborator db u projectId (Some c) role) = db
  /\ status_of (snd (addCollaborator db u projectId (Some c) role)) <> 200.
Proof.
  intros Hp Hc. unfold addCollaborator. rewrite Hp.
  destruct (negb _); [split; [reflexivity | discriminate] |].
  destruct (negb (Project.hasPermission p u "admin"));
    [split; [reflexivity | discriminate] |].
  unfold Project.addCollaborator.
  destruct Hc as [-> | Hc].
  - destruct (find _ (Project.collaborators p)); simpl.
    + split; [reflexivity | discriminate].
    + rewrite Nat.eqb_refl. split; [reflexivity | discriminate].
  - destruct (collaborates_find p c Hc) as [col ->]. simpl.
    split; [reflexivity | discriminate].
Qed.

Lemma addCollaborator_keeps_existing_witness :
  fst (addCollaborator Team.db Scenario.alice Scenario.P (Some Team.carol) (Some "admin"))
  = Team.db
  /\ status_of (snd (addCollaborator Team.db Scenario.alice Scenario.P (Some Team.carol)
                       (Some "admin"))) <> 200.
Proof.
  apply (addCollaborator_keeps_existing Team.db Scenario.alice Scenario.P Team.carol
           (Some "admin") Team.project).
  - vm_compute. reflexivity.
  - right. reflexivity.
Defined.

Lemma validate_with_collaborators (p : Project.t) (l : list Project.Collaborator) :
  Project.validate p = None ->
  forallb (fun col => Project.is_role (Project.role col)) l = true ->
  Project.validate (Project.with_collaborators l p) = None.
Proof.
  unfold Project.validate, Project.with_collaborators.
  cbn [Project.title Project.description Project.readme Project.collaborators].
  destruct (negb (required (Project.title p) && _)); [discriminate |].
  destruct (negb (required (Project.description p) && _)); [discriminate |].
  destruct (negb (maxlength 10000 (Project.readme p))); [discriminate |].
  intros _ ->. reflexivity.
Qed.

Lemma removeCollaboratorByText_valid (p : Project.t) (text : string) :
  Project.validate p = None ->
  Project.validate (Project.removeCollaboratorByText p text) = None.
Proof.
  intros Hv. unfold Project.removeCollaboratorByText.
  apply validate_with_collaborators; [exact Hv |].
  assert (Hall : forallb (fun col => Project.is_role (Project.role col))
                   (Project.collaborators p) = true).
  { unfold Project.validate in Hv.
    destruct (negb (required (Project.title p) && _)); [discriminate |].
    destruct (negb (required (Project.description p) && _)); [discriminate |].
    destruct (negb (maxlength 10000 (Project.readme p))); [discriminate |].
    now destruct (forallb _ (Project.collaborators p)). }
  apply forallb_forall. intros x Hx. apply filter_In in Hx as [Hx _].
  now apply (proj1 (forallb_forall _ _) Hall).
Qed.

Lemma find_removed_by_text (u : ObjectId) (l : list Project.Collaborator) :
  find (fun col => (Project.user col =? u)%nat)
       (filter (fun col => negb (oid_toString (Project.user col) =? oid_toString u)) l)
  = None.
Proof.
  induction l as [| x l IH]; [reflexivity |].
  cbn [filter].
  destruct (oid_toString (Project.user x) =? oid_toString u) eqn:E; cbn [negb find].
  - exact IH.
  - destruct (Nat.eqb_spec (Project.user x) u) as [Heq | _]; [| exact IH].
    rewrite Heq, String.eqb_refl in E. discriminate E.
Qed.

Lemma digit_is_no_prefix (n : Z) :
  Ascii.eqb (Js.lower_char (Hex.digit n)) "x" || Ascii.eqb (Js.lower_char (Hex.digit n)) "h"
  = false.
Proof.
  destruct n as [| q | q]; try reflexivity.
  do 4 (try destruct q as [q | q |]); reflexivity.
Qed.

Lemma lower_digit_is_digit (n : Z) : Hex.is_digit (Js.lower_char (Hex.digit n)) = true.
Proof.
  destruct n as [| q | q]; try reflexivity.
  do 4 (try destruct q as [q | q |]); reflexivity.
Qed.

Lemma render_hexadecimal (digits : nat) (z : Z) :
  forallb (fun c => Hex.is_digit (Js.lower_char c))
          (list_ascii_of_string (Hex.render digits z)) = true.
Proof.
  induction digits as [| k IH]; [reflexivity |].
  cbn [Hex.render list_ascii_of_string forallb]. now rewrite lower_digit_is_digit, IH.
Qed.

(** The string form of an id passes [isMongoId]. *)
Lemma isMongoId_toString (id : ObjectId) : isMongoId (oid_toString id) = true.
Proof.
  unfold isMongoId, isHexadecimal, oid_toString.
  rewrite render_length, Nat.eqb_refl, andb_true_r.
  assert (hexPrefixed (Hex.render 24 (Z.of_nat id)) = false) as ->.
  { change 24 with (S (S 22)). cbn [Hex.render hexPrefixed].
    now rewrite digit_is_no_prefix, andb_false_r. }
  rewrite render_hexadecimal, andb_true_r.
  change 24 with (S 23). reflexivity.
Qed.

(** X6. [DELETE /:id/collaborators/:collaboratorId]: a user without the
    rights of an admin can remove nobody but themselves, and themselves
    only under the string form of their id.  For any other text of the
    URL (another user, or their own id in upper case) the answer is 403,
    or 400 for a text that the validator of the route refuses, and the
    store is unchanged; for the string form of their own id the removal
    is carried out, after which they pass no gate of the project. *)
Theorem removeCollaborator_self_only (db : Db) (u projectId : ObjectId) (p : Project.t) :
  findProject db projectId = Some p ->
  Project.validate p = None ->
  Project.hasPermission p u "admin" = false ->
  (forall text, text <> oid_toString u ->
     removeCollaborator db u projectId text
     = (db, Failed 403 "Access denied: insufficient permissions")
     \/ removeCollaborator db u projectId text = (db, Failed 400 "Validation failed"))
  /\ (let p' := Project.removeCollaboratorByText p (oid_toString u) in
      removeCollaborator db u projectId (oid_toString u)
      = (with_projects (Project.replace p' (projects db)) db, Sent 200 p')
      /\ forall need, Project.hasPermission p' u need = false).
Proof.
  intros Hp Hv Hadmin.
  assert ((Project.owner p =? u)%nat = false) as Howner.
  { unfold Project.hasPermission in Hadmin. now destruct (Project.owner p =? u)%nat. }
  split.
  - intros text Htext. unfold removeCollaborator.
    destruct (isMongoId text); cbn [negb]; [left | now right]. rewrite Hp, Hadmin.
    apply String.eqb_neq in Htext. rewrite Htext. reflexivity.
  - cbv zeta. split.
    + unfold removeCollaborator.
      rewrite isMongoId_toString, Hp, Hadmin, String.eqb_refl. cbn [negb orb].
      rewrite (removeCollaboratorByText_valid p _ Hv). reflexivity.
    + intros need.
      unfold Project.hasPermission, Project.removeCollaboratorByText,
        Project.with_collaborators.
      cbn [Project.owner Project.collaborators].
      now rewrite Howner, find_removed_by_text.
Qed.

Lemma team_project_found : findProject Team.db Scenario.P = Some Team.project.
Proof. vm_compute. reflexivity. Qed.

Lemma removeCollaborator_self_only_witness :
  removeCollaborator Team.db Team.carol Scenario.P "00000000000000000000000C"
  = (Team.db, Failed 403 "Access denied: insufficient permissions")
  /\ status_of (snd (removeCollaborator Team.db Team.carol Scenario.P
                       (oid_toString Team.carol))) = 200.
Proof.
  destruct (removeCollaborator_self_only Team.db Team.carol Scenario.P Team.project
              team_project_found eq_refl eq_refl) as [Hother [Hself _]].
  split.
  - destruct (Hother "00000000000000000000000C") as [H | H].
    + intros H. vm_compute in H. discriminate H.
    + exact H.
    + vm_compute in H. discriminate H.
  - rewrite Hself. reflexivity.
Defined.

Lemma findProject_deleted (l : list Project.t) (projectId q : ObjectId) :
  find (fun p => (Project._id p =? q)%nat)
       (filter (fun p => negb (Project._id p =? projectId)%nat) l)
  = if (q =? projectId)%nat then None
    else find (fun p => (Project._id p =? q)%nat) l.
Proof.
  induction l as [| x l IH]; simpl.
  - now destruct (q =? projectId)%nat.
  - destruct (Project._id x =? projectId)%nat eqn:E; simpl.
    + rewrite IH. destruct (q =? projectId)%nat eqn:E'; [reflexivity |].
      apply Nat.eqb_eq in E. apply Nat.eqb_neq in E'.
      destruct (Project._id x =? q)%nat eqn:E''; [| reflexivity].
      apply Nat.eqb_eq in E''. congruence.
    + rewrite IH. destruct (Project._id x =? q)%nat eqn:E''; [| reflexivity].
      destruct (q =? projectId)%nat eqn:E'; [| reflexivity].
      apply Nat.eqb_eq in E'', E'. apply Nat.eqb_neq in E. congruence.
Qed.

(** X7. [DELETE /:id] is for the owner alone, and it deletes the project
    document and nothing else.  Any other user, an admin collaborator
    included, gets 403 and the store is unchanged.  For the owner the
    project is gone, the other projects are found as before, and the
    branches, files and commits of the deleted project stay in their
    collections, out of reach of the reading routes (404). *)
Theorem deleteProject_owner_only (db : Db) (u projectId : ObjectId) (p : Project.t) :
  findProject db projectId = Some p ->
  (u <> Project.owner p ->
   deleteProject db u projectId
   = (db, Failed 403 "Access denied: only project owner can delete"))
  /\ (u = Project.owner p ->
      let db' := fst (deleteProject db u projectId) in
      snd (deleteProject db u projectId) = Sent 200 tt
      /\ findProject db' projectId = None
      /\ (forall q, q <> projectId -> findProject db' q = findProject db q)
      /\ branches db' = branches db /\ files db' = files db /\ commits db' = commits db
      /\ (forall user branch path,
            getTree db' user projectId branch path = Failed 404 "Project not found")
      /\ (forall user filePath branch,
            getContent db' user projectId filePath branch = Failed 404 "Project not found")
      /\ (forall user q, history db' user projectId q = Failed 404 "Project not found")).
Proof.
  intros Hp. split.
  - intros Hu. unfold deleteProject. rewrite Hp.
    assert ((Project.owner p =? u)%nat = false) as ->; [| reflexivity].
    apply Nat.eqb_neq. congruence.
  - intros ->. unfold deleteProject. rewrite Hp, Nat.eqb_refl. simpl.
    assert (forall q, findProject
                (with_projects
                   (filter (fun p0 => negb (Project._id p0 =? projectId)%nat) (projects db)) db) q
              = if (q =? projectId)%nat then None else findProject db q) as Hfind.
    { intros q. unfold findProject. simpl. apply findProject_deleted. }
    assert (findProject
              (with_projects
                 (filter (fun p0 => negb (Project._id p0 =? projectId)%nat) (projects db)) db)
              projectId = None) as Hgone.
    { now rewrite Hfind, Nat.eqb_refl. }
    repeat split; trivial.
    + intros q Hq. rewrite Hfind. apply Nat.eqb_neq in Hq. now rewrite Hq.
    + intros. unfold getTree. now rewrite Hgone.
    + intros. unfold getContent. now rewrite Hgone.
    + intros. unfold history. now rewrite Hgone.
Qed.

Lemma deleteProject_owner_only_witness :
  deleteProject Team.db Team.bob Scenario.P
  = (Team.db, Failed 403 "Access denied: only project owner can delete")
  /\ files (fst (deleteProject Team.db Scenario.alice Scenario.P)) = files Team.db.
Proof.
  destruct (deleteProject_owner_only Team.db Team.bob Scenario.P Team.project
              team_project_found) as [Hother _].
  destruct (deleteProject_owner_only Team.db Scenario.alice Scenario.P Team.project
              team_project_found) as [_ Howner].
  split.
  - apply Hother. discriminate.
  - apply (Howner eq_refl).
Defined.

Lemma role_outranks_viewer (r : string) :
  Project.is_role r = true -> outranks r "viewer" = true.
Proof.
  unfold Project.is_role, outranks, Project.roleHierarchy. simpl.
  destruct (r =? "viewer"); [reflexivity |].
  destruct (r =? "editor"); [reflexivity |].
  destruct (r =? "admin"); [reflexivity | discriminate].
Qed.

Lemma member_is_viewer (p : Project.t) (u : ObjectId) :
  forallb (fun col => Project.is_role (Project.role col)) (Project.collaborators p) = true ->
  Project.hasPermission p u "viewer"
  = (Project.owner p =? u)%nat
    || existsb (fun col => (Project.user col =? u)%nat) (Project.collaborators p).
Proof.
  intros Hroles. unfold Project.hasPermission.
  destruct (Project.owner p =? u)%nat; [reflexivity |]. simpl.
  induction (Project.collaborators p) as [| x l IH]; simpl; [reflexivity |].
  simpl in Hroles. apply andb_prop in Hroles as [Hx Hl].
  destruct (Project.user x =? u)%nat; [| now apply IH].
  simpl. apply (role_outranks_viewer _ Hx).
Qed.

Lemma someCollaborator_all (account : ObjectId -> bool) (u : ObjectId)
  (l : list Project.Collaborator) :
  forallb (fun col => account (Project.user col)) l = true ->
  someCollaborator account u l
  = Some (existsb (fun col => (Project.user col =? u)%nat) l).
Proof.
  induction l as [| x l IH]; simpl; [reflexivity |].
  intros H. apply andb_prop in H as [Hx Hl]. rewrite Hx. simpl.
  destruct (Project.user x =? u)%nat; [reflexivity | now apply IH].
Qed.

Lemma findCollaborator_all (account : ObjectId -> bool) (u : ObjectId)
  (l : list Project.Collaborator) :
  forallb (fun col => account (Project.user col)) l = true ->
  findCollaborator account u l
  = Some (find (fun col => (Project.user col =? u)%nat) l).
Proof.
  induction l as [| x l IH]; simpl; [reflexivity |].
  intros H. apply andb_prop in H as [Hx Hl]. rewrite Hx. simpl.
  destruct (Project.user x =? u)%nat; [reflexivity | now apply IH].
Qed.

(** X8. [GET /:id] lets in the same signed-in users as the gate of the
    other reading routes ([hasPermission] for a viewer), though it tests
    membership itself: for a project whose owner and collaborators have
    accounts and whose collaborators carry roles of the schema, a
    signed-in user gets the project with their role, or 403 exactly when
    that gate denies them.  An anonymous caller gets a public project and
    401 for a private one. *)
Theorem getProject_access (account : ObjectId -> bool) (db : Db) (projectId : ObjectId)
  (p : Project.t) :
  findProject db projectId = Some p ->
  forallb (fun col => Project.is_role (Project.role col)) (Project.collaborators p) = true ->
  account (Project.owner p) = true ->
  forallb (fun col => account (Project.user col)) (Project.collaborators p) = true ->
  (forall u,
     getProject account db (Some u) projectId
     = if denied p (Some u) then Failed 403 "Access denied to private project"
       else Sent 200 {| view_project := p; view_userRole := userRole p (Some u) |})
  /\ getProject account db None projectId
     = (if Project.isPublic p
        then Sent 200 {| view_project := p; view_userRole := None |}
        else Failed 401 "Authentication required to view private project")
  /\ (forall u, userRole p (Some u) = Some "owner" <-> u = Project.owner p).
Proof.
  intros Hp Hroles Howner Hall. repeat split.
  - intros u. unfold getProject, denied, userRole.
    rewrite Hp, Howner, (member_is_viewer p u Hroles),
      (someCollaborator_all account u _ Hall), (findCollaborator_all account u _ Hall).
    simpl.
    destruct (Project.isPublic p), (Project.owner p =? u)%nat; simpl; try reflexivity.
    destruct (existsb _ (Project.collaborators p)); reflexivity.
  - unfold getProject. now rewrite Hp.
  - unfold userRole. destruct (Project.owner p =? u)%nat eqn:E.
    + intros _. symmetry. now apply Nat.eqb_eq.
    + destruct (find _ _) as [col |] eqn:Hfind; [| discriminate].
      destruct (Project.role col =? "") eqn:Hr; [discriminate |].
      intros H. injection H as H.
      assert (Project.is_role (Project.role col) = true) as Hrole.
      { apply find_some in Hfind as [Hin _].
        now apply (proj1 (forallb_forall _ _) Hroles). }
      rewrite H in Hrole. discriminate.
  - intros ->. unfold userRole. now rewrite Nat.eqb_refl.
Qed.

Lemma getProject_access_witness :
  getProject (fun _ => true) Team.db (Some Team.carol) Scenario.P
  = Sent 200 {| view_project := Team.project; view_userRole := Some "viewer" |}
  /\ getProject (fun _ => true) Team.db (Some Scenario.mallory) Scenario.P
     = Failed 403 "Access denied to private project".
Proof.
  destruct (getProject_access (fun _ => true) Team.db Scenario.P Team.project
              team_project_found eq_refl eq_refl eq_refl) as [Huser _].
  rewrite !Huser. split; reflexivity.
Defined.

(** ** Branch statistics (models/Branch.js) *)

Lemma of_branch_recordedOn (projectId : ObjectId) (branch : string) (l : list Commit.t) :
  Commit.of_branch projectId branch l
  = sort_by Commit.newest_first (recordedOn projectId branch l).
Proof. reflexivity. Qed.

Lemma hashOccurs_self (c : Commit.t) (l : list Commit.t) : In c l -> hashOccurs c l = true.
Proof.
  intros Hin. unfold hashOccurs. apply existsb_exists. exists c. split; [exact Hin |].
  destruct (Commit.hash c); [apply String.eqb_refl | reflexivity].
Qed.

Lemma hashOccurs_hash (c : Commit.t) (l : list Commit.t) :
  hashOccurs c l = true -> exists c', In c' l /\ Commit.hash c' = Commit.hash c.
Proof.
  unfold hashOccurs. intros H. apply existsb_exists in H as [c' [Hin H]].
  exists c'. split; [exact Hin |].
  destruct (Commit.hash c), (Commit.hash c'); try discriminate; [| reflexivity].
  apply String.eqb_eq in H. now subst.
Qed.

Lemma filter_none {A : Type} (f : A -> bool) (l : list A) :
  (forall x, In x l -> f x = false) -> filter f l = [].
Proof.
  induction l as [| x l IH]; simpl; intros H; [reflexivity |].
  rewrite (H x) by now left. apply IH. intros y Hy. apply H. now right.
Qed.

Lemma filter_all {A : Type} (f : A -> bool) (l : list A) :
  (forall x, In x l -> f x = true) -> filter f l = l.
Proof.
  induction l as [| x l IH]; simpl; intros H; [reflexivity |].
  rewrite (H x) by now left. f_equal. apply IH. intros y Hy. apply H. now right.
Qed.

Lemma filter_length_le {A : Type} (f : A -> bool) (l : list A) :
  List.length (filter f l) <= List.length l.
Proof.
  induction l as [| x l IH]; simpl; [lia |]. destruct (f x); simpl; lia.
Qed.

(** X9. [calculateDifference] of a branch against its own name counts
    nothing ahead and nothing behind, and against any name it counts no
    more commits ahead than the branch has and no more behind than the
    target has. *)
Theorem difference_self_and_bounds (a : Branch.t) (target : string)
  (commits : list Commit.t) :
  Branch.difference a (Branch.name a) commits = (0, 0)
  /\ fst (Branch.difference a target commits)
     <= List.length (recordedOn (Branch.project a) (Branch.name a) commits)
  /\ snd (Branch.difference a target commits)
     <= List.length (recordedOn (Branch.project a) target commits).
Proof.
  rewrite !difference_counts. simpl. repeat split.
  - rewrite filter_none; [reflexivity |].
    intros c Hc. now rewrite hashOccurs_self.
  - apply filter_length_le.
  - apply filter_length_le.
Qed.

Lemma NoDup_map_inj {A B : Type} (f : A -> B) (l : list A) (x y : A) :
  NoDup (map f l) -> In x l -> In y l -> f x = f y -> x = y.
Proof.
  induction l as [| z l IH]; simpl; [contradiction |].
  intros Hnd Hx Hy Hf. inversion Hnd as [| ? ? Hnotin Hnd']; subst.
  destruct Hx as [-> | Hx], Hy as [-> | Hy]; trivial.
  - exfalso. apply Hnotin. rewrite Hf. now apply in_map.
  - exfalso. apply Hnotin. rewrite <- Hf. now apply in_map.
  - now apply IH.
Qed.

Lemma recordedOn_In (projectId : ObjectId) (branch : string) (l : list Commit.t)
  (c : Commit.t) :
  In c (recordedOn projectId branch l)
  <-> In c l /\ Commit.project c = projectId /\ Commit.branch c = branch.
Proof.
  unfold recordedOn. rewrite filter_In, andb_true_iff, Nat.eqb_eq, String.eqb_eq.
  tauto.
Qed.

Lemma no_common_hash (l : list Commit.t) (projectId : ObjectId) (a b : string)
  (c : Commit.t) :
  NoDup (map Commit.hash l) -> a <> b ->
  In c (recordedOn projectId a l) -> hashOccurs c (recordedOn projectId b l) = false.
Proof.
  intros Hnd Hab Hc. destruct (hashOccurs c _) eqn:H; [| reflexivity].
  exfalso. apply hashOccurs_hash in H as [c' [Hc' Hh]].
  apply recordedOn_In in Hc as [Hc [_ Ha]].
  apply recordedOn_In in Hc' as [Hc' [_ Hb]].
  assert (c' = c) by now apply (NoDup_map_inj Commit.hash l).
  subst. congruence.
Qed.

(** X10. In a store reached by requests two branches with different
    names share no commit: a commit carries one branch and the hashes
    are unique, so [calculateDifference] counts every commit of the
    branch as ahead and every commit of the target as behind. *)
Theorem difference_of_distinct_branches (db : Db) (a : Branch.t) (target : string) :
  reachable db -> Branch.name a <> target ->
  Branch.difference a target (commits db)
  = (List.length (recordedOn (Branch.project a) (Branch.name a) (commits db)),
     List.length (recordedOn (Branch.project a) target (commits db))).
Proof.
  intros Hreach Hne. apply reachable_hashes_distinct in Hreach.
  rewrite difference_counts. f_equal; f_equal; apply filter_all; intros c Hc.
  - now rewrite (no_common_hash _ _ (Branch.name a) target).
  - rewrite (no_common_hash _ _ target (Branch.name a)); trivial. congruence.
Qed.

Lemma created_reachable : reachable Scenario.created.
Proof.
  exists [(Scenario.env1, CreateProject Scenario.alice Scenario.request)].
  vm_compute. reflexivity.
Qed.

Lemma difference_of_distinct_branches_witness :
  Branch.difference Scenario.feature "main" (commits Scenario.created) = (0, 1).
Proof.
  rewrite (difference_of_distinct_branches Scenario.created Scenario.feature "main"
             created_reachable); [| discriminate].
  rewrite created_commits. reflexivity.
Defined.

Lemma sorted_head_newest (c : Commit.t) (l : list Commit.t) :
  StronglySorted (fun a b => Commit.newest_first a b = true) (c :: l) ->
  forall c', In c' (c :: l) -> (Commit.createdAt c' <= Commit.createdAt c)%N.
Proof.
  intros Hs c' [<- | Hin]; [lia |].
  inversion Hs as [| ? ? _ Hall]; subst.
  apply (proj1 (Forall_forall _ _) Hall) in Hin.
  unfold Commit.newest_first in Hin. now apply N.leb_le.
Qed.

(** X11. [updateStats] stores the number of commits recorded on the branch
    and, when there is one, a newest commit of the branch as
    [lastCommit], with its date as [lastActivity]; when the branch has no
    commit, [lastCommit] and [lastActivity] are left as they were.  The
    name, the flags and the ahead and behind counts are never touched. *)
Theorem updateStats_counts_and_newest (this : Branch.t) (commits : list Commit.t)
  (branches : list Branch.t) :
  let this' := snd (fst (Branch.updateStats this commits branches)) in
  let mine := recordedOn (Branch.project this) (Branch.name this) commits in
  Branch.totalCommits (Branch.stats this') = List.length mine
  /\ (mine = [] ->
      Branch.lastCommit this' = Branch.lastCommit this
      /\ Branch.lastActivity (Branch.stats this') = Branch.lastActivity (Branch.stats this))
  /\ (mine <> [] ->
      exists newest,
        In newest mine
        /\ Branch.lastCommit this' = Some (Commit._id newest)
        /\ Branch.lastActivity (Branch.stats this') = Commit.createdAt newest
        /\ forall c, In c mine -> (Commit.createdAt c <= Commit.createdAt newest)%N)
  /\ Branch.name this' = Branch.name this
  /\ Branch.isDefault this' = Branch.isDefault this
  /\ Branch.isProtected this' = Branch.isProtected this
  /\ Branch.commitsAhead (Branch.stats this') = Branch.commitsAhead (Branch.stats this)
  /\ Branch.commitsBehind (Branch.stats this') = Branch.commitsBehind (Branch.stats this).
Proof.
  intros this' mine.
  assert (this' = Branch.updatedStats this commits) as ->.
  { unfold this', Branch.updateStats.
    now destruct (Branch.save false (Branch.updatedStats this commits) branches). }
  unfold Branch.updatedStats. rewrite of_branch_recordedOn. fold mine.
  pose proof (sort_by_perm Commit.newest_first mine) as Hperm.
  assert (StronglySorted (fun a b => Commit.newest_first a b = true)
            (sort_by Commit.newest_first mine)) as Hsorted.
  { apply sort_by_sorted; unfold Commit.newest_first.
    - intros a b H. apply N.leb_gt in H. apply N.leb_le. lia.
    - intros a b c H1 H2. apply N.leb_le in H1, H2. apply N.leb_le. lia. }
  assert (forall x, In x (sort_by Commit.newest_first mine) <-> In x mine) as Hin
    by (intros x; apply sort_by_In).
  apply Permutation_length in Hperm.
  destruct (sort_by Commit.newest_first mine) as [| newest rest] eqn:Hs; simpl in *.
  - split; [exact Hperm |].
    split; [intros _; now split |].
    split; [| now repeat split].
    intros Hne. destruct mine; [now elim Hne | discriminate].
  - split; [exact Hperm |].
    split; [intros Hnil; rewrite Hnil in Hperm; discriminate |].
    split; [| now repeat split].
    intros _. exists newest.
    split; [apply Hin; now left |].
    split; [reflexivity |]. split; [reflexivity |].
    intros c Hc. apply (sorted_head_newest newest rest Hsorted). now apply Hin.
Qed.

(** ** The names of the branches (routes/projects.js) *)

Lemma replace_In_other (this b : Branch.t) (l : list Branch.t) :
  In b (Branch.replace this l) ->
  b = this \/ (In b l /\ Branch._id b <> Branch._id this).
Proof.
  unfold Branch.replace. rewrite in_map_iff. intros [x [Hx Hin]].
  destruct (Nat.eqb_spec (Branch._id x) (Branch._id this)) as [E | N].
  - left. now symmetry.
  - right. subst. now split.
Qed.

Lemma nok_frame (db db' : Db) :
  namesOk db -> branches db' = branches db -> namesOk db'.
Proof. unfold namesOk. now intros H ->. Qed.

Lemma nok_replace (db db' : Db) (this b0 : Branch.t) :
  branchesOk db -> namesOk db ->
  branches db' = Branch.replace this (branches db) ->
  In b0 (branches db) ->
  Branch._id this = Branch._id b0 ->
  Branch.project this = Branch.project b0 ->
  Branch.name this = Branch.name b0 ->
  Branch.isDefault this = Branch.isDefault b0 ->
  namesOk db'.
Proof.
  intros (ND & _) [Hmain Huniq] Eb H0 Eid Epr Ena Ed. unfold namesOk. rewrite Eb.
  assert (forall x, In x (branches db) -> Branch._id x <> Branch._id this ->
                    Branch.project x = Branch.project this ->
                    Branch.name x = Branch.name this -> False) as Hclash.
  { intros x Hx Hid Hp Hn.
    assert (x = b0) by (apply Huniq; trivial; congruence).
    subst. congruence. }
  split.
  - intros b Hin Hd. apply replace_In_other in Hin as [-> | [Hin _]].
    + rewrite Ena. apply Hmain; trivial. congruence.
    + now apply Hmain.
  - intros a b Ha Hb Hp Hn.
    apply replace_In_other in Ha as [-> | [Ha Hida]];
      apply replace_In_other in Hb as [-> | [Hb Hidb]]; trivial.
    + exfalso. apply (Hclash b); trivial; congruence.
    + exfalso. apply (Hclash a); trivial; congruence.
    + now apply Huniq.
Qed.

Lemma nok_delete (db db' : Db) (keep : Branch.t -> bool) :
  namesOk db -> branches db' = filter keep (branches db) -> namesOk db'.
Proof.
  intros [Hmain Huniq] Eb. unfold namesOk. rewrite Eb. split.
  - intros b Hin. apply filter_In in Hin as [Hin _]. now apply Hmain.
  - intros a b Ha Hb. apply filter_In in Ha as [Ha _]. apply filter_In in Hb as [Hb _].
    now apply Huniq.
Qed.

Lemma findBranch_none (db : Db) (projectId : ObjectId) (name : string) (b : Branch.t) :
  findBranch db projectId name = None -> In b (branches db) ->
  Branch.project b = projectId -> Branch.name b = name -> False.
Proof.
  unfold findBranch. intros Hnone Hin Hp Hn.
  apply (find_none _ _ Hnone) in Hin. subst.
  now rewrite Nat.eqb_refl, String.eqb_refl in Hin.
Qed.

Lemma nok_append (db db' : Db) (b : Branch.t) :
  namesOk db -> branches db' = (branches db ++ [b])%list ->
  Branch.isDefault b = false ->
  findBranch db (Branch.project b) (Branch.name b) = None ->
  namesOk db'.
Proof.
  intros [Hmain Huniq] Eb Ed Hnone. unfold namesOk. rewrite Eb. split.
  - intros x Hin Hd. apply in_app_iff in Hin as [Hin | [<- | []]].
    + now apply Hmain.
    + congruence.
  - intros x y Hx Hy Hp Hn.
    apply in_app_iff in Hx as [Hx | [<- | []]];
      apply in_app_iff in Hy as [Hy | [<- | []]]; trivial.
    + now apply Huniq.
    + exfalso. now apply (findBranch_none db _ _ x Hnone).
    + exfalso. now apply (findBranch_none db _ _ y Hnone).
Qed.

Lemma nok_project (db db' : Db) (b : Branch.t) :
  branchesOk db -> namesOk db -> branches db' = (branches db ++ [b])%list ->
  Branch.name b = "main" -> Branch.project b = nextId db ->
  namesOk db'.
Proof.
  intros (_ & Hold & _) [Hmain Huniq] Eb Ena Epr. unfold namesOk. rewrite Eb. split.
  - intros x Hin Hd. apply in_app_iff in Hin as [Hin | [<- | []]]; trivial.
    now apply Hmain.
  - intros x y Hx Hy Hp Hn.
    apply in_app_iff in Hx as [Hx | [<- | []]];
      apply in_app_iff in Hy as [Hy | [<- | []]]; trivial.
    + now apply Huniq.
    + apply Hold in Hx. lia.
    + apply Hold in Hy. lia.
Qed.

Lemma updatedStats_name (this : Branch.t) (commits : list Commit.t) :
  Branch.name (Branch.updatedStats this commits) = Branch.name this.
Proof.
  unfold Branch.updatedStats. now destruct (Commit.of_branch _ _ _).
Qed.

Section BranchNames.

#[local] Arguments Branch.save : simpl never.
#[local] Arguments Branch.save_new : simpl never.
#[local] Arguments Branch.updateStats : simpl never.
#[local] Arguments Branch.createMain : simpl never.
#[local] Arguments File.save : simpl never.
#[local] Arguments File.save_new : simpl never.
#[local] Arguments Commit.save : simpl never.
#[local] Arguments copyFiles : simpl never.

Ltac branch_steps :=
  repeat match goal with
    | H : Branch.save_new false _ _ = _ |- _ =>
        apply save_new_unmodified in H; destruct H as [[? ->] | [? ->]]
    | H : Branch.updateStats _ _ _ = _ |- _ =>
        apply updateStats_result in H; destruct H as [-> [[? ->] | ->]]
    | H : Branch.save false _ _ = _ |- _ =>
        apply save_unmodified in H; destruct H as [[_ ->] | ->]
    | H : copyFiles _ _ _ _ _ = _ |- _ => apply copyFiles_next in H
    | H : findProject _ _ = Some _ |- _ => apply findProject_In in H; destruct H as [? ?]
    end;
  try match goal with H : ?x <> ?x |- _ => now elim H end;
  try discriminate.

Lemma updateBranch_nok (db : Db) (u : ObjectId) (req : BranchUpdate) :
  branchesOk db -> namesOk db -> namesOk (fst (updateBranch db u req)).
Proof.
  intros Ok Nok. unfold updateBranch. split_handler; trivial.
  all: match goal with
       | H : findBranch _ _ _ = Some ?b |- _ => apply findBranch_In in H; destruct H as [Hin _]
       end.
  all: branch_steps.
  all: try solve [apply nok_frame with db; simpl; trivial].
  all: eapply nok_replace with (db := db); simpl; eauto.
  all: destruct (up_description req), (up_protected req); reflexivity.
Qed.

Lemma deleteBranch_nok (db : Db) (u projectId : ObjectId) (name : string) :
  namesOk db -> namesOk (fst (deleteBranch db u projectId name)).
Proof.
  intros Nok. unfold deleteBranch. split_handler; trivial.
  eapply nok_delete with (db := db); simpl; eauto.
Qed.

Lemma createBranch_nok (db : Db) (env : Env) (u : ObjectId) (req : BranchRequest) :
  branchesOk db -> namesOk db -> namesOk (fst (createBranch db env u req)).
Proof.
  intros Ok Nok. unfold createBranch. split_handler; trivial.
  all: branch_steps.
  all: try solve [apply nok_frame with db; simpl in *; trivial].
  all: assert (B : br_projectId req < nextId db)
    by (match goal with E : Project._id _ = _ |- _ => rewrite <- E end;
        now apply (proj1 (proj2 (proj2 Ok)))).
  all: simpl fst.
  all: try solve [eapply nok_append with (db := db); simpl in *; eauto].
  all: match goal with
       | |- namesOk (with_branches (Branch.replace (Branch.updatedStats ?b ?cs) _) ?mid) =>
           eapply nok_replace with (db := mid) (b0 := b) (this := Branch.updatedStats b cs);
           try apply updatedStats_same; try apply updatedStats_name; simpl; trivial
       end.
  all: try (apply in_app_iff; right; now left).
  all: try (eapply ok_append with (db := db); simpl in *; eauto; lia).
  all: eapply nok_append with (db := db); simpl in *; eauto.
Qed.

Lemma createProject_nok (db : Db) (env : Env) (u : ObjectId) (req : ProjectRequest) :
  branchesOk db -> namesOk db -> namesOk (fst (createProject db env u req)).
Proof.
  intros Ok Nok. unfold createProject. cbv zeta. simpl.
  rewrite createMain_fresh.
  2: { intros b Hb E. apply (proj1 (proj2 Ok)) in Hb. lia. }
  split_handler; trivial.
  all: branch_steps.
  all: try solve [apply nok_frame with db; simpl in *; trivial].
  all: simpl fst.
  all: try solve [eapply nok_project with (db := db); simpl in *; eauto].
  all: match goal with
       | |- namesOk (with_branches (Branch.replace (Branch.updatedStats ?b ?cs) _) ?mid) =>
           eapply nok_replace with (db := mid) (b0 := b) (this := Branch.updatedStats b cs);
           try apply updatedStats_same; try apply updatedStats_name; simpl; trivial
       end.
  all: try (apply in_app_iff; right; now left).
  all: try (eapply ok_project with (db := db); simpl in *; eauto; lia).
  all: eapply nok_project with (db := db); simpl in *; eauto.
Qed.

Lemma serve_nok (db : Db) (env : Env) (r : Request) :
  branchesOk db -> namesOk db -> namesOk (serve db env r).
Proof.
  intros Ok Nok. destruct r; simpl.
  - now apply createProject_nok.
  - unfold updateProject. split_handler; trivial; now apply nok_frame with db.
  - unfold deleteProject. split_handler; trivial; now apply nok_frame with db.
  - unfold addCollaborator. split_handler; trivial; now apply nok_frame with db.
  - unfold removeCollaborator. split_handler; trivial; now apply nok_frame with db.
  - unfold put, put_with. split_handler; trivial; now apply nok_frame with db.
  - unfold remove, remove_with. split_handler; trivial; now apply nok_frame with db.
  - now apply createBranch_nok.
  - now apply updateBranch_nok.
  - now apply deleteBranch_nok.
Qed.

End BranchNames.

Lemma reachable_nok (db : Db) : reachable db -> namesOk db.
Proof.
  intros Hreach.
  enough (branchesOk db /\ namesOk db) by tauto.
  revert db Hreach. apply (reachable_ind (fun db => branchesOk db /\ namesOk db)).
  - split; [now apply reachable_ok; exists [] |].
    split; [intros b [] | intros a b []].
  - intros db env r _ [Ok Nok]. split; [now apply serve_ok | now apply serve_nok].
Qed.

Lemma find_filter_head {A : Type} (f : A -> bool) (l : list A) (x : A) :
  filter f l = [x] -> find f l = Some x.
Proof.
  induction l as [| y l IH]; simpl; [discriminate |].
  destruct (f y); [now intros [= ->] | exact IH].
Qed.

Lemma findBranch_unique (db : Db) (b : Branch.t) :
  namesOk db -> In b (branches db) ->
  findBranch db (Branch.project b) (Branch.name b) = Some b.
Proof.
  intros [_ Huniq] Hin.
  destruct (findBranch db (Branch.project b) (Branch.name b)) as [b' |] eqn:F.
  - apply findBranch_In in F as (Hin' & Hp & Hn). f_equal. now apply Huniq.
  - exfalso. now apply (findBranch_none db _ _ b F).
Qed.

Lemma main_is_default (db : Db) (p : Project.t) :
  reachable db -> In p (projects db) ->
  exists b,
    defaultBranches db (Project._id p) = [b]
    /\ findBranch db (Project._id p) "main" = Some b
    /\ Branch.name b = "main" /\ Branch.isDefault b = true
    /\ Branch.project b = Project._id p.
Proof.
  intros Hreach Hp.
  destruct (reachable_ok db Hreach) as (_ & _ & _ & Hdef).
  pose proof (reachable_nok db Hreach) as Nok.
  destruct (Hdef p Hp) as [b Hb]. exists b.
  assert (In b (filter (isDefaultOf (Project._id p)) (branches db))) as Hin
    by (unfold defaultBranches in Hb; rewrite Hb; now left).
  apply filter_In in Hin as [Hin Hd]. unfold isDefaultOf in Hd.
  apply andb_true_iff in Hd as [Hproj Hd]. apply Nat.eqb_eq in Hproj.
  assert (Branch.name b = "main") as Hname by now apply (proj1 Nok).
  repeat split; trivial.
  rewrite <- Hproj, <- Hname. now apply findBranch_unique.
Qed.

(** X12. Every project of a store reached by requests has a default branch,
    and it is its branch main: [getDefault] and the lookup of the name
    main return the same branch, and no other branch of the project
    carries the flag.  No request moves the flag or renames a branch. *)
Theorem default_branch_is_main (db : Db) (p : Project.t) :
  reachable db -> In p (projects db) ->
  exists b,
    getDefault db (Project._id p) = Some b
    /\ findBranch db (Project._id p) "main" = Some b
    /\ Branch.name b = "main" /\ Branch.isDefault b = true
    /\ (forall b', In b' (branches db) -> Branch.project b' = Project._id p ->
          Branch.isDefault b' = true -> b' = b).
Proof.
  intros Hreach Hp.
  destruct (main_is_default db p Hreach Hp) as (b & Hb & Hmain & Hname & Hdef & Hproj).
  exists b. unfold getDefault. rewrite (find_filter_head _ _ _ Hb).
  repeat split; trivial.
  intros b' Hin' Hproj' Hdef'.
  assert (In b' (defaultBranches db (Project._id p))) as Hmem.
  { apply filter_In. split; [exact Hin' |]. unfold isDefaultOf.
    now rewrite Hproj', Nat.eqb_refl, Hdef'. }
  rewrite Hb in Hmem. destruct Hmem as [<- | []]. reflexivity.
Qed.

Lemma default_branch_is_main_witness :
  exists b, getDefault Scenario.forked Scenario.P = Some b /\ Branch.name b = "main".
Proof.
  assert (In Scenario.project (projects Scenario.forked)) as Hin
    by (vm_compute; now left).
  destruct (default_branch_is_main Scenario.forked Scenario.project forked_reachable Hin)
    as (b & Hb & _ & Hname & _).
  exists b. exact (conj Hb Hname).
Defined.

(** X13. In a store reached by requests a project has no two branches of
    one name: a branch is the one that the lookup of its name returns,
    and any branch of the same project and name is that branch. *)
Theorem branch_names_unique (db : Db) (a : Branch.t) :
  reachable db -> In a (branches db) ->
  findBranch db (Branch.project a) (Branch.name a) = Some a
  /\ forall b, In b (branches db) ->
       Branch.project b = Branch.project a -> Branch.name b = Branch.name a -> b = a.
Proof.
  intros Hreach Hin. pose proof (reachable_nok db Hreach) as Nok. split.
  - now apply findBranch_unique.
  - intros b Hb Hp Hn. now apply (proj2 Nok).
Qed.

Lemma forked_branches : branches Scenario.forked = [Scenario.main; Scenario.feature].
Proof. vm_compute. reflexivity. Qed.

Lemma branch_names_unique_witness :
  findBranch Scenario.forked Scenario.P "feature" = Some Scenario.feature.
Proof.
  apply (branch_names_unique Scenario.forked Scenario.feature forked_reachable).
  rewrite forked_branches. right. now left.
Defined.

(** X14. The branch main of a project is never deleted: in a store reached
    by requests [DELETE /:id/branches/main] leaves the store as it is,
    whoever asks, and the answer is not a success. *)
Theorem main_is_never_deleted (db : Db) (u projectId : ObjectId) :
  reachable db ->
  fst (deleteBranch db u projectId "main") = db
  /\ status_of (snd (deleteBranch db u projectId "main")) <> 200.
Proof.
  intros Hreach. unfold deleteBranch. simpl.
  destruct (findProject db projectId) as [p |] eqn:Hp; [| split; [reflexivity | discriminate]].
  destruct (negb (Project.hasPermission p u "admin"));
    [split; [reflexivity | discriminate] |].
  apply findProject_In in Hp as [Hin <-].
  destruct (main_is_default db p Hreach Hin) as (b & _ & -> & _ & -> & _).
  split; [reflexivity | discriminate].
Qed.

Lemma main_is_never_deleted_witness :
  fst (deleteBranch Scenario.forked Scenario.alice Scenario.P "main") = Scenario.forked.
Proof.
  apply (main_is_never_deleted Scenario.forked Scenario.alice Scenario.P forked_reachable).
Defined.

Lemma find_filter_same {A : Type} (f keep : A -> bool) (l : list A) :
  (forall x, In x l -> f x = true -> keep x = true) ->
  find f (filter keep l) = find f l.
Proof.
  induction l as [| x l IH]; simpl; intros H; [reflexivity |].
  assert (find f (filter keep l) = find f l) as IH'
    by (apply IH; intros y Hy; apply H; now right).
  destruct (keep x) eqn:K; simpl.
  - now rewrite IH'.
  - destruct (f x) eqn:F; [| exact IH'].
    rewrite (H x (or_introl eq_refl) F) in K. discriminate.
Qed.

(** X15. [DELETE /:id/branches/:branchName] answers 200 only to an admin of
    the project and for a branch that is neither the default nor
    protected.  In a store reached by requests it then removes that
    branch and nothing else: the name is free again, the other branches
    are found as before, and the projects, files and commits are
    untouched, so the files of the deleted branch are still listed and
    read under its name. *)
Theorem deleteBranch_removes_the_branch_only (db : Db) (u projectId : ObjectId)
  (name : string) :
  reachable db ->
  snd (deleteBranch db u projectId name) = Sent 200 tt ->
  let db' := fst (deleteBranch db u projectId name) in
  (exists p b,
     findProject db projectId = Some p /\ Project.hasPermission p u "admin" = true
     /\ findBranch db projectId name = Some b
     /\ Branch.isDefault b = false /\ Branch.isProtected b = false)
  /\ findBranch db' projectId name = None
  /\ (forall q n, q <> projectId \/ n <> name -> findBranch db' q n = findBranch db q n)
  /\ projects db' = projects db /\ files db' = files db /\ commits db' = commits db
  /\ (forall user path,
        getTree db' user projectId (Some name) path
        = getTree db user projectId (Some name) path)
  /\ (forall user filePath,
        getContent db' user projectId filePath (Some name)
        = getContent db user projectId filePath (Some name)).
Proof.
  intros Hreach. unfold deleteBranch.
  destruct (negb (required name && maxlength 100 name)); [discriminate |].
  destruct (findProject db projectId) as [p |] eqn:Hp; [| discriminate].
  destruct (Project.hasPermission p u "admin") eqn:Hadmin; [| discriminate]. simpl.
  destruct (findBranch db projectId name) as [b |] eqn:Hb; [| discriminate].
  destruct (Branch.isDefault b) eqn:Hd; [discriminate |].
  destruct (Branch.isProtected b) eqn:Hpr; [discriminate |].
  intros _. simpl.
  pose proof (reachable_nok db Hreach) as [_ Huniq].
  destruct (reachable_ok db Hreach) as (ND & _).
  apply findBranch_In in Hb as Hb'. destruct Hb' as (Hin & Hproj & Hname).
  split; [exists p, b; auto |].
  split; [| split].
  - unfold findBranch. simpl. apply find_nothing. intros x Hx.
    apply filter_In in Hx as [Hx Hid].
    destruct (Nat.eqb_spec (Branch.project x) projectId) as [E1 | _]; [| reflexivity].
    destruct (String.eqb_spec (Branch.name x) name) as [E2 | _]; [| reflexivity].
    assert (x = b) by (apply Huniq; trivial; congruence).
    subst x. now rewrite Nat.eqb_refl in Hid.
  - intros q n Hne. unfold findBranch. simpl. apply find_filter_same.
    intros x Hx Hkey. apply andb_true_iff in Hkey as [E1 E2].
    apply Nat.eqb_eq in E1. apply String.eqb_eq in E2.
    destruct (Nat.eqb_spec (Branch._id x) (Branch._id b)) as [E | _]; [| reflexivity].
    assert (x = b) by now apply (NoDup_id_inj (branches db)).
    subst x. exfalso. destruct Hne as [Hne | Hne]; apply Hne; congruence.
  - repeat split.
Qed.

Lemma deleteBranch_removes_the_branch_only_witness :
  snd (deleteBranch Scenario.forked Scenario.alice Scenario.P "feature") = Sent 200 tt
  /\ files (fst (deleteBranch Scenario.forked Scenario.alice Scenario.P "feature"))
     = files Scenario.forked.
Proof.
  assert (snd (deleteBranch Scenario.forked Scenario.alice Scenario.P "feature")
          = Sent 200 tt) as Hsent by (vm_compute; reflexivity).
  split; [exact Hsent |].
  apply (deleteBranch_removes_the_branch_only Scenario.forked Scenario.alice Scenario.P
           "feature" forked_reachable Hsent).
Defined.

Lemma replace_self (this b0 : Branch.t) (l : list Branch.t) :
  In b0 l -> Branch._id b0 = Branch._id this -> In this (Branch.replace this l).
Proof.
  intros Hin E. unfold Branch.replace. apply in_map_iff. exists b0.
  apply Nat.eqb_eq in E. now rewrite E.
Qed.

(** X16. [PATCH /:id/branches/:branchName] changes the protection and the
    description of a branch and nothing else: the branch keeps its name,
    its project, its default flag, its last commit and its statistics,
    and the lookup of its name returns the updated branch.  While the
    branch is protected, its deletion is refused to everybody. *)
Theorem updateBranch_sets_protection_only (db db' : Db) (u : ObjectId)
  (req : BranchUpdate) (b' : Branch.t) :
  reachable db ->
  updateBranch db u req = (db', Sent 200 b') ->
  (exists b,
     findBranch db (up_projectId req) (up_branchName req) = Some b
     /\ Branch._id b' = Branch._id b /\ Branch.project b' = Branch.project b
     /\ Branch.name b' = Branch.name b /\ Branch.isDefault b' = Branch.isDefault b
     /\ Branch.lastCommit b' = Branch.lastCommit b /\ Branch.stats b' = Branch.stats b
     /\ Branch.isProtected b' = or_else (up_protected req) (Branch.isProtected b))
  /\ findBranch db' (up_projectId req) (up_branchName req) = Some b'
  /\ projects db' = projects db /\ files db' = files db /\ commits db' = commits db
  /\ (Branch.isProtected b' = true ->
      forall v,
        fst (deleteBranch db' v (up_projectId req) (up_branchName req)) = db'
        /\ status_of (snd (deleteBranch db' v (up_projectId req) (up_branchName req)))
           <> 200).
Proof.
  intros Hreach Hupd.
  assert (reachable db') as Hreach'.
  { replace db' with (serve db Scenario.env1 (UpdateBranch u req))
      by (simpl; now rewrite Hupd).
    now apply reachable_serve. }
  revert Hupd. unfold updateBranch.
  destruct (negb (required (up_branchName req) && _)); [discriminate |].
  destruct (findProject db (up_projectId req)) as [p |] eqn:Hp; [| discriminate].
  destruct (negb (Project.hasPermission p u "admin")); [discriminate |].
  destruct (findBranch db (up_projectId req) (up_branchName req)) as [b |] eqn:Hb;
    [| discriminate].
  set (b2 := match up_description req with
             | Some d => Branch.with_description (Some d) _
             | None => _
             end).
  unfold Branch.save. rewrite pre_save_unmodified.
  destruct (Branch.validate b2); [discriminate |].
  intros H. injection H as <- <-.
  apply findBranch_In in Hb as Hb'. destruct Hb' as (Hin & Hproj & Hname).
  assert (Branch._id b2 = Branch._id b /\ Branch.project b2 = Branch.project b
          /\ Branch.name b2 = Branch.name b /\ Branch.isDefault b2 = Branch.isDefault b
          /\ Branch.lastCommit b2 = Branch.lastCommit b /\ Branch.stats b2 = Branch.stats b
          /\ Branch.isProtected b2 = or_else (up_protected req) (Branch.isProtected b))
    as (Eid & Epr & Ena & Ede & Elc & Est & Epro).
  { unfold b2. destruct (up_description req), (up_protected req); simpl; auto 10. }
  assert (findBranch (with_branches (Branch.replace b2 (branches db)) db)
            (up_projectId req) (up_branchName req) = Some b2) as Hfound.
  { rewrite <- Hproj, <- Hname, <- Epr, <- Ena.
    apply findBranch_unique; [now apply reachable_nok |].
    simpl. now apply (replace_self b2 b). }
  split; [exists b; auto 10 |].
  split; [exact Hfound |].
  repeat split.
  - unfold deleteBranch. rewrite Hfound.
    destruct (negb (required (up_branchName req) && _)); [reflexivity |].
    destruct (findProject _ _); [| reflexivity].
    destruct (negb _); [reflexivity |].
    destruct (Branch.isDefault b2); [reflexivity |]. now rewrite H.
  - unfold deleteBranch. rewrite Hfound.
    destruct (negb (required (up_branchName req) && _)); [discriminate |].
    destruct (findProject _ _); [| discriminate].
    destruct (negb _); [discriminate |].
    destruct (Branch.isDefault b2); [discriminate |]. rewrite H. discriminate.
Qed.

Lemma updateBranch_sets_protection_only_witness :
  let req := {| up_projectId := Scenario.P; up_branchName := "feature";
                up_protected := Some true; up_description := None |} in
  let db' := fst (updateBranch Scenario.forked Scenario.alice req) in
  fst (deleteBranch db' Scenario.alice Scenario.P "feature") = db'.
Proof.
  intros req db'.
  assert (updateBranch Scenario.forked Scenario.alice req
          = (db', Sent 200 (Branch.with_isProtected true Scenario.feature))) as Hupd
    by (vm_compute; reflexivity).
  destruct (updateBranch_sets_protection_only Scenario.forked db' Scenario.alice req _
              forked_reachable Hupd) as (_ & _ & _ & _ & _ & Hkept).
  apply (Hkept eq_refl Scenario.alice).
Defined.

(** ** The list of the branches (routes/projects.js) *)

Lemma leb_total (s t : string) : Js.leb s t = false -> Js.leb t s = true.
Proof.
  unfold Js.leb. rewrite (String.compare_antisym t s).
  destruct (String.compare s t); simpl; congruence.
Qed.

Lemma branch_order_total (a b : Branch.t) :
  branch_order a b = false -> branch_order b a = true.
Proof.
  unfold branch_order.
  destruct (Branch.isDefault a), (Branch.isDefault b); intros H;
    try discriminate; trivial; now apply leb_total.
Qed.

Lemma branch_order_trans (a b c : Branch.t) :
  branch_order a b = true -> branch_order b c = true -> branch_order a c = true.
Proof.
  unfold branch_order.
  destruct (Branch.isDefault a), (Branch.isDefault b), (Branch.isDefault c);
    intros H1 H2; try discriminate; trivial; now apply (leb_trans _ _ _ H1).
Qed.

Lemma sorted_weaken {A : Type} (R R' : A -> A -> Prop) (l : list A) :
  (forall a b, In a l -> In b l -> R a b -> R' a b) ->
  StronglySorted R l -> StronglySorted R' l.
Proof.
  intros H S. induction S as [| x l S IH F]; constructor.
  - apply IH. intros a b Ha Hb. apply H; now right.
  - apply Forall_forall. intros y Hy. apply H; [now left | now right |].
    now apply (proj1 (Forall_forall _ _) F).
Qed.

(** X17. [GET /:id/branches] lists the branches of the project, each once,
    and in a store reached by requests the list starts with the default
    branch, which is main; the other branches follow in the order of
    their names. *)
Theorem getBranches_default_first (db : Db) (user : option ObjectId)
  (projectId : ObjectId) (listing : list Branch.t) :
  reachable db ->
  getBranches db user projectId = Sent 200 listing ->
  Permutation listing
    (filter (fun b => (Branch.project b =? projectId)%nat) (branches db))
  /\ exists main rest,
       listing = main :: rest
       /\ Branch.name main = "main" /\ Branch.isDefault main = true
       /\ (forall b, In b rest -> Branch.isDefault b = false)
       /\ StronglySorted (fun a b => Js.leb (Branch.name a) (Branch.name b) = true) rest.
Proof.
  intros Hreach. unfold getBranches.
  destruct (findProject db projectId) as [p |] eqn:Hp; [| discriminate].
  destruct (denied p user); [discriminate |].
  intros H. injection H as <-.
  set (mine := filter (fun b => (Branch.project b =? projectId)%nat) (branches db)).
  pose proof (sort_by_perm branch_order mine) as Hperm.
  pose proof (sort_by_sorted branch_order branch_order_total branch_order_trans mine)
    as Hsorted.
  split; [exact Hperm |].
  apply findProject_In in Hp as [Hin <-].
  destruct (main_is_default db p Hreach Hin) as (d & Hd' & Hmain & Hname & Hdef & Hproj).
  destruct (reachable_ok db Hreach) as (ND & _).
  assert (In d mine) as Hdmine.
  { apply filter_In. split.
    - now apply findBranch_In in Hmain.
    - now apply Nat.eqb_eq. }
  assert (forall b, In b mine -> Branch.isDefault b = true -> b = d) as Honly.
  { intros b Hb Hbd. apply filter_In in Hb as [Hb Hbp].
    assert (In b (defaultBranches db (Project._id p))) as Hbin.
    { apply filter_In. split; [exact Hb |]. unfold isDefaultOf. now rewrite Hbp, Hbd. }
    rewrite Hd' in Hbin. destruct Hbin as [<- | []]. reflexivity. }
  assert (NoDup mine) as NDmine.
  { apply NoDup_filter. now apply NoDup_map_inv with (f := Branch._id). }
  assert (NoDup (sort_by branch_order mine)) as NDsorted
    by (apply (Permutation_NoDup (Permutation_sym Hperm)), NDmine).
  assert (forall x, In x (sort_by branch_order mine) <-> In x mine) as Hmem
    by (intros x; apply sort_by_In).
  destruct (sort_by branch_order mine) as [| main rest] eqn:Hs.
  - apply Hmem in Hdmine. destruct Hdmine.
  - exists main, rest. split; [reflexivity |].
    inversion Hsorted as [| ? ? Srest Fmain]; subst.
    inversion NDsorted as [| ? ? Hnotin NDrest]; subst.
    assert (main = d) as ->.
    { apply Hmem in Hdmine. destruct Hdmine as [E | Hd]; [exact E |].
      apply (proj1 (Forall_forall _ _) Fmain) in Hd. unfold branch_order in Hd.
      rewrite Hdef in Hd. destruct (Branch.isDefault main) eqn:Hm; [| discriminate].
      apply Honly; trivial. apply Hmem. now left. }
    assert (forall b, In b rest -> Branch.isDefault b = false) as Hrest.
    { intros b Hb. destruct (Branch.isDefault b) eqn:Hbd; [| reflexivity].
      exfalso. apply Hnotin.
      assert (b = d) as <- by (apply Honly; trivial; apply Hmem; now right).
      exact Hb. }
    repeat split; trivial.
    apply (sorted_weaken (fun a b => branch_order a b = true)); [| exact Srest].
    intros a b Ha Hb. unfold branch_order.
    now rewrite (Hrest a Ha), (Hrest b Hb).
Qed.

Lemma getBranches_default_first_witness :
  getBranches Scenario.forked None Scenario.P = Sent 200 [Scenario.main; Scenario.feature]
  /\ Permutation [Scenario.main; Scenario.feature]
       (filter (fun b => (Branch.project b =? Scenario.P)%nat) (branches Scenario.forked)).
Proof.
  assert (getBranches Scenario.forked None Scenario.P
          = Sent 200 [Scenario.main; Scenario.feature]) as Hget
    by (vm_compute; reflexivity).
  split; [exact Hget |].
  apply (getBranches_default_first Scenario.forked None Scenario.P _
           forked_reachable Hget).
Defined.

(** ** The writes to the file collection *)

Lemma steps_one (db db' : Db) : Step db db' -> Steps db db'.
Proof. intros H. apply steps_step with db; [constructor | exact H]. Qed.

Lemma steps_trans (db mid db' : Db) : Steps db mid -> Steps mid db' -> Steps db db'.
Proof.
  intros H1 H2. induction H2 as [| ? ? ? _ IH S]; [exact H1 |].
  apply steps_step with mid; [now apply IH | exact S].
Qed.

Lemma steps_moved (db x y : Db) :
  Steps db x -> files y = files x -> nextId x <= nextId y -> Steps db y.
Proof.
  intros H Ef Hn. apply steps_step with x; [exact H | now apply step_none].
Qed.

Lemma file_save_new_ok (this this' : File.t) (l l' : list File.t) :
  File.save_new this l = (l', this', None) ->
  File.validate this = None /\ this' = File.pre_save true true this
  /\ l' = (l ++ [this'])%list.
Proof.
  unfold File.save_new. destruct (File.validate this); [discriminate |].
  intros H. now inversion H.
Qed.

Lemma file_save_ok (loaded m : bool) (this this' : File.t) (l l' : list File.t) :
  File.save loaded m this l = (l', this', None) ->
  File.validate_modified loaded m this = None /\ this' = File.pre_save false m this
  /\ l' = File.replace this' l.
Proof.
  unfold File.save. destruct (File.validate_modified loaded m this); [discriminate |].
  intros H. now inversion H.
Qed.

Lemma file_save_failed (loaded m : bool) (this this' : File.t) (l l' : list File.t)
  (e : SaveError) :
  File.save loaded m this l = (l', this', Some e) -> l' = l.
Proof.
  unfold File.save. destruct (File.validate_modified loaded m this);
    intros H; now inversion H.
Qed.

Lemma file_save_new_failed (this this' : File.t) (l l' : list File.t) (e : SaveError) :
  File.save_new this l = (l', this', Some e) -> l' = l.
Proof.
  unfold File.save_new. destruct (File.validate this); intros H; now inversion H.
Qed.

Ltac saved_fields :=
  rewrite ?file_pre_save_id, ?file_pre_save_project, ?file_pre_save_branch,
    ?file_pre_save_path, ?file_pre_save_name, ?file_pre_save_isDeleted.

Lemma step_fok (db db' : Db) : filesOk db -> Step db db' -> filesOk db'.
Proof.
  intros Ok [Ef Hn | f0 g loaded m Hin Hlive Hedit _ Ef Hn
             | id pr na pa co br Hid _ Ef | id pr na s Hin Hlive Hid _ Ef].
  - now apply fok_frame with db.
  - apply fok_replace with (db := db) (this := File.pre_save false m g) (f0 := f0);
      trivial; saved_fields; now destruct Hedit.
  - apply fok_append with (db := db) (f := File.pre_save true true (File.new id pr na pa co br));
      trivial; saved_fields; simpl; trivial; apply cast_idempotent.
  - apply fok_append with (db := db) (f := File.pre_save true true (copyOf id pr na s));
      trivial; saved_fields; simpl; trivial; apply cast_idempotent.
Qed.

Lemma steps_fok (db db' : Db) : filesOk db -> Steps db db' -> filesOk db'.
Proof.
  intros Ok H. induction H as [| ? ? ? _ IH S]; [exact Ok |].
  apply step_fok with mid; [now apply IH | exact S].
Qed.

Lemma commit_without_hash (env : Env) (id projectId author : ObjectId)
  (message branch : string) (changes : list Commit.Change) (l : list Commit.t) :
  Commit.save env (Commit.new id projectId message author branch changes) l
  = (l, Commit.new id projectId message author branch changes,
     Some (ValidationError "hash")).
Proof. reflexivity. Qed.

Lemma live_at_live (p : ObjectId) (n d b : string) (f : File.t) :
  File.live_at p n d b f = true -> File.isDeleted f = false.
Proof.
  unfold File.live_at. rewrite !andb_true_iff, negb_true_iff. tauto.
Qed.

Section FileSteps.

#[local] Arguments Branch.save : simpl never.
#[local] Arguments Branch.save_new : simpl never.
#[local] Arguments Branch.updateStats : simpl never.
#[local] Arguments Branch.createMain : simpl never.
#[local] Arguments File.save : simpl never.
#[local] Arguments File.save_new : simpl never.
#[local] Arguments File.pre_save : simpl never.
#[local] Arguments File.validate : simpl never.
#[local] Arguments File.validate_modified : simpl never.
#[local] Arguments File.cast : simpl never.
#[local] Arguments Commit.save : simpl never.
#[local] Arguments copyFiles : simpl never.

Ltac no_write := apply steps_one, step_none; simpl; trivial; lia.

Lemma put_steps (db : Db) (env : Env) (u : ObjectId) (req : PutRequest) :
  Steps db (fst (put db env u req)).
Proof.
  unfold put, put_with.
  destruct (negb _); [constructor |].
  destruct (findProject db (put_projectId req)); [| constructor].
  destruct (negb _); [constructor |].
  destruct (parsePath (put_filePath req)) as [dirPath fileName].
  destruct (find _ (files db)) as [f0 |] eqn:Hfind.
  - apply find_some in Hfind as [Hin Hlive]. apply live_at_live in Hlive.
    destruct (File.save _ _ _ (files db)) as [[files1 file1] [e |]] eqn:Hsave; simpl.
    + constructor.
    + rewrite ?commit_without_hash; simpl.
      apply file_save_ok in Hsave as (Hv & -> & ->).
      apply steps_one.
      apply step_edit with (f0 := f0) (g := File.with_content (put_content req) f0)
                           (loaded := true)
                           (m := negb (File.content f0 =? put_content req));
        simpl; trivial; [constructor | lia].
  - destruct (File.save_new _ (files db)) as [[files1 file1] [e |]] eqn:Hsave; simpl.
    + no_write.
    + rewrite ?commit_without_hash; simpl.
      apply file_save_new_ok in Hsave as (Hv & -> & ->).
      apply steps_one.
      eapply step_new with (id := nextId db); simpl; eauto; lia.
Qed.

Lemma remove_steps (db : Db) (env : Env) (u : ObjectId) (req : DeleteRequest) :
  Steps db (fst (remove db env u req)).
Proof.
  unfold remove, remove_with.
  destruct (negb _); [constructor |].
  destruct (findProject db (del_projectId req)); [| constructor].
  destruct (negb _); [constructor |].
  destruct (parsePath (del_filePath req)) as [dirPath fileName].
  destruct (find _ (files db)) as [f0 |] eqn:Hfind; [| constructor].
  apply find_some in Hfind as [Hin Hlive]. apply live_at_live in Hlive.
  destruct (File.save _ _ _ (files db)) as [[files1 file1] [e |]] eqn:Hsave; simpl.
  - constructor.
  - rewrite ?commit_without_hash; simpl.
    apply file_save_ok in Hsave as (Hv & -> & ->).
    apply steps_one.
    apply step_edit with (f0 := f0) (g := File.with_isDeleted true f0)
                         (loaded := true) (m := false);
      simpl; trivial; [constructor | lia].
Qed.

Lemma copyFiles_steps (projectId : ObjectId) (name : string) (sourceFiles : list File.t) :
  forall (db : Db) (files' : list File.t) (next' : ObjectId) (e : option SaveError),
    (forall s, In s sourceFiles -> In s (files db) /\ File.isDeleted s = false) ->
    copyFiles projectId name sourceFiles (files db) (nextId db) = (files', next', e) ->
    Steps db (with_nextId next' (with_files files' db)).
Proof.
  induction sourceFiles as [| s rest IH]; intros db files' next' e Hsrc; simpl.
  - intros H. inversion H; subst. no_write.
  - unfold copyFiles. fold copyFiles.
    destruct (File.save_new (copyOf (nextId db) projectId name s) (files db))
      as [[files1 file1] [err |]] eqn:Hsave.
    + intros H. inversion H; subst.
      apply file_save_new_failed in Hsave as ->. no_write.
    + apply file_save_new_ok in Hsave as (Hv & -> & ->).
      intros H.
      set (db1 := with_nextId (S (nextId db))
                    (with_files
                       (files db ++ [File.pre_save true true
                                       (copyOf (nextId db) projectId name s)])%list db)).
      apply steps_trans with db1.
      * apply steps_one.
        apply step_copy with (id := nextId db) (projectId := projectId) (name := name)
                             (s := s); simpl; trivial; try lia; apply Hsrc; now left.
      * apply steps_moved with (with_nextId next' (with_files files' db1));
          [| reflexivity | simpl; lia].
        apply (IH db1 files' next' e); [| exact H].
        intros s' Hs'. simpl. split; [| apply Hsrc; now right].
        apply in_app_iff. left. apply Hsrc. now right.
Qed.

Lemma createBranch_steps (db : Db) (env : Env) (u : ObjectId) (req : BranchRequest) :
  Steps db (fst (createBranch db env u req)).
Proof.
  unfold createBranch. cbv zeta.
  destruct (negb _); [constructor |].
  destruct (findProject db (br_projectId req)); [| constructor].
  destruct (negb _); [constructor |].
  destruct (findBranch db (br_projectId req) (br_name req)); [constructor |].
  destruct (findBranch db (br_projectId req) _); [| constructor].
  destruct (Branch.save_new false _ _) as [branches1 [e |]]; [simpl; no_write |].
  match goal with
  | |- context [copyFiles ?p ?n ?src (files ?d) (nextId ?d)] =>
      destruct (copyFiles p n src (files d) (nextId d)) as [[files1 next] e] eqn:Hcopy;
      apply copyFiles_steps in Hcopy;
      [| intros s Hs; apply filter_In in Hs as [Hs Hlive]; split; [exact Hs |];
         apply andb_true_iff in Hlive as [_ Hlive]; now apply negb_true_iff in Hlive]
  end.
  assert (Steps db (with_nextId next
                      (with_files files1
                         (with_branches branches1 (with_nextId (S (nextId db)) db)))))
    as Hsteps.
  { eapply steps_trans; [| exact Hcopy]. simpl. no_write. }
  destruct e; [exact Hsteps |].
  destruct (Branch.updateStats _ _ _) as [[branches2 branch'] [e' |]]; simpl.
  - exact Hsteps.
  - apply steps_moved with (1 := Hsteps); simpl; trivial.
Qed.

Lemma createProject_steps (db : Db) (env : Env) (u : ObjectId) (req : ProjectRequest) :
  Steps db (fst (createProject db env u req)).
Proof.
  unfold createProject. cbv zeta.
  destruct (negb _); [constructor |].
  destruct (Project.validate _); [simpl; no_write |].
  destruct (Branch.createMain _ _ _ _ _) as [[branches1 mainBranch] [e1 |]];
    [simpl; no_write |].
  destruct (File.save_new _ _) as [[files1 readmeFile] [e2 |]] eqn:Hnew.
  { apply file_save_new_failed in Hnew. simpl in *. subst. no_write. }
  apply file_save_new_ok in Hnew as (Hv & -> & ->). simpl in Hv |- *.
  set (readme := File.pre_save true true
                   (File.new (S (S (nextId db))) (nextId db) "README.md" "/"
                             (readmeOrDefault req) "main")) in *.
  set (db3 := with_nextId (S (S (S (nextId db))))
                (with_files (files db ++ [readme])%list db)).
  assert (Steps db db3) as H3.
  { apply steps_one. unfold db3, readme.
    eapply step_new with (id := S (S (nextId db))); simpl; eauto; lia. }
  destruct (Commit.save _ _ _) as [[commits' commit'] [e3 |]]; simpl.
  { apply steps_moved with (1 := H3); simpl; trivial. lia. }
  assert (Steps db
            (with_nextId (S (S (S (S (nextId db)))))
               (with_files
                  (File.replace
                     (File.pre_save false false
                        (File.with_lastCommit (Some (Commit._id commit')) readme))
                     (files db ++ [readme])%list) db))) as H6.
  { apply steps_step with db3; [exact H3 |].
    apply step_edit with (f0 := readme)
                         (g := File.with_lastCommit (Some (Commit._id commit')) readme)
                         (loaded := false) (m := false); simpl; trivial.
    - apply in_app_iff. right. now left.
    - constructor.
    - lia. }
  destruct (Branch.updateStats _ _ _) as [[branches2 mainBranch'] [e5 |]]; simpl;
    apply steps_moved with (1 := H6); simpl; trivial.
Qed.

Lemma serve_steps (db : Db) (env : Env) (r : Request) : Steps db (serve db env r).
Proof.
  destruct r; simpl.
  - apply createProject_steps.
  - unfold updateProject. split_handler; try constructor; no_write.
  - unfold deleteProject. split_handler; try constructor; no_write.
  - unfold addCollaborator. split_handler; try constructor; no_write.
  - unfold removeCollaborator. split_handler; try constructor; no_write.
  - apply put_steps.
  - apply remove_steps.
  - apply createBranch_steps.
  - unfold updateBranch. split_handler; try constructor; no_write.
  - unfold deleteBranch. split_handler; try constructor; no_write.
Qed.

End FileSteps.

Lemma file_pre_save_type (m1 m2 : bool) (f : File.t) :
  File.type (File.pre_save m1 m2 f) = File.type f.
Proof. unfold File.pre_save. now destruct m1, m2. Qed.

Lemma file_pre_save_content (m1 m2 : bool) (f : File.t) :
  File.content (File.pre_save m1 m2 f) = File.content f.
Proof. apply file_pre_save_same. Qed.

Lemma file_pre_save_size (m1 : bool) (f : File.t) :
  File.size (File.pre_save m1 true f) = String.length (File.content f).
Proof. unfold File.pre_save, File.calculateSize. now destruct m1. Qed.

Lemma file_pre_save_unmodified (f : File.t) : File.pre_save false false f = f.
Proof. reflexivity. Qed.

Lemma run_steps (trace : list (Env * Request)) (db : Db) : Steps db (run db trace).
Proof.
  revert db. induction trace as [| [env r] trace IH]; intros db; [constructor |].
  change (run db ((env, r) :: trace)) with (run (serve db env r) trace).
  apply steps_trans with (serve db env r); [apply serve_steps | apply IH].
Qed.

Lemma reachable_steps (db : Db) : reachable db -> Steps empty db.
Proof. intros [trace <-]. apply run_steps. Qed.

Lemma validate_required (g : File.t) :
  File.validate g = None ->
  required (File.path g) = true /\ required (File.name g) = true.
Proof.
  unfold File.validate.
  destruct (required (File.path g)); [| discriminate].
  destruct (maxlength 500 (File.path g)); [| discriminate].
  destruct (required (File.name g)); [| discriminate]. now split.
Qed.

Lemma step_dok (db db' : Db) : derivedOk db -> Step db db' -> derivedOk db'.
Proof.
  intros Ok [Ef Hn | f0 g loaded m Hin Hlive Hedit _ Ef Hn
             | id pr na pa co br Hid Hv Ef | id pr na s Hin Hlive Hid Hv Ef];
    unfold derivedOk; rewrite Ef.
  - exact Ok.
  - intros f Hf. apply file_replace_In in Hf as [-> | Hf]; [| now apply Ok].
    destruct (Ok f0 Hin) as (Ht & Hs & Hp & Hna).
    rewrite file_pre_save_type, file_pre_save_path, file_pre_save_name.
    destruct Hedit as [c | x |]; simpl.
    + split; [exact Ht |]. split; [| now split].
      destruct (File.content f0 =? c) eqn:E; simpl.
      * apply String.eqb_eq in E. subst c. exact Hs.
      * reflexivity.
    + auto.
    + auto.
  - intros f Hf. apply in_app_iff in Hf as [Hf | [<- | []]]; [now apply Ok |].
    rewrite file_pre_save_type, file_pre_save_size, file_pre_save_path, file_pre_save_name.
    split; [reflexivity |]. split; [reflexivity |]. now apply validate_required.
  - intros f Hf. apply in_app_iff in Hf as [Hf | [<- | []]]; [now apply Ok |].
    rewrite file_pre_save_type, file_pre_save_size, file_pre_save_path, file_pre_save_name.
    split; [apply (Ok s Hin) |]. split; [reflexivity |]. now apply validate_required.
Qed.

Lemma reachable_dok (db : Db) : reachable db -> derivedOk db.
Proof.
  intros Hreach. apply reachable_steps in Hreach.
  remember empty as start eqn:Es.
  induction Hreach as [| ? ? ? _ IH S]; subst.
  - intros f [].
  - apply step_dok with mid; [now apply IH | exact S].
Qed.

(** X18. The routes create file documents only, never a directory: in a
    store reached by requests every entry of a tree listing is a file, so
    the listing is in the order of the names, and a file is never listed
    under another path than its own. *)
Theorem tree_lists_files_by_name (db : Db) (user : option ObjectId)
  (projectId : ObjectId) (branch path : option string) (listing : list File.t) :
  reachable db ->
  getTree db user projectId branch path = Sent 200 listing ->
  (forall f, In f listing ->
     File.type f = "file"
     /\ File.path f = File.cast (match path with Some p => p | None => "/" end))
  /\ StronglySorted (fun a b => Js.leb (File.name a) (File.name b) = true) listing.
Proof.
  intros Hreach Hget. pose proof (reachable_dok db Hreach) as Dok.
  pose proof (getTree_sorted db user projectId branch path listing Hget) as Hsorted.
  assert (forall f, In f listing ->
            File.type f = "file"
            /\ File.path f = File.cast (match path with Some p => p | None => "/" end))
    as Hfiles.
  { revert Hget. unfold getTree.
    destruct (findProject db projectId) as [p |]; [| discriminate].
    destruct (denied p user); [discriminate |].
    intros H. injection H as <-. intros f Hf.
    apply sort_by_In, filter_In in Hf as [Hf Hkey].
    split; [now apply Dok |].
    rewrite !andb_true_iff in Hkey. destruct Hkey as [[[_ _] Hpath] _].
    now apply String.eqb_eq in Hpath. }
  split; [exact Hfiles |].
  apply (sorted_weaken (fun a b => File.tree_order a b = true)); [| exact Hsorted].
  intros a b Ha Hb. unfold File.tree_order.
  now rewrite (proj1 (Hfiles a Ha)), (proj1 (Hfiles b Hb)).
Qed.

Lemma tree_lists_files_by_name_witness :
  getTree Scenario.forked None Scenario.P (Some "main") None = Sent 200 [Scenario.readme]
  /\ File.type Scenario.readme = "file" /\ File.path Scenario.readme = File.cast "/".
Proof.
  assert (getTree Scenario.forked None Scenario.P (Some "main") None
          = Sent 200 [Scenario.readme]) as Hget by (vm_compute; reflexivity).
  split; [exact Hget |].
  apply (tree_lists_files_by_name Scenario.forked None Scenario.P (Some "main") None _
           forked_reachable Hget).
  now left.
Defined.




(** X19. In a store reached by requests the [size] of every file document
    is the length of its content: each save that changes the content
    computes it again, and the copy of a fork computes it for the copy. *)
Theorem stored_size_is_content_length (db : Db) (f : File.t) :
  reachable db -> In f (files db) ->
  File.size f = String.length (File.content f).
Proof. intros Hreach Hin. now apply (reachable_dok db Hreach f). Qed.

Lemma written_reachable : reachable Scenario.written.
Proof.
  exists [(Scenario.env1, CreateProject Scenario.alice Scenario.request);
          (Scenario.env2, CreateBranch Scenario.alice Scenario.fork);
          (Scenario.env3, Put Scenario.alice Scenario.write)].
  vm_compute. reflexivity.
Qed.

Lemma stored_size_is_content_length_witness :
  let f := File.with_derived (Some "md") "Markdown" 16
             (File.with_content (put_content Scenario.write) Scenario.copy) in
  File.size f = String.length (File.content f).
Proof.
  intros f. apply (stored_size_is_content_length Scenario.written f written_reachable).
  rewrite written_files. right. now left.
Defined.

Lemma sameFile_refl (f : File.t) : sameFile f f.
Proof. now repeat split. Qed.

Lemma sameFile_trans (f g h : File.t) : sameFile f g -> sameFile g h -> sameFile f h.
Proof. unfold sameFile. intuition congruence. Qed.

Lemma file_replace_maps (this f : File.t) (l : list File.t) :
  In f l -> In (if (File._id f =? File._id this)%nat then this else f) (File.replace this l).
Proof.
  intros Hin. unfold File.replace.
  exact (in_map (fun f => if (File._id f =? File._id this)%nat then this else f) l f Hin).
Qed.

Lemma step_keeps (db db' : Db) (f : File.t) :
  filesOk db -> Step db db' -> In f (files db) ->
  exists f', In f' (files db') /\ sameFile f f' /\ (File.isDeleted f = true -> f' = f).
Proof.
  intros (ND & _) [Ef Hn | f0 g loaded m Hin Hlive Hedit _ Ef Hn
                   | id pr na pa co br Hid _ Ef | id pr na s Hin Hlive Hid _ Ef] Hf;
    rewrite Ef.
  - exists f. split; [exact Hf |]. split; [apply sameFile_refl | trivial].
  - pose proof (file_replace_maps (File.pre_save false m g) f _ Hf) as Hmap.
    rewrite file_pre_save_id in Hmap.
    assert (File._id g = File._id f0) as Eg by now destruct Hedit.
    rewrite Eg in Hmap.
    destruct (Nat.eqb_spec (File._id f) (File._id f0)) as [E | N].
    + assert (f = f0) by now apply (file_id_inj (files db)).
      subst f. eexists. split; [exact Hmap |]. split.
      * unfold sameFile. saved_fields. now destruct Hedit.
      * congruence.
    + exists f. split; [exact Hmap |]. split; [apply sameFile_refl | trivial].
  - exists f. split; [apply in_app_iff; now left |].
    split; [apply sameFile_refl | trivial].
  - exists f. split; [apply in_app_iff; now left |].
    split; [apply sameFile_refl | trivial].
Qed.

Lemma steps_keep (db db' : Db) (f : File.t) :
  filesOk db -> Steps db db' -> In f (files db) ->
  exists f', In f' (files db') /\ sameFile f f' /\ (File.isDeleted f = true -> f' = f).
Proof.
  intros Ok H. induction H as [| ? ? ? H IH S]; intros Hf.
  - exists f. split; [exact Hf |]. split; [apply sameFile_refl | trivial].
  - destruct (IH Ok Hf) as (f1 & H1 & Hsame1 & Hdel1).
    destruct (step_keeps mid db' f1 (steps_fok _ _ Ok H) S H1) as (f2 & H2 & Hsame2 & Hdel2).
    exists f2. split; [exact H2 |]. split; [now apply sameFile_trans with f1 |].
    intros Hd. rewrite <- (Hdel1 Hd). apply Hdel2. now rewrite (Hdel1 Hd).
Qed.

(** X20. Deleting is soft and there is no moving: whatever requests follow,
    a file document of a store reached by requests stays in the
    collection with its id, project, branch, path and name, and once it
    is marked deleted no request changes it or brings it back. *)
Theorem files_are_never_removed (db : Db) (trace : list (Env * Request)) (f : File.t) :
  reachable db -> In f (files db) ->
  exists f',
    In f' (files (run db trace)) /\ sameFile f f'
    /\ (File.isDeleted f = true -> f' = f).
Proof.
  intros Hreach Hf.
  apply (steps_keep db (run db trace) f); trivial.
  - now apply reachable_fok.
  - apply run_steps.
Qed.

Lemma files_are_never_removed_witness :
  exists f',
    In f' (files (run Scenario.forked [(Scenario.env3, Put Scenario.alice Scenario.write)]))
    /\ sameFile Scenario.copy f'.
Proof.
  assert (In Scenario.copy (files Scenario.forked)) as Hin
    by (rewrite forked_files; right; now left).
  destruct (files_are_never_removed Scenario.forked
              [(Scenario.env3, Put Scenario.alice Scenario.write)] Scenario.copy
              forked_reachable Hin) as (f' & Hf' & Hsame & _).
  exists f'. exact (conj Hf' Hsame).
Defined.

(** ** Reading what was written (routes/files.js) *)

Lemma find_replaced (P P' : File.t -> bool) (this f0 : File.t) (l : list File.t) :
  find P l = Some f0 -> File._id this = File._id f0 -> P' this = true ->
  (forall x, P' x = true -> P x = true) ->
  find P' (File.replace this l) = Some this.
Proof.
  intros Hfind Eid Hthis Hsub. induction l as [| x l IH]; simpl in *; [discriminate |].
  destruct (Nat.eqb_spec (File._id x) (File._id this)) as [E | N].
  - now rewrite Hthis.
  - destruct (P x) eqn:Px.
    + injection Hfind as ->. congruence.
    + destruct (P' x) eqn:P'x; [| now apply IH].
      apply Hsub in P'x. congruence.
Qed.

Lemma find_appended (P P' : File.t -> bool) (this : File.t) (l : list File.t) :
  find P l = None -> P' this = true ->
  (forall x, P' x = true -> P x = true) ->
  find P' (l ++ [this]) = Some this.
Proof.
  intros Hfind Hthis Hsub. induction l as [| x l IH]; simpl in *; [now rewrite Hthis |].
  destruct (P x) eqn:Px; [discriminate |].
  destruct (P' x) eqn:P'x; [| now apply IH].
  apply Hsub in P'x. congruence.
Qed.

Lemma public_is_not_denied (p : Project.t) (user : option ObjectId) :
  Project.isPublic p = true -> denied p user = false.
Proof. intros H. unfold denied. now rewrite H. Qed.

Lemma within_limit {A : Type} (bodyLength : N) (db : Db) (route : Db * Result A) :
  (bodyLength <= bodyLimit)%N -> parsed bodyLength db route = route.
Proof.
  intros H. unfold parsed.
  destruct (N.ltb_spec bodyLimit bodyLength) as [Hlt | _]; [lia | reflexivity].
Qed.

Section ReadAfterWrite.

#[local] Arguments File.save : simpl never.
#[local] Arguments File.save_new : simpl never.
#[local] Arguments File.pre_save : simpl never.
#[local] Arguments File.validate : simpl never.
#[local] Arguments File.validate_modified : simpl never.
#[local] Arguments File.cast : simpl never.
#[local] Arguments File.live_at : simpl never.
#[local] Arguments parsePath : simpl never.

Lemma live_at_saved (p : ObjectId) (n d b : string) (m1 m2 : bool) (f : File.t) :
  File.live_at p n d b (File.pre_save m1 m2 f) = File.live_at p n d b f.
Proof. unfold File.live_at. now saved_fields. Qed.

(** X21. A file that was written can be read: when the body of the
    request is within the limit of the parser, the path is ASCII, the
    request passes the checks of the route, the project is public and
    the validators of the File schema accept the document that the route
    saves (the new file, or the stored file with the new content), then
    after
    [PUT /content/:projectId/*] the route [GET /content/:projectId/*]
    answers, for the same path and branch, with a file that holds the
    content of the request, the size being its length. *)
Theorem put_then_read (db : Db) (env : Env) (u : ObjectId) (req : PutRequest)
  (p : Project.t) (bodyLength : N) :
  reachable db ->
  (bodyLength <= bodyLimit)%N ->
  isAscii (put_filePath req) = true ->
  required (put_content req) = true ->
  required (put_message req) = true -> maxlength 500 (put_message req) = true ->
  opt_maxlength 100 (put_branch req) = true ->
  findProject db (put_projectId req) = Some p ->
  Project.isPublic p = true ->
  Project.hasPermission p u "editor" = true ->
  match find (File.live_at (put_projectId req) (snd (parsePath (put_filePath req)))
                (fst (parsePath (put_filePath req))) (or_else (put_branch req) "main"))
             (files db) with
  | Some f0 => File.validate (File.with_content (put_content req) f0) = None
  | None =>
      File.validate
        (File.new (nextId db) (put_projectId req) (snd (parsePath (put_filePath req)))
           (fst (parsePath (put_filePath req))) (put_content req)
           (or_else (put_branch req) "main")) = None
  end ->
  exists f,
    getContent (fst (parsed bodyLength db (put db env u req))) None (put_projectId req)
               (put_filePath req) (put_branch req) = Sent 200 f
    /\ File.content f = put_content req
    /\ File.size f = String.length (put_content req)
    /\ File.isDeleted f = false.
Proof.
  intros Hreach Hbody _ Hc Hm Hm' Hb Hp Hpub Hperm Hvalid.
  rewrite (within_limit _ _ _ Hbody). clear Hbody.
  pose proof (reachable_dok db Hreach) as Dok.
  destruct (parsePath (put_filePath req)) as [dirPath fileName] eqn:Hparse.
  cbn [fst snd] in Hvalid.
  unfold put, put_with, getContent. rewrite Hc, Hm, Hm', Hb, Hp, Hperm, Hparse. simpl.
  set (branch := match put_branch req with Some b => b | None => "main" end) in *.
  change (or_else (put_branch req) "main") with branch in Hvalid.
  assert (forall x,
            File.live_at (put_projectId req) fileName dirPath branch x
            && (File.type x =? "file") = true ->
            File.live_at (put_projectId req) fileName dirPath branch x = true) as Hsub
    by (intros x Hx; now apply andb_true_iff in Hx).
  destruct (find _ (files db)) as [f0 |] eqn:Hfind.
  - pose proof (find_some _ _ Hfind) as [Hin Hlive].
    unfold File.save, File.validate_modified. rewrite Hvalid. simpl.
    set (file1 := File.pre_save false _ (File.with_content (put_content req) f0)).
    exists file1. split.
    + unfold findProject in Hp |- *. simpl. rewrite Hp, (public_is_not_denied p None Hpub).
      rewrite (find_replaced _ _ file1 f0 _ Hfind); trivial.
      * unfold file1. now rewrite file_pre_save_id.
      * unfold file1. rewrite live_at_saved, file_pre_save_type. simpl.
        assert (File.live_at (put_projectId req) fileName dirPath branch
                  (File.with_content (put_content req) f0) = true) as -> by exact Hlive.
        now rewrite (proj1 (Dok f0 Hin)).
    + unfold file1. rewrite file_pre_save_content, file_pre_save_isDeleted. simpl.
      split; [reflexivity |]. split; [| now apply live_at_live in Hlive].
      destruct (File.content f0 =? put_content req) eqn:E; simpl.
      * apply String.eqb_eq in E. rewrite <- E. apply (Dok f0 Hin).
      * reflexivity.
  - unfold File.save_new. rewrite Hvalid. simpl.
    set (file1 := File.pre_save true true _).
    exists file1. split.
    + unfold findProject in Hp |- *. simpl. rewrite Hp, (public_is_not_denied p None Hpub).
      rewrite (find_appended _ _ file1 _ Hfind); trivial.
      unfold file1. rewrite live_at_saved, file_pre_save_type. simpl.
      unfold File.live_at. simpl.
      now rewrite Nat.eqb_refl, !String.eqb_refl.
    + unfold file1.
      now rewrite file_pre_save_content, file_pre_save_isDeleted, file_pre_save_size.
Qed.

Lemma forked_project : findProject Scenario.forked Scenario.P = Some Scenario.project.
Proof. vm_compute. reflexivity. Qed.

Lemma put_then_read_witness :
  exists f,
    getContent
      (fst (parsed 120 Scenario.forked
              (put Scenario.forked Scenario.env3 Scenario.alice Scenario.write)))
      None Scenario.P "README.md" (Some "feature") = Sent 200 f
    /\ File.content f = "hello" ++ newline ++ "world" ++ newline ++ "more".
Proof.
  assert (120 <= bodyLimit)%N as Hbody by (unfold bodyLimit; lia).
  assert (match find (File.live_at (put_projectId Scenario.write)
                        (snd (parsePath (put_filePath Scenario.write)))
                        (fst (parsePath (put_filePath Scenario.write)))
                        (or_else (put_branch Scenario.write) "main"))
                     (files Scenario.forked) with
          | Some f0 => File.validate (File.with_content (put_content Scenario.write) f0) = None
          | None =>
              File.validate
                (File.new (nextId Scenario.forked) (put_projectId Scenario.write)
                   (snd (parsePath (put_filePath Scenario.write)))
                   (fst (parsePath (put_filePath Scenario.write)))
                   (put_content Scenario.write)
                   (or_else (put_branch Scenario.write) "main")) = None
          end) as Hvalid by (vm_compute; reflexivity).
  destruct (put_then_read Scenario.forked Scenario.env3 Scenario.alice Scenario.write
              Scenario.project 120 forked_reachable Hbody eq_refl eq_refl eq_refl eq_refl
              eq_refl forked_project eq_refl eq_refl Hvalid) as (f & Hget & Hcontent & _).
  exists f. exact (conj Hget Hcontent).
Defined.

(** X22. A file that was deleted cannot be read: when the body of the
    request is within the limit of the parser, the path is ASCII, the
    request passes the checks of the route, the project is public, the
    path holds one live file and the validators of the File schema
    accept that document,
    then after [DELETE /content/:projectId/*] the route
    [GET /content/:projectId/*] answers 404 for that path and branch and
    the tree of the directory does not list the file, while the document
    stays in the collection, marked deleted, with its content. *)
Theorem remove_then_read (db : Db) (env : Env) (u : ObjectId) (req : DeleteRequest)
  (p : Project.t) (f0 : File.t) (bodyLength : N) :
  reachable db ->
  (bodyLength <= bodyLimit)%N ->
  isAscii (del_filePath req) = true ->
  required (del_message req) = true -> maxlength 500 (del_message req) = true ->
  opt_maxlength 100 (del_branch req) = true ->
  findProject db (del_projectId req) = Some p ->
  Project.isPublic p = true ->
  Project.hasPermission p u "editor" = true ->
  In f0 (files db) ->
  (forall f, In f (files db) ->
     File.live_at (del_projectId req) (snd (parsePath (del_filePath req)))
       (fst (parsePath (del_filePath req))) (or_else (del_branch req) "main") f = true
     <-> f = f0) ->
  File.validate (File.with_isDeleted true f0) = None ->
  let db' := fst (parsed bodyLength db (remove db env u req)) in
  getContent db' None (del_projectId req) (del_filePath req) (del_branch req)
  = Failed 404 "File not found"
  /\ (forall listing,
        getTree db' None (del_projectId req) (del_branch req)
                (Some (fst (parsePath (del_filePath req)))) = Sent 200 listing ->
        forall f, In f listing -> File._id f <> File._id f0)
  /\ In (File.with_isDeleted true f0) (files db').
Proof.
  intros Hreach Hbody _ Hm Hm' Hb Hp Hpub Hperm Hin Honly Hvalid.
  rewrite (within_limit _ _ _ Hbody). clear Hbody.
  destruct (reachable_fok db Hreach) as (ND & _).
  destruct (parsePath (del_filePath req)) as [dirPath fileName] eqn:Hparse.
  simpl in Honly.
  set (branch := match del_branch req with Some b => b | None => "main" end) in *.
  change (or_else (del_branch req) "main") with branch in Honly.
  assert (find (File.live_at (del_projectId req) fileName dirPath branch) (files db)
          = Some f0) as Hfind.
  { destruct (find _ (files db)) as [f |] eqn:F.
    - apply find_some in F as [Hf Hlive]. f_equal. now apply Honly.
    - exfalso. apply (find_none _ _ F) in Hin as Hno.
      rewrite (proj2 (Honly f0 Hin) eq_refl) in Hno. discriminate. }
  assert (forall f, In f (File.replace (File.with_isDeleted true f0) (files db)) ->
            File.live_at (del_projectId req) fileName dirPath branch f = false) as Hnone.
  { intros f Hf. unfold File.replace in Hf. apply in_map_iff in Hf as [x [Hx Hxin]].
    destruct (Nat.eqb_spec (File._id x) (File._id (File.with_isDeleted true f0)))
      as [E | N]; subst f.
    - unfold File.live_at. simpl. now rewrite andb_false_r.
    - destruct (File.live_at _ _ _ _ x) eqn:L; [| reflexivity].
      apply Honly in L; trivial. subst x. now elim N. }
  unfold remove, remove_with, getContent. rewrite Hm, Hm', Hb, Hp, Hperm, !Hparse. simpl.
  fold branch. rewrite Hfind.
  unfold File.save, File.validate_modified. rewrite Hvalid. simpl.
  rewrite file_pre_save_unmodified.
  split; [| split].
  - unfold findProject in *. simpl. rewrite Hp, (public_is_not_denied p None Hpub).
    rewrite find_nothing; [reflexivity |].
    intros f Hf. now rewrite (Hnone f Hf).
  - intros listing. unfold getTree, findProject in *. simpl.
    rewrite Hp, (public_is_not_denied p None Hpub).
    intros H. injection H as <-. intros f Hf.
    apply sort_by_In, filter_In in Hf as [Hf Hkey].
    intros Eid.
    apply in_map_iff in Hf as [x [Hx Hxin]].
    destruct (Nat.eqb_spec (File._id x) (File._id (File.with_isDeleted true f0)))
      as [E | N]; subst f.
    + simpl in Hkey. now rewrite andb_false_r in Hkey.
    + now elim N.
  - apply (file_replace_self _ f0); trivial.
Qed.

Lemma remove_then_read_witness :
  let req := {| del_projectId := Scenario.P; del_filePath := "README.md";
                del_message := "Drop it"; del_branch := Some "feature" |} in
  getContent
    (fst (parsed 60 Scenario.forked
            (remove Scenario.forked Scenario.env3 Scenario.alice req)))
    None (del_projectId req) (del_filePath req) (del_branch req)
  = Failed 404 "File not found".
Proof.
  intros req.
  assert (60 <= bodyLimit)%N as Hbody by (unfold bodyLimit; lia).
  assert (In Scenario.copy (files Scenario.forked)) as Hin
    by (rewrite forked_files; right; now left).
  assert (forall f, In f (files Scenario.forked) ->
            File.live_at (del_projectId req) (snd (parsePath (del_filePath req)))
              (fst (parsePath (del_filePath req))) (or_else (del_branch req) "main") f = true
            <-> f = Scenario.copy) as Honly.
  { intros f. rewrite forked_files. intros [<- | [<- | []]]; split; intros H;
      try reflexivity; discriminate. }
  exact (proj1 (remove_then_read Scenario.forked Scenario.env3 Scenario.alice req
                  Scenario.project Scenario.copy 60 forked_reachable Hbody
                  eq_refl eq_refl eq_refl eq_refl forked_project eq_refl eq_refl
                  Hin Honly eq_refl)).
Defined.

End ReadAfterWrite.

(** X23. A file that can be read is listed: the file that
    [GET /content/:projectId/*] returns for a path is an entry of the tree
    that [GET /tree/:projectId] returns for the directory of that path on
    the same branch, under the name of the path. *)
Theorem read_file_is_listed (db : Db) (user : option ObjectId) (projectId : ObjectId)
  (filePath : string) (branch : option string) (f : File.t) :
  getContent db user projectId filePath branch = Sent 200 f ->
  exists listing,
    getTree db user projectId branch (Some (fst (parsePath filePath))) = Sent 200 listing
    /\ In f listing
    /\ File.name f = File.cast (snd (parsePath filePath))
    /\ File.type f = "file".
Proof.
  unfold getContent, getTree.
  destruct (findProject db projectId) as [p |]; [| discriminate].
  destruct (denied p user); [discriminate |].
  destruct (parsePath filePath) as [dirPath fileName]. simpl.
  destruct (find _ (files db)) as [file |] eqn:Hfind; [| discriminate].
  intros H. injection H as ->.
  apply find_some in Hfind as [Hin Hkey].
  unfold File.live_at in Hkey. rewrite !andb_true_iff in Hkey.
  destruct Hkey as [[[[[Hp Hn] Hd] Hb] Hl] Ht].
  eexists. split; [reflexivity |]. split; [| split].
  - apply sort_by_In, filter_In. split; [exact Hin |].
    now rewrite Hp, Hb, Hd, Hl.
  - now apply String.eqb_eq.
  - now apply String.eqb_eq.
Qed.

Lemma read_file_is_listed_witness :
  exists listing,
    getTree Scenario.forked None Scenario.P (Some "feature") (Some "/") = Sent 200 listing
    /\ In Scenario.copy listing.
Proof.
  assert (getContent Scenario.forked None Scenario.P "README.md" (Some "feature")
          = Sent 200 Scenario.copy) as Hget by (vm_compute; reflexivity).
  destruct (read_file_is_listed Scenario.forked None Scenario.P "README.md"
              (Some "feature") Scenario.copy Hget) as (listing & Htree & Hin & _).
  exists listing. exact (conj Htree Hin).
Defined.

(** ** The pages of the history (routes/commits.js) *)

Lemma firstn_add {A : Type} (a b : nat) (l : list A) :
  firstn (a + b) l = (firstn a l ++ firstn b (skipn a l))%list.
Proof.
  revert l. induction a as [| a IH]; intros l; simpl; [reflexivity |].
  destruct l as [| x l]; simpl.
  - now rewrite firstn_nil.
  - now rewrite IH.
Qed.

Lemma In_firstn {A : Type} (n : nat) (l : list A) (x : A) : In x (firstn n l) -> In x l.
Proof.
  revert l. induction n as [| n IH]; intros [| y l]; simpl; try tauto.
  intros [-> | H]; [now left | right; now apply IH].
Qed.

Lemma In_skipn {A : Type} (n : nat) (l : list A) (x : A) : In x (skipn n l) -> In x l.
Proof.
  revert l. induction n as [| n IH]; intros [| y l]; simpl; try tauto.
  intros H. right. now apply IH.
Qed.

Lemma history_page (db : Db) (user : option ObjectId) (projectId : ObjectId)
  (q : HistoryQuery) (p : Project.t) (k limit : nat) :
  findProject db projectId = Some p -> denied p user = false ->
  history db user projectId (paged q (S k) limit)
  = Sent 200 (limited limit (skipn (k * limit) (selected db projectId q)),
              List.length (selected db projectId q)).
Proof.
  intros Hp Hd. unfold history, selected. rewrite Hp, Hd. simpl.
  unfold or_else.
  assert (forall b, filter (historyFilter projectId b (paged q (S k) limit)) (commits db)
                    = filter (historyFilter projectId b q) (commits db)) as Hf
    by reflexivity.
  rewrite !Hf. do 2 f_equal.
  symmetry. apply Permutation_length, sort_by_perm.
Qed.

(** X24. [GET /:projectId] pages through the commits that the query selects,
    newest first: with a limit above zero page k holds at most that many
    commits, the pages 1 to n put end to end are the first n times limit
    of the selected commits, every page reports the same total, and a
    limit of zero puts them all on page one.  Page zero is an error. *)
Theorem history_pages_partition (db : Db) (user : option ObjectId)
  (projectId : ObjectId) (q : HistoryQuery) (p : Project.t) (limit : nat) :
  findProject db projectId = Some p -> denied p user = false -> 0 < limit ->
  (forall k, 0 < k ->
     exists page,
       history db user projectId (paged q k limit)
       = Sent 200 (page, List.length (selected db projectId q))
       /\ List.length page <= limit
       /\ forall c, In c page ->
            In c (commits db) /\ Commit.project c = projectId
            /\ Commit.branch c = or_else (q_branch q) "main")
  /\ (forall n,
        List.concat
          (map (fun k => pageOf (history db user projectId (paged q k limit))) (seq 1 n))
        = firstn (n * limit) (selected db projectId q))
  /\ StronglySorted (fun a b => (Commit.createdAt b <= Commit.createdAt a)%N)
       (selected db projectId q)
  /\ history db user projectId (paged q 1 0)
     = Sent 200 (selected db projectId q, List.length (selected db projectId q))
  /\ history db user projectId (paged q 0 limit) = Failed 500 "Error retrieving commits".
Proof.
  intros Hp Hd Hlimit. split; [| split; [| split; [| split]]].
  - intros [| k] Hk; [lia |]. eexists.
    split; [now apply (history_page db user projectId q p) |].
    destruct limit as [| limit]; [lia |]. cbv beta iota delta [limited]. split.
    + apply firstn_le_length.
    + intros c Hc. apply In_firstn, In_skipn in Hc. unfold selected in Hc.
      apply sort_by_In, filter_In in Hc as [Hin Hkey]. unfold historyFilter in Hkey.
      rewrite !andb_true_iff, Nat.eqb_eq, String.eqb_eq in Hkey. tauto.
  - intros n. induction n as [| n IH]; [reflexivity |].
    rewrite seq_S, map_app, concat_app, IH. simpl.
    rewrite (history_page db user projectId q p n limit Hp Hd). simpl.
    rewrite app_nil_r. destruct limit as [| limit]; [lia |]. cbv beta iota delta [limited].
    rewrite <- firstn_add. f_equal. lia.
  - apply (sorted_weaken (fun a b => Commit.newest_first a b = true)).
    + intros a b _ _ H. now apply N.leb_le.
    + apply sort_by_sorted; unfold Commit.newest_first.
      * intros a b H. apply N.leb_gt in H. apply N.leb_le. lia.
      * intros a b c H1 H2. apply N.leb_le in H1, H2. apply N.leb_le. lia.
  - rewrite (history_page db user projectId q p 0 0 Hp Hd). reflexivity.
  - unfold history. rewrite Hp, Hd. reflexivity.
Qed.

Lemma history_pages_partition_witness :
  List.concat
    (map (fun k => pageOf (history Scenario.forked None Scenario.P
                             (paged RoundTrip.allOfMain k 5))) (seq 1 2))
  = firstn (2 * 5) (selected Scenario.forked Scenario.P RoundTrip.allOfMain).
Proof.
  assert (0 < 5) as Hlimit by lia.
  exact (proj1 (proj2 (history_pages_partition Scenario.forked None Scenario.P
                         RoundTrip.allOfMain Scenario.project 5 forked_project eq_refl
                         Hlimit)) 2).
Defined.

(** ** The comparison of two commits (routes/commits.js) *)

Lemma fold_totals (l : list Commit.t) (f a d : nat) :
  fold_left
    (fun acc commit =>
       let '(f, a, d) := acc in
       (f + Commit.filesChanged (Commit.stats commit),
        a + Commit.totalLinesAdded (Commit.stats commit),
        d + Commit.totalLinesDeleted (Commit.stats commit)))
    l (f, a, d)
  = (f + list_sum (map (fun c => Commit.filesChanged (Commit.stats c)) l),
     a + list_sum (map (fun c => Commit.totalLinesAdded (Commit.stats c)) l),
     d + list_sum (map (fun c => Commit.totalLinesDeleted (Commit.stats c)) l)).
Proof.
  revert f a d. induction l as [| c l IH]; intros f a d; simpl.
  - now rewrite !Nat.add_0_r.
  - rewrite IH. f_equal; [f_equal |]; lia.
Qed.

Lemma matches_prefix_project (projectId : ObjectId) (h : string) (c : Commit.t) :
  Commit.matches_prefix projectId h c = true -> Commit.project c = projectId.
Proof.
  unfold Commit.matches_prefix. intros H. apply andb_true_iff in H as [H _].
  now apply Nat.eqb_eq.
Qed.

(** X25. [GET /:projectId/compare/:baseHash...:headHash] returns the
    commits of the project, on whatever branch, made after the base
    commit and not after the head commit, oldest first, with their number
    and the sums of their statistics.  The base commit is never among
    them; the head commit is among them when it is newer than the base,
    and when it is not newer the comparison is empty. *)
Theorem compareCommits_window (db : Db) (user : option ObjectId) (projectId : ObjectId)
  (baseHash headHash : string) (r : Comparison) :
  compareCommits db user projectId baseHash headHash = Sent 200 r ->
  (forall c, In c (cmp_commits r) <->
     In c (commits db) /\ Commit.project c = projectId
     /\ (Commit.createdAt (cmp_base r) < Commit.createdAt c
         <= Commit.createdAt (cmp_head r))%N)
  /\ StronglySorted (fun a b => (Commit.createdAt a <= Commit.createdAt b)%N)
       (cmp_commits r)
  /\ cmp_totalCommits r = List.length (cmp_commits r)
  /\ cmp_filesChanged r
     = list_sum (map (fun c => Commit.filesChanged (Commit.stats c)) (cmp_commits r))
  /\ cmp_linesAdded r
     = list_sum (map (fun c => Commit.totalLinesAdded (Commit.stats c)) (cmp_commits r))
  /\ cmp_linesDeleted r
     = list_sum (map (fun c => Commit.totalLinesDeleted (Commit.stats c)) (cmp_commits r))
  /\ ~ In (cmp_base r) (cmp_commits r)
  /\ ((Commit.createdAt (cmp_base r) < Commit.createdAt (cmp_head r))%N ->
      In (cmp_head r) (cmp_commits r))
  /\ ((Commit.createdAt (cmp_head r) <= Commit.createdAt (cmp_base r))%N ->
      cmp_commits r = [] /\ cmp_totalCommits r = 0 /\ cmp_filesChanged r = 0
      /\ cmp_linesAdded r = 0 /\ cmp_linesDeleted r = 0).
Proof.
  unfold compareCommits.
  destruct (negb (hashLength baseHash && hashLength headHash)); [discriminate |].
  destruct (findProject db projectId) as [p |]; [| discriminate].
  destruct (denied p user); [discriminate |].
  destruct (find (Commit.matches_prefix projectId baseHash) (commits db))
    as [baseCommit |] eqn:Hbase; [| discriminate].
  destruct (find (Commit.matches_prefix projectId headHash) (commits db))
    as [headCommit |] eqn:Hhead; [| discriminate].
  rewrite fold_totals. intros H. injection H as <-. simpl.
  set (window := filter (between projectId baseCommit headCommit) (commits db)).
  assert (forall c, In c (sort_by oldest_first window) <->
            In c (commits db) /\ Commit.project c = projectId
            /\ (Commit.createdAt baseCommit < Commit.createdAt c
                <= Commit.createdAt headCommit)%N) as Hmem.
  { intros c. rewrite sort_by_In. unfold window, between.
    rewrite filter_In, !andb_true_iff, Nat.eqb_eq, N.ltb_lt, N.leb_le. tauto. }
  apply find_some in Hbase as [Hbin Hbkey]. apply matches_prefix_project in Hbkey.
  apply find_some in Hhead as [Hhin Hhkey]. apply matches_prefix_project in Hhkey.
  split; [exact Hmem |].
  split.
  { apply (sorted_weaken (fun a b => oldest_first a b = true)).
    - intros a b _ _ H. now apply N.leb_le.
    - apply sort_by_sorted; unfold oldest_first.
      + intros a b H. apply N.leb_gt in H. apply N.leb_le. lia.
      + intros a b c H1 H2. apply N.leb_le in H1, H2. apply N.leb_le. lia. }
  repeat split; trivial.
  - intros H. apply Hmem in H. lia.
  - intros H. apply Hmem. repeat split; trivial. lia.
  - destruct (sort_by oldest_first window) as [| c l]; [reflexivity |].
    exfalso. assert (In c (c :: l)) as Hc by now left. apply Hmem in Hc. lia.
  - destruct (sort_by oldest_first window) as [| c l]; [reflexivity |].
    exfalso. assert (In c (c :: l)) as Hc by now left. apply Hmem in Hc. lia.
  - destruct (sort_by oldest_first window) as [| c l]; [reflexivity |].
    exfalso. assert (In c (c :: l)) as Hc by now left. apply Hmem in Hc. lia.
  - destruct (sort_by oldest_first window) as [| c l]; [reflexivity |].
    exfalso. assert (In c (c :: l)) as Hc by now left. apply Hmem in Hc. lia.
  - destruct (sort_by oldest_first window) as [| c l]; [reflexivity |].
    exfalso. assert (In c (c :: l)) as Hc by now left. apply Hmem in Hc. lia.
Qed.

Lemma compareCommits_window_witness :
  let r := {| cmp_base := Scenario.initialCommit; cmp_head := Ambiguous.first;
              cmp_commits := [Ambiguous.first]; cmp_filesChanged := 0;
              cmp_linesAdded := 0; cmp_linesDeleted := 0; cmp_totalCommits := 1 |} in
  compareCommits Ambiguous.db None Scenario.P "4601e1b" "a3f91c2e5" = Sent 200 r
  /\ ~ In (cmp_base r) (cmp_commits r).
Proof.
  intros r.
  assert (compareCommits Ambiguous.db None Scenario.P "4601e1b" "a3f91c2e5" = Sent 200 r)
    as Hcmp by (vm_compute; reflexivity).
  split; [exact Hcmp |].
  apply (compareCommits_window Ambiguous.db None Scenario.P "4601e1b" "a3f91c2e5" r Hcmp).
Defined.

(** ** The ledger (routes/files.js, routes/projects.js) *)

Lemma commit_save_result (env : Env) (c c' : Commit.t) (l l' : list Commit.t)
  (e : option SaveError) :
  Commit.save env c l = (l', c', e) ->
  l' = l
  \/ (l' = (l ++ [c'])%list
      /\ Commit.message c' = Commit.message c /\ Commit.branch c' = Commit.branch c
      /\ Commit.parentCommits c' = Commit.parentCommits c
      /\ Commit.changes c' = Commit.changes c).
Proof.
  unfold Commit.save. destruct (Commit.validate c); [intros H; inversion H; now left |].
  destruct (existsb _ l); intros H; inversion H; subst; [now left |].
  right. split; [reflexivity |]. unfold Commit.pre_save.
  destruct (Commit.no_hash c); simpl; auto.
Qed.

Section Ledger.

#[local] Arguments Branch.save : simpl never.
#[local] Arguments Branch.save_new : simpl never.
#[local] Arguments Branch.updateStats : simpl never.
#[local] Arguments Branch.createMain : simpl never.
#[local] Arguments File.save : simpl never.
#[local] Arguments File.save_new : simpl never.
#[local] Arguments Commit.save : simpl never.
#[local] Arguments Commit.generateHash : simpl never.
#[local] Arguments copyFiles : simpl never.

Lemma serve_ledger (db : Db) (env : Env) (r : Request) :
  commits (serve db env r) = commits db
  \/ exists c, commits (serve db env r) = (commits db ++ [c])%list /\ isInitial c.
Proof.
  destruct r; simpl.
  - unfold createProject. split_handler; auto.
    all: match goal with
         | H : Commit.save _ _ _ = _ |- _ =>
             apply commit_save_result in H; simpl in H;
             destruct H as [-> | (-> & Hm & Hb & Hp & Hc)]; [now left |]
         end.
    all: right; eexists; (split; [reflexivity |]).
    all: unfold isInitial; rewrite Hm, Hb, Hp, Hc; repeat split; eauto.
  - unfold updateProject. split_handler; auto.
  - unfold deleteProject. split_handler; auto.
  - unfold addCollaborator. split_handler; auto.
  - unfold removeCollaborator. split_handler; auto.
  - left. apply put_records_no_commit.
  - left. apply remove_records_no_commit.
  - unfold createBranch. split_handler; auto.
  - unfold updateBranch. split_handler; auto.
  - unfold deleteBranch. split_handler; auto.
Qed.

End Ledger.

(** X26. The ledger only grows, and by initial commits alone: whatever
    requests are served, the commits recorded before stay as they are, in
    their order, and every commit that is added is the initial commit of
    a new project.  No route changes or removes a commit, and the routes
    that write files add none. *)
Theorem ledger_is_append_only (db : Db) (trace : list (Env * Request)) :
  exists added,
    commits (run db trace) = (commits db ++ added)%list
    /\ forall c, In c added -> isInitial c.
Proof.
  revert db. induction trace as [| [env r] trace IH]; intros db.
  - exists []. split; [now rewrite app_nil_r | intros c []].
  - change (run db ((env, r) :: trace)) with (run (serve db env r) trace).
    destruct (IH (serve db env r)) as (added & -> & Hall).
    destruct (serve_ledger db env r) as [-> | (c & -> & Hc)].
    + now exists added.
    + exists (c :: added). split; [now rewrite <- app_assoc |].
      intros c' [<- | Hin]; [exact Hc | now apply Hall].
Qed.

(** ** The lookup of a commit by the prefix of its hash (routes/commits.js) *)



Section Hashes.

#[local] Arguments Branch.save : simpl never.
#[local] Arguments Branch.save_new : simpl never.
#[local] Arguments Branch.updateStats : simpl never.
#[local] Arguments Branch.createMain : simpl never.
#[local] Arguments File.save : simpl never.
#[local] Arguments File.save_new : simpl never.
#[local] Arguments Commit.save : simpl never.
#[local] Arguments Commit.generateHash : simpl never.
#[local] Arguments copyFiles : simpl never.


End Hashes.














(** ** The diff of a commit (routes/commits.js) *)

Lemma diffsOf_exact (db : Db) (projectId : ObjectId) (commit : Commit.t)
  (changes : list Commit.Change) :
  Forall2 (fun change d => diffOf db projectId commit change = Some d)
          (filter (hasFile db) changes) (diffsOf db projectId commit changes).
Proof.
  induction changes as [| ch rest IH]; simpl; [constructor |].
  unfold hasFile at 1.
  destruct (diffOf db projectId commit ch) as [d |] eqn:E.
  - assert (populated db ch <> None) as Hpop.
    { intros Hnone. unfold diffOf in E. now rewrite Hnone in E. }
    destruct (populated db ch); [| now elim Hpop].
    constructor; [exact E | exact IH].
  - assert (populated db ch = None) as ->; [| exact IH].
    unfold diffOf in E. destruct (populated db ch); [| reflexivity].
    destruct (Commit.action ch =? "deleted"); discriminate E.
Qed.

Lemma diffOf_shows (db : Db) (projectId : ObjectId) (commit : Commit.t)
  (change : Commit.Change) (d : Diff) :
  diffOf db projectId commit change = Some d -> shows db commit change d.
Proof.
  intros Hdiff. unfold diffOf in Hdiff.
  destruct (populated db change) as [file |] eqn:Hpopulated; [| discriminate].
  pose proof Hpopulated as Hpop. unfold populated in Hpop.
  destruct (Commit.file change) as [id |] eqn:Hfile; [| discriminate].
  apply find_some in Hpop as [Hfin Hid]. apply Nat.eqb_eq in Hid. subst id.
  exists file.
  destruct (Commit.action change =? "deleted") eqn:Hdel.
  - apply String.eqb_eq in Hdel. injection Hdiff as <-. simpl.
    repeat split; trivial; intros; congruence.
  - apply String.eqb_neq in Hdel. injection Hdiff as <-. simpl.
    repeat split; trivial; try congruence.
    intros [Hmod | Hparents].
    + apply String.eqb_neq in Hmod. now rewrite Hmod.
    + rewrite Hparents. simpl. now rewrite andb_false_r.
Qed.

(** X27. [GET /:projectId/:commitHash/diff] has one entry for each change of
    the commit whose file document exists, in the order of the changes
    and no other entry, with the action, the path and the line counts of
    the change.  The contents are read from the file collection as it is
    now: for a deleted file the content of the document is shown as the
    content before and nothing after; for any other change the content
    of the document is shown as the content after, and nothing is shown
    before unless the change is a modification in a commit that has
    parents. *)
Theorem commitDiff_entries (db : Db) (user : option ObjectId) (projectId : ObjectId)
  (commitHash : string) (commit : Commit.t) (diffs : list Diff) :
  commitDiff db user projectId commitHash = Sent 200 (commit, diffs) ->
  In commit (commits db) /\ Commit.project commit = projectId
  /\ Forall2 (shows db commit) (filter (hasFile db) (Commit.changes commit)) diffs
  /\ List.length diffs = List.length (filter (hasFile db) (Commit.changes commit)).
Proof.
  unfold commitDiff.
  destruct (negb (hashLength commitHash)); [discriminate |].
  destruct (findProject db projectId) as [p |]; [| discriminate].
  destruct (denied p user); [discriminate |].
  destruct (find _ (commits db)) as [c |] eqn:Hfind; [| discriminate].
  intros H. injection H as -> <-.
  apply find_some in Hfind as [Hin Hkey]. apply matches_prefix_project in Hkey.
  split; [exact Hin |]. split; [exact Hkey |].
  pose proof (diffsOf_exact db projectId commit (Commit.changes commit)) as Hexact.
  split.
  - revert Hexact. apply Forall2_impl. intros change d. apply diffOf_shows.
  - symmetry. exact (Forall2_length Hexact).
Qed.

Lemma commitDiff_entries_witness :
  exists diffs,
    commitDiff Scenario.written None Scenario.P "4601e1b"
    = Sent 200 (Scenario.initialCommit, diffs)
    /\ List.length diffs
       = List.length (filter (hasFile Scenario.written)
                             (Commit.changes Scenario.initialCommit)).
Proof.
  assert (commitDiff Scenario.written None Scenario.P "4601e1b"
          = Sent 200 (Scenario.initialCommit,
                      [{| diff_name := "README.md"; diff_path := "/README.md";
                          diff_action := "added"; beforeContent := "";
                          afterContent := "hello" ++ newline ++ "world";
                          diff_linesAdded := 2; diff_linesDeleted := 0 |}])) as Hdiff
    by (vm_compute; reflexivity).
  eexists. split; [exact Hdiff |].
  apply (commitDiff_entries Scenario.written None Scenario.P "4601e1b" _ _ Hdiff).
Defined.

(** ** The paths of the requests (routes/files.js) *)

Lemma split_nonempty (sep : ascii) (s : string) : Js.split sep s <> [].
Proof.
  destruct s as [| c s]; simpl; [discriminate |].
  destruct (Ascii.eqb c sep); [discriminate |].
  destruct (Js.split sep s); discriminate.
Qed.

Lemma join_cons (sep x : string) (l : list string) :
  l <> [] -> Js.join sep (x :: l) = x ++ sep ++ Js.join sep l.
Proof. destruct l; [now intros H; elim H | reflexivity]. Qed.

Lemma join_split (sep : ascii) (s : string) :
  Js.join (String sep "") (Js.split sep s) = s.
Proof.
  induction s as [| c s IH]; simpl; [reflexivity |].
  destruct (Ascii.eqb_spec c sep) as [-> | N].
  - rewrite join_cons by apply split_nonempty. simpl. now rewrite IH.
  - pose proof (split_nonempty sep s) as Hne.
    destruct (Js.split sep s) as [| piece rest]; [now elim Hne |].
    destruct rest as [| r rest].
    + simpl in *. now rewrite IH.
    + rewrite join_cons by discriminate. rewrite join_cons in IH by discriminate.
      rewrite <- IH. reflexivity.
Qed.

Lemma split_pieces (sep : ascii) (s piece : string) (c : ascii) :
  In piece (Js.split sep s) -> In c (list_ascii_of_string piece) -> c <> sep.
Proof.
  revert piece. induction s as [| a s IH]; intros piece; simpl.
  - intros [<- | []] [].
  - destruct (Ascii.eqb_spec a sep) as [-> | N].
    + intros [<- | H]; [intros [] | now apply IH].
    + pose proof (split_nonempty sep s) as Hne.
      destruct (Js.split sep s) as [| p rest]; [now elim Hne |].
      intros [<- | H].
      * simpl. intros [<- | Hc]; [exact N |]. apply (IH p); [now left | exact Hc].
      * apply IH. now right.
Qed.

Lemma join_snoc (sep x : string) (l : list string) :
  l <> [] -> Js.join sep (l ++ [x]) = Js.join sep l ++ sep ++ x.
Proof.
  induction l as [| y l IH]; [now intros H; elim H |]. intros _.
  destruct l as [| z l]; [reflexivity |].
  change ((y :: z :: l) ++ [x])%list with (y :: ((z :: l) ++ [x]))%list.
  rewrite join_cons by (simpl; discriminate).
  rewrite IH by discriminate. rewrite (join_cons sep y (z :: l)) by discriminate.
  now rewrite !append_assoc.
Qed.

(** X28. The directory and the name into which the file routes split the
    path of a request determine that path, but for one slash at its
    front: the name holds no slash, the directory starts with one, and
    either the directory is the root and the path is the name, bare or
    after one slash, or the directory, a slash and the name make up the
    path after a slash.  So [README.md] and [/README.md] are one file of
    the root, while [a/b] lies in [/a] and [/a/b] in [//a]. *)
Theorem parsePath_recomposes (filePath : string) :
  let dirPath := fst (parsePath filePath) in
  let fileName := snd (parsePath filePath) in
  (forall c, In c (list_ascii_of_string fileName) -> c <> "/"%char)
  /\ (exists rest, dirPath = String "/" rest)
  /\ ((dirPath = "/" /\ (filePath = fileName \/ filePath = "/" ++ fileName))
      \/ (dirPath <> "/" /\ dirPath ++ "/" ++ fileName = "/" ++ filePath)).
Proof.
  unfold parsePath. simpl.
  pose proof (split_nonempty "/" filePath) as Hne.
  pose proof (join_split "/" filePath) as Hjoin.
  pose proof (@app_removelast_last _ (Js.split "/" filePath) "" Hne) as Hparts.
  set (parts := Js.split "/" filePath) in *.
  set (fileName := last parts "") in *.
  split; [| split].
  - intros c Hc. apply (split_pieces "/" filePath fileName); trivial.
    fold parts. rewrite Hparts. apply in_app_iff. right. now left.
  - destruct (removelast parts); eauto.
  - destruct (removelast parts) as [| r rest] eqn:Hrest.
    + left. split; [reflexivity |]. left. rewrite <- Hjoin, Hparts. reflexivity.
    + rewrite Hparts, join_snoc in Hjoin by discriminate.
      destruct (Js.join "/" (r :: rest)) as [| a j] eqn:Hj.
      * left. split; [reflexivity |]. right. now rewrite <- Hjoin.
      * right. split; [discriminate |].
        rewrite <- Hjoin. simpl. reflexivity.
Qed.

(** ** The order of the routes (routes/commits.js) *)

Lemma stats_is_a_hash_piece (dotted : string -> bool) (path : list string) :
  Router.matches_all dotted [Router.Param "projectId"; Router.Literal "stats"] path = true ->
  Router.matches_all dotted [Router.Param "projectId"; Router.Param "commitHash"] path = true.
Proof.
  destruct path as [| a [| b [| c rest]]]; simpl; try discriminate.
  - now rewrite andb_false_r.
  - intros H. apply andb_true_iff in H as [Ha H]. rewrite Ha. simpl.
    destruct b; [discriminate H | reflexivity].
  - now rewrite !andb_false_r.
Qed.

(** X29. The statistics route of the commits router is never reached: a
    path that its pattern [/:projectId/stats] matches is matched by
    [/:projectId/:commitHash], which is registered before it, so the
    request goes to the handler of the commit details, and that handler
    answers 400 because [stats] is shorter than a commit hash. *)
Theorem statistics_route_is_shadowed (dotted : string -> bool) (db : Db)
  (user : option ObjectId) (projectId : ObjectId) :
  (forall path, Router.dispatch dotted path <> Some Router.Statistics)
  /\ (forall piece, piece <> "" ->
        Router.dispatch dotted [piece; "stats"] = Some Router.Details)
  /\ getCommit db user projectId "stats" = Failed 400 "Validation failed".
Proof.
  split; [| split].
  - intros path.
    cbv beta iota delta [Router.dispatch Router.routes find fst snd option_map].
    destruct (Router.matches_all dotted [Router.Param "projectId"] path);
      [discriminate |].
    destruct (Router.matches_all dotted
                [Router.Param "projectId"; Router.Param "commitHash"] path) eqn:Hdetails;
      [discriminate |].
    destruct (Router.matches_all dotted
                [Router.Param "projectId"; Router.Param "commitHash";
                 Router.Literal "diff"] path);
      [discriminate |].
    destruct (Router.matches_all dotted
                [Router.Param "projectId"; Router.Literal "compare";
                 Router.Dotted "baseHash" "headHash"] path);
      [discriminate |].
    destruct (Router.matches_all dotted
                [Router.Param "projectId"; Router.Literal "stats"] path) eqn:Hstats;
      [| discriminate].
    apply stats_is_a_hash_piece in Hstats. congruence.
  - intros piece Hpiece. unfold Router.dispatch. simpl.
    apply String.eqb_neq in Hpiece. rewrite Hpiece. reflexivity.
  - reflexivity.
Qed.
